(** * echopype: the processing core ([echopype/process/process_base.py])

    A shallow embedding of [ProcessBase] and [ProcessEK] and the properties
    of their calibration, aggregation and correction-table code.

    Conventions of the embedding.
    - A Python call either returns a value or raises; exceptions are kept
      with the message of the [raise] statement that produced them.
    - Methods that print, persist or assign to attributes of the [EchoData]
      object they are handed run in a state-and-exception monad; the state
      survives an exception, as the object does in Python.
    - Array values of the calibration and aggregation code are real numbers:
      [np.log10] and [**] are the real logarithm and power, so rounding is
      outside the model.  Where the calibration code takes the logarithm of
      an input, the result for a number that is not positive ([-inf] or
      [nan] in numpy) is no real number: it is kept as an uninterpreted
      value, about which nothing can be proved.  The correction-table
      resolver only compares and selects, and is modelled on rationals,
      where it can be evaluated. *)

From Stdlib Require Import Reals Lra Lia QArith Qabs.
From stdpp Require Import base gmap strings list.

(** ** Python results *)

Inductive exn : Type :=
  | ValueError (msg : string)
  | KeyError (key : string)
  | TypeError (msg : string)
  | IndexError (msg : string)
  | AttributeError (msg : string)
  | UnboundLocalError (msg : string)
  | OSError (msg : string).

Inductive outcome (A : Type) : Type :=
  | Return (a : A)
  | Raise (e : exn).
Arguments Return {A} a.
Arguments Raise {A} e.

Definition obind {A B} (o : outcome A) (k : A -> outcome B) : outcome B :=
  match o with
  | Return a => k a
  | Raise e => Raise e
  end.

(** [d[key]] on a Python dict. *)
Definition getitem {V} (d : gmap string V) (key : string) : outcome V :=
  match d !! key with
  | Some v => Return v
  | None => Raise (KeyError key)
  end.

(** ** Labelled arrays

    Every array of the calibration code has its dimensions among
    [frequency], [ping_time] and [range_bin].  Along each of the three, in
    this order, a value either has the dimension ([Along]) or is broadcast
    over it ([Bcast]); a Python float is broadcast over all three. *)

Inductive axis (A : Type) : Type :=
  | Bcast (x : A)
  | Along (l : list A).
Arguments Bcast {A} x.
Arguments Along {A} l.

Definition axis_map {A B} (f : A -> B) (a : axis A) : axis B :=
  match a with
  | Bcast x => Bcast (f x)
  | Along l => Along (map f l)
  end.

(** Binary arithmetic aligns the operands on the dimensions they share and
    broadcasts over the others; shared index ranges are intersected. *)
Definition axis_zip {A B C} (f : A -> B -> C) (a : axis A) (b : axis B) : axis C :=
  match a, b with
  | Bcast x, Bcast y => Bcast (f x y)
  | Bcast x, Along l => Along (map (f x) l)
  | Along l, Bcast y => Along (map (fun x => f x y) l)
  | Along l1, Along l2 => Along (zip_with f l1 l2)
  end.

Definition axis_at {A} (i : nat) (a : axis A) : option A :=
  match a with
  | Bcast x => Some x
  | Along l => l !! i
  end.

Definition xarr : Type := axis (axis (axis R)).

Definition scalar (x : R) : xarr := Bcast (Bcast (Bcast x)).
Definition per_channel (v : list R) : xarr := Along (map (fun x => Bcast (Bcast x)) v).
Definition cube (a : list (list (list R))) : xarr := Along (map (fun plane => Along (map Along plane)) a).

Definition xmap (f : R -> R) (a : xarr) : xarr := axis_map (axis_map (axis_map f)) a.
Definition xzip (f : R -> R -> R) (a b : xarr) : xarr := axis_zip (axis_zip (axis_zip f)) a b.

(** The sample at channel [c], ping [p], range bin [r]. *)
Definition xat (a : xarr) (c p r : nat) : option R :=
  match axis_at c a with
  | Some plane =>
      match axis_at p plane with
      | Some row => axis_at r row
      | None => None
      end
  | None => None
  end.

Definition log10 (x : R) : R := (ln x / ln 10)%R.
Definition pow10 (x : R) : R := Rpower 10 x.

Declare Scope xarr_scope.
Delimit Scope xarr_scope with X.
Bind Scope xarr_scope with xarr.
Notation "a + b" := (xzip Rplus a b) : xarr_scope.
Notation "a - b" := (xzip Rminus a b) : xarr_scope.
Notation "a * b" := (xzip Rmult a b) : xarr_scope.
Notation "a / b" := (xzip Rdiv a b) : xarr_scope.

(** [np.log10] of an array of positive numbers. *)
Definition np_log10 (a : xarr) : xarr := xmap log10 a.

(** [np.log10] of an array that may hold anything: the real logarithm of
    a positive number; of zero or a negative number numpy gives [-inf] or
    [nan], here the uninterpreted [nonfinite x]. *)
Definition log10_or (nonfinite : R -> R) (x : R) : R :=
  if Rlt_dec 0 x then log10 x else nonfinite x.
Definition np_log10_or (nonfinite : R -> R) (a : xarr) : xarr :=
  xmap (log10_or nonfinite) a.
Definition xsquare (a : xarr) : xarr := xmap (fun x => (x ^ 2)%R) a.

(** [a.where(a >= 1, other=1)] *)
Definition where_ge1 (a : xarr) : xarr :=
  xmap (fun x => if Rle_dec 1 x then x else 1%R) a.

(** The dimensions and extents of an array. *)
Definition shape : Type := axis (axis (axis unit)).
Definition shape_of (a : xarr) : shape :=
  axis_map (axis_map (axis_map (fun _ : R => tt))) a.

#[global] Instance axis_eq_dec {A} `{EqDecision A} : EqDecision (axis A).
Proof. solve_decision. Defined.

(** The array has all of [frequency], [ping_time] and [range_bin]. *)
Definition has_all_dims (s : shape) : bool :=
  match s with
  | Along planes =>
      forallb (fun plane =>
        match plane with
        | Along pings =>
            forallb (fun ping => match ping with Along _ => true | Bcast _ => false end) pings
        | Bcast _ => false
        end) planes
  | Bcast _ => false
  end.

(** A Dataset: named variables. *)
Abbreviation dataset := (gmap string xarr).
(** [env_params], [cal_params]: dicts of arrays or floats. *)
Abbreviation params := (gmap string xarr).

(** ** The EchoData object and the world around a call *)

Record RawData : Type := mkRaw {
  frequency : xarr;
  backscatter_r : xarr
}.

Record EchoData : Type := mkEchoData {
  raw : RawData;
  (** [xr.open_dataset(ed.raw_path, group="Environment")]: the Environment
      group of the raw file, or the exception of a file that cannot be read *)
  raw_environment : outcome dataset;
  range : option xarr;
  Sv : option dataset;
  Sp : option dataset;
  Sv_clean : option dataset;
  Sv_path : option string;
  Sp_path : option string
}.

Definition set_range (v : xarr) (ed : EchoData) : EchoData :=
  mkEchoData (raw ed) (raw_environment ed) (Some v) (Sv ed) (Sp ed) (Sv_clean ed) (Sv_path ed) (Sp_path ed).
Definition set_Sv (v : dataset) (ed : EchoData) : EchoData :=
  mkEchoData (raw ed) (raw_environment ed) (range ed) (Some v) (Sp ed) (Sv_clean ed) (Sv_path ed) (Sp_path ed).
Definition set_Sp (v : dataset) (ed : EchoData) : EchoData :=
  mkEchoData (raw ed) (raw_environment ed) (range ed) (Sv ed) (Some v) (Sv_clean ed) (Sv_path ed) (Sp_path ed).
Definition set_Sv_path (v : string) (ed : EchoData) : EchoData :=
  mkEchoData (raw ed) (raw_environment ed) (range ed) (Sv ed) (Sp ed) (Sv_clean ed) (Some v) (Sp_path ed).
Definition set_Sp_path (v : string) (ed : EchoData) : EchoData :=
  mkEchoData (raw ed) (raw_environment ed) (range ed) (Sv ed) (Sp ed) (Sv_clean ed) (Sv_path ed) (Some v).

(** One completed call of [ed._save_dataset(ds, path, mode="w", save_format=fmt)]. *)
Record saved : Type := mkSaved {
  saved_dataset : dataset;
  saved_path : string;
  saved_format : string
}.

Record state : Type := mkState {
  ed_obj : EchoData;          (* the object the caller passed as [ed] *)
  stdout : list string;       (* lines printed, oldest first *)
  persisted : list saved      (* datasets the persist collaborator has written *)
}.

(** ** The state-and-exception monad of the methods *)

Definition M (A : Type) : Type := state -> state * outcome A.

Definition ret {A} (a : A) : M A := fun s => (s, Return a).
Definition throw {A} (e : exn) : M A := fun s => (s, Raise e).
Definition bind {A B} (m : M A) (k : A -> M B) : M B :=
  fun s => match m s with
           | (s', Return a) => k a s'
           | (s', Raise e) => (s', Raise e)
           end.
Definition lift {A} (o : outcome A) : M A := fun s => (s, o).
Definition get_ed : M EchoData := fun s => (s, Return (ed_obj s)).
Definition modify_ed (f : EchoData -> EchoData) : M unit :=
  fun s => (mkState (f (ed_obj s)) (stdout s) (persisted s), Return tt).
Definition print (line : string) : M unit :=
  fun s => (mkState (ed_obj s) (stdout s ++ [line]) (persisted s), Return tt).
(** A call of the persist collaborator, which writes the dataset or raises. *)
Definition save_dataset (persist : dataset -> string -> string -> outcome unit)
    (ds : dataset) (path fmt : string) : M unit :=
  fun s => match persist ds path fmt with
           | Return _ =>
               (mkState (ed_obj s) (stdout s) (persisted s ++ [mkSaved ds path fmt]), Return tt)
           | Raise e => (s, Raise e)
           end.

Notation "x <~ m ;; k" := (bind m (fun x => k))
  (at level 100, m at next level, right associativity, only parsing).
Notation "m ;;; k" := (bind m (fun _ => k))
  (at level 100, right associativity, only parsing).

(** Python's [None] as a return value. *)
Definition none : M unit := ret tt.

(** ** ProcessEK: calibration of narrowband data *)

(** [ds['range'] = (('frequency', 'ping_time', 'range_bin'),
    rng.transpose('frequency', 'ping_time', 'range_bin'))] on the dataset
    [ds] made of the array [arr] under the name [product].  [transpose]
    raises unless [rng] has exactly the three dimensions, and the
    assignment raises unless [rng] has the extents of [arr]. *)
Definition attach_range (product : string) (arr rng : xarr) : outcome dataset :=
  if negb (has_all_dims (shape_of rng)) then
    Raise (ValueError "transpose: the dimensions must be a permuted list of the dimensions of the array")
  else if decide (shape_of rng = shape_of arr) then
    Return (<["range" := rng]> {[product := arr]})
  else
    Raise (ValueError "conflicting sizes for dimension").

Section ProcessEK.
(** [calc_range] is supplied by the sonar-model subclass; the path helper
    of [utils.io], the clock and [ed._save_dataset] are outside this file.
    [nonfinite] stands for what [np.log10] gives for a number that is not
    positive. *)
Variable calc_range : EchoData -> params -> params -> xarr.
Variable validate_proc_path : EchoData -> string -> option string -> string.
Variable now : string.
Variable _save_dataset : dataset -> string -> string -> outcome unit.
Variable nonfinite : R -> R.

Definition calc_sample_thickness (env_params cal_params : params) : outcome xarr :=
  obind (getitem env_params "speed_of_sound_in_water") (fun sos =>
  obind (getitem cal_params "sample_interval") (fun si =>
  Return (sos * si / scalar 2)%X)).

(** Transmission loss, lines 211 and 212. *)
Definition spreading_loss (rng : xarr) : xarr :=
  (scalar 20 * np_log10_or nonfinite (where_ge1 rng))%X.
Definition absorption_loss (seawater_absorption rng : xarr) : xarr :=
  (scalar 2 * seawater_absorption * rng)%X.

(** Gain terms, lines 217 and 247. *)
Definition CSv_of (wavelength transmit_power gain_correction equivalent_beam_angle
                   transmit_duration_nominal speed_of_sound : xarr) : xarr :=
  (scalar 10 * np_log10_or nonfinite transmit_power
   + scalar 2 * gain_correction
   + equivalent_beam_angle
   + scalar 10 * np_log10_or nonfinite (xsquare wavelength
                           * transmit_duration_nominal
                           * speed_of_sound
                           / scalar (32 * PI ^ 2)))%X.
Definition CSp_of (wavelength transmit_power gain_correction : xarr) : xarr :=
  (scalar 10 * np_log10_or nonfinite transmit_power
   + scalar 2 * gain_correction
   + scalar 10 * np_log10_or nonfinite (xsquare wavelength / scalar (16 * PI ^ 2)))%X.

Definition _cal_narrowband (env_params cal_params : params) (cal_type : string)
    (save : bool) (save_path : option string) (save_format : string) : M unit :=
  ed <~ get_ed ;;
  sos <~ lift (getitem env_params "speed_of_sound_in_water") ;;
  let wavelength := (sos / frequency (raw ed))%X in
  rng <~ match range ed with
         | None =>
             let r := calc_range ed env_params cal_params in
             (modify_ed (set_range r) ;;; ret r)
         | Some r => ret r
         end ;;
  let spreading_loss := spreading_loss rng in
  alpha <~ lift (getitem env_params "seawater_absorption") ;;
  let absorption_loss := absorption_loss alpha rng in
  if String.eqb cal_type "Sv" then
    transmit_power <~ lift (getitem cal_params "transmit_power") ;;
    gain_correction <~ lift (getitem cal_params "gain_correction") ;;
    equivalent_beam_angle <~ lift (getitem cal_params "equivalent_beam_angle") ;;
    transmit_duration_nominal <~ lift (getitem cal_params "transmit_duration_nominal") ;;
    sos' <~ lift (getitem env_params "speed_of_sound_in_water") ;;
    let CSv := CSv_of wavelength transmit_power gain_correction equivalent_beam_angle
                      transmit_duration_nominal sos' in
    sa_correction <~ lift (getitem cal_params "sa_correction") ;;
    let Sv_arr := (backscatter_r (raw ed) + spreading_loss + absorption_loss
                   - CSv - scalar 2 * sa_correction)%X in
    Sv_ds <~ lift (attach_range "Sv" Sv_arr rng) ;;
    if save then
      ed' <~ get_ed ;;
      let Sv_path := validate_proc_path ed' "_Sv" save_path in
      print (now ++ "  saving calibrated Sv to " ++ Sv_path) ;;;
      save_dataset _save_dataset Sv_ds Sv_path save_format ;;;
      modify_ed (set_Sv_path Sv_path)
    else
      modify_ed (set_Sv Sv_ds)
  else if String.eqb cal_type "Sp" then
    transmit_power <~ lift (getitem cal_params "transmit_power") ;;
    gain_correction <~ lift (getitem cal_params "gain_correction") ;;
    let CSp := CSp_of wavelength transmit_power gain_correction in
    let Sp_arr := (backscatter_r (raw ed) + spreading_loss * scalar 2 + absorption_loss
                   - CSp)%X in
    Sp_ds <~ lift (attach_range "Sp" Sp_arr rng) ;;
    if save then
      ed' <~ get_ed ;;
      let Sp_path := validate_proc_path ed' "_Sp" save_path in
      print (now ++ "  saving calibrated Sp to " ++ Sp_path) ;;;
      save_dataset _save_dataset Sp_ds Sp_path save_format ;;;
      modify_ed (set_Sp_path Sp_path)
    else
      modify_ed (set_Sp Sp_ds)
  else
    none.
End ProcessEK.

(** ** ProcessBase: sound speed and absorption *)

(** [astype(np.int64)]: truncation towards zero; a value whose integer
    part is not a 64-bit integer becomes the least 64-bit integer. *)
Definition astype_int64 (x : R) : R :=
  let z := if Rle_dec 0 x then Int_part x else (- Int_part (- x))%Z in
  if ((- 2 ^ 63 <=? z) && (z <? 2 ^ 63))%Z then IZR z else IZR (- 2 ^ 63).

Section ProcessBase_environment.
(** The kernels of [utils.uwa]: salinity, temperature, pressure and the
    formula source, with the frequency first for the absorption. *)
Variable uwa_calc_sound_speed : xarr -> xarr -> xarr -> string -> xarr.
Variable uwa_calc_seawater_absorption : xarr -> xarr -> xarr -> xarr -> string -> xarr.

(** The result is [None] when the body falls off its end: in the ['file']
    branch without a stored sound speed and in the final [else], the
    [ValueError] is built and dropped. *)
Definition calc_sound_speed (ed : EchoData) (env_params : option params)
    (src formula_source : string) : outcome (option xarr) :=
  if String.eqb src "file" then
    obind (raw_environment ed) (fun ds_env =>
    match ds_env !! "sound_speed_indicative" with
    | Some v => Return (Some v)
    | None => Return None
    end)
  else if String.eqb src "user" then
    match env_params with
    | None => Raise (ValueError "`env_params` required for calculating sound speed")
    | Some env_params =>
        obind (getitem env_params "water_salinity") (fun salinity =>
        obind (getitem env_params "water_temperature") (fun temperature =>
        obind (getitem env_params "water_pressure") (fun pressure =>
        Return (Some (uwa_calc_sound_speed salinity temperature pressure formula_source)))))
    end
  else
    Return None.

Definition calc_seawater_absorption (ed : EchoData) (env_params : params)
    (src formula_source : string) : outcome xarr :=
  if negb (String.eqb src "user") then
    Raise (ValueError "'src' can only be 'user'")
  else
    let freq := xmap astype_int64 (frequency (raw ed)) in
    obind (getitem env_params "water_temperature") (fun temperature =>
    obind (getitem env_params "water_salinity") (fun salinity =>
    obind (getitem env_params "water_pressure") (fun pressure =>
    Return (uwa_calc_seawater_absorption freq temperature salinity pressure formula_source)))).
End ProcessBase_environment.

(** The base [get_Sv] and [get_Sp] only warn. *)
Definition get_Sv : M unit :=
  print "Calibration has not been implemented for this sonar model!".
Definition get_Sp : M unit :=
  print "Calibration has not been implemented for this sonar model!".

(** ** ProcessBase: tiling and MVBS *)

(** Values of [proc_params]. *)
Inductive pyval : Type :=
  | PNone
  | PInt (z : Z)
  | PStr (s : string)
  | PList (l : list Z).

Definition is_None (v : pyval) : bool :=
  match v with PNone => true | _ => false end.

Definition str_eq (v : pyval) (s : string) : bool :=
  match v with PStr t => String.eqb t s | _ => false end.

Definition _get_tile_params (proc_params : gmap string pyval) : M (option (pyval * pyval)) :=
  time_interval <~ lift (getitem proc_params "MVBS_time_interval") ;;
  if negb (is_None time_interval) then
    print "Averaging by time interval is not yet implemented" ;;; ret None
  else
    ping_num <~ lift (getitem proc_params "MVBS_ping_num") ;;
    if is_None ping_num then throw (ValueError "No ping tile size provided")
    else
      let pings_per_tile := ping_num in
      distance_interval <~ lift (getitem proc_params "MVBS_distance_interval") ;;
      if negb (is_None distance_interval) then
        print "Averaging by distance interval is not yet implemented" ;;; ret None
      else
        range_interval <~ lift (getitem proc_params "MVBS_range_interval") ;;
        if negb (is_None range_interval) then
          print "Averaging by range inteval is not yet implemented" ;;; ret None
        else
          range_bin_num <~ lift (getitem proc_params "MVBS_range_bin_num") ;;
          if is_None range_bin_num then throw (ValueError "No range_bin tile size provided")
          else
            let range_bins_per_tile := range_bin_num in
            ret (Some (pings_per_tile, range_bins_per_tile)).

(** *** [coarsen(..., boundary='pad').mean()]

    The array is padded with [nan] up to a multiple of the window along
    each coarsened dimension, cut into windows, and each tile is reduced
    with the mean that skips [nan].  [None] stands for the padding. *)

Definition pad {A} (w : nat) (filler : A) (l : list A) : list A :=
  if Nat.eqb (length l mod w) 0 then l
  else l ++ replicate (w - length l mod w) filler.

Fixpoint windows_aux {A} (fuel w : nat) (l : list A) : list (list A) :=
  match fuel with
  | O => []
  | S fuel' =>
      match l with
      | [] => []
      | _ => take w l :: windows_aux fuel' w (drop w l)
      end
  end.
Definition windows {A} (w : nat) (l : list A) : list (list A) :=
  windows_aux (length l) w l.

Definition Rsum (l : list R) : R := foldr Rplus 0%R l.
Definition mean (l : list R) : R := (Rsum l / INR (length l))%R.
(** The entries that are not padding. *)
Definition real_samples (l : list (option R)) : list R := omap (fun x : option R => x) l.
Definition nanmean (l : list (option R)) : R := mean (real_samples l).

(** The tiles of one band of [p] pings: tile [j] gathers window [j] of
    every ping of the band. *)
Definition band_tiles (band : list (list (list (option R)))) : list (list (option R)) :=
  match band with
  | [] => []
  | first :: _ =>
      map (fun j => concat (map (fun ping => default [] (ping !! j)) band))
          (seq 0 (length first))
  end.

Definition coarsen_plane (p r : nat) (plane : list (list R)) : list (list R) :=
  let padded_pings := map (fun ping => pad r None (map Some ping)) plane in
  let width := length (default [] (head padded_pings)) in
  let padded := pad p (replicate width None) padded_pings in
  map (fun band => map nanmean (band_tiles (map (windows r) band)))
      (windows p padded).

Definition window_size (v : pyval) : outcome nat :=
  match v with
  | PInt z => if (z <=? 0)%Z then Raise (ValueError "window must be > 0")
              else Return (Z.to_nat z)
  | PList _ => Raise (ValueError "The truth value of an array with more than one element is ambiguous")
  | _ => Raise (TypeError "'<=' not supported between instances of window and 'int'")
  end.

Fixpoint sequence {A} (l : list (outcome A)) : outcome (list A) :=
  match l with
  | [] => Return []
  | o :: l' => obind o (fun a => obind (sequence l') (fun t => Return (a :: t)))
  end.

(** The [ping_time] by [range_bin] samples of one channel. *)
Definition plane_samples (plane : axis (axis R)) : outcome (list (list R)) :=
  match plane with
  | Along pings =>
      sequence (map (fun ping => match ping with
                                 | Along samples => Return samples
                                 | Bcast _ => Raise (ValueError "range_bin not found in array dimensions")
                                 end) pings)
  | Bcast _ => Raise (ValueError "ping_time not found in array dimensions")
  end.

Definition plane_of (samples : list (list R)) : axis (axis R) :=
  Along (map Along samples).

Definition coarsen_mean (ping_time range_bin : pyval) (a : xarr) : outcome xarr :=
  obind (window_size ping_time) (fun p =>
  obind (window_size range_bin) (fun r =>
  let tile plane := obind (plane_samples plane)
                          (fun s => Return (plane_of (coarsen_plane p r s))) in
  match a with
  | Bcast plane => obind (tile plane) (fun t => Return (Bcast t))
  | Along planes => obind (sequence (map tile planes)) (fun ts => Return (Along ts))
  end)).

(** [len(np.unique(v))] *)
Definition unique_len (v : pyval) : nat :=
  match v with
  | PList l => length (remove_dups l)
  | _ => 1
  end.

(** [getattr(getattr(ed, name), name)] for [name] one of ['Sv'],
    ['Sv_clean']: the attribute of the object holds a dataset once a
    product has been stored there, and the dataset a variable of the same
    name. *)
Definition get_source (ed : EchoData) (name : string) : outcome xarr :=
  let attr := if String.eqb name "Sv" then Sv ed else Sv_clean ed in
  match attr with
  | None => Raise (AttributeError ("'NoneType' object has no attribute '" ++ name ++ "'"))
  | Some ds =>
      match ds !! name with
      | Some v => Return v
      | None => Raise (AttributeError ("'Dataset' object has no attribute '" ++ name ++ "'"))
      end
  end.

Definition get_MVBS (proc_params : gmap string pyval) : M xarr :=
  ed <~ get_ed ;;
  source <~ lift (getitem proc_params "MVBS_source") ;;
  if str_eq source "Sv" || str_eq source "Sv_clean" then
    let name := match source with PStr s => s | _ => "" end in
    data <~ lift (get_source ed name) ;;
    let Sv_linear := xmap (fun x => pow10 (x / 10)) data in
    tile_params <~ _get_tile_params proc_params ;;
    match tile_params with
    | None => throw (TypeError "cannot unpack non-iterable NoneType object")
    | Some (pings_per_tile, range_bins_per_tile) =>
        type <~ lift (getitem proc_params "MVBS_type") ;;
        MVBS <~ (if str_eq type "binned" then
                   if Nat.eqb (unique_len range_bins_per_tile) 1 then
                     coarse <~ lift (coarsen_mean pings_per_tile range_bins_per_tile Sv_linear) ;;
                     ret (Some (scalar 10 * np_log10 coarse)%X)
                   else ret None
                 else if str_eq type "rolling" then ret None
                 else throw (ValueError "MVBS_type must be either binned or rolling")) ;;
        match MVBS with
        | Some v => ret v
        | None => throw (UnboundLocalError "local variable 'MVBS' referenced before assignment")
        end
    end
  else
    throw (ValueError "MVBS_source must be either Sv or Sv_clean").

(** ** ProcessBase: the remaining methods have a docstring and no body. *)

Definition remove_noise (proc_params : gmap string pyval) (save : bool) (save_format : string) : M unit :=
  none.
Definition get_noise_estimates (proc_params : gmap string pyval) (save : bool) (save_format : string) : M unit :=
  none.
Definition db_diff (proc_params : gmap string pyval) (save : bool) (save_format : string) : M unit :=
  none.

(** ** ProcessEK: the sa_correction resolver

    The resolver compares pulse lengths and selects table entries; its
    numbers are rationals, which every finite float is. *)

(** What [ed.get_vend_from_raw()] returns: per channel, the rows of the
    pulse-length table and of the sa_correction table. *)
Record Vendor : Type := mkVendor {
  vend_frequency : list Q;
  vend_sa_correction : option (list (list Q));
  vend_pulse_length : list (list Q)
}.

(** A one-dimensional result with its [frequency] coordinate. *)
Record DataArray1 : Type := mkDataArray1 {
  da_values : list Q;
  da_frequency : list Q
}.

(** The shapes numpy can hand back here: 0-d, 1-d and 2-d arrays. *)
Inductive ndarray (A : Type) : Type :=
  | Nd0 (x : A)
  | Nd1 (v : list A)
  | Nd2 (rows : list (list A)).
Arguments Nd0 {A} x.
Arguments Nd1 {A} v.
Arguments Nd2 {A} rows.

Definition nd_size {A} (a : ndarray A) : nat :=
  match a with
  | Nd0 _ => 1
  | Nd1 v => length v
  | Nd2 rows => length (concat rows)
  end.

(** [np.isclose(a, b)] with the default [rtol=1e-05], [atol=1e-08]. *)
Definition rtol : Q := 1 # 100000.
Definition atol : Q := 1 # 100000000.
Definition isclose (a b : Q) : bool :=
  Qle_bool (Qabs (a - b)) (atol + rtol * Qabs b).

(** Columns of a 2-d array given by its rows, and back. *)
Definition columns (rows : list (list Q)) : list (list Q) :=
  match rows with
  | [] => []
  | first :: _ => map (fun j => map (fun row => nth j row 0%Q) rows) (seq 0 (length first))
  end.
Definition rows_of_columns (n : nat) (cols : list (list Q)) : list (list Q) :=
  map (fun i => map (fun col => nth i col 0%Q) cols) (seq 0 n).

Fixpoint lex_compare (a b : list Q) : comparison :=
  match a, b with
  | [], [] => Eq
  | [], _ :: _ => Lt
  | _ :: _, [] => Gt
  | x :: a', y :: b' =>
      match Qcompare x y with
      | Eq => lex_compare a' b'
      | c => c
      end
  end.

Fixpoint insert_unique (c : list Q) (sorted : list (list Q)) : list (list Q) :=
  match sorted with
  | [] => [c]
  | d :: rest =>
      match lex_compare c d with
      | Lt => c :: d :: rest
      | Eq => d :: rest
      | Gt => d :: insert_unique c rest
      end
  end.

(** [np.unique(a, axis=1)]: the distinct columns, sorted. *)
Definition unique_axis1 (rows : list (list Q)) : list (list Q) :=
  rows_of_columns (length rows) (foldr insert_unique [] (columns rows)).

(** [.squeeze()] of a 2-d array: axes of length one are dropped. *)
Definition squeeze (rows : list (list Q)) : ndarray Q :=
  match rows with
  | [[x]] => Nd0 x
  | [row] => Nd1 row
  | _ =>
      if forallb (fun row => Nat.eqb (length row) 1) rows
      then Nd1 (map (fun row => nth 0 row 0%Q) rows)
      else Nd2 rows
  end.

(** [a[i]] for [i] in range. *)
Definition nd_index (a : ndarray Q) (i : nat) : outcome (ndarray Q) :=
  match a with
  | Nd0 _ => Raise (IndexError "too many indices for array")
  | Nd1 v =>
      match v !! i with
      | Some x => Return (Nd0 x)
      | None => Raise (IndexError "index is out of bounds for axis 0")
      end
  | Nd2 rows =>
      match rows !! i with
      | Some row => Return (Nd1 row)
      | None => Raise (IndexError "index is out of bounds for axis 0")
      end
  end.

(** [np.isclose] of an item of [unique_pulse_length] against one row of
    the table, with numpy's broadcasting of one-dimensional operands. *)
Definition isclose_row (a : ndarray Q) (row : list Q) : outcome (list bool) :=
  match a with
  | Nd0 x => Return (map (isclose x) row)
  | Nd1 v =>
      if Nat.eqb (length v) (length row) then Return (zip_with isclose v row)
      else match v, row with
           | [x], _ => Return (map (isclose x) row)
           | _, [y] => Return (map (fun x => isclose x y) v)
           | _, _ => Raise (ValueError "operands could not be broadcast together")
           end
  | Nd2 _ => Raise (ValueError "operands could not be broadcast together")
  end.

(** [np.argwhere(mask)] of a one-dimensional mask: the positions of [True]. *)
Fixpoint argwhere_from (i : nat) (mask : list bool) : list nat :=
  match mask with
  | [] => []
  | b :: mask' => if b then i :: argwhere_from (S i) mask' else argwhere_from (S i) mask'
  end.
Definition argwhere (mask : list bool) : list nat := argwhere_from 0 mask.

(** [.squeeze()] of the [(k, 1)] result of [argwhere]: a 0-d index when
    exactly one position matched, a vector of [k] positions otherwise. *)
Definition squeeze_index (js : list nat) : ndarray nat :=
  match js with
  | [j] => Nd0 j
  | _ => Nd1 js
  end.

(** [np.array(items)] of a list of 0-d or 1-d arrays.  Items of one shape
    stack into an array of one more dimension; items that differ in shape
    are refused (numpy 1.24 and later; earlier versions built an array of
    objects instead). *)
Definition all_scalars {A} (items : list (ndarray A)) : option (list A) :=
  mapM (fun it => match it with Nd0 x => Some x | _ => None end) items.
Definition all_vectors {A} (items : list (ndarray A)) : option (list (list A)) :=
  mapM (fun it => match it with Nd1 v => Some v | _ => None end) items.
Definition same_lengths {A} (vs : list (list A)) : bool :=
  match vs with
  | [] => true
  | v :: rest => forallb (fun u => Nat.eqb (length u) (length v)) rest
  end.
Definition np_array {A} (items : list (ndarray A)) : outcome (ndarray A) :=
  match all_scalars items with
  | Some xs => Return (Nd1 xs)
  | None =>
      match all_vectors items with
      | Some vs =>
          if same_lengths vs then Return (Nd2 vs)
          else Raise (ValueError "setting an array element with a sequence. The requested array has an inhomogeneous shape")
      | None => Raise (ValueError "setting an array element with a sequence. The requested array has an inhomogeneous shape")
      end
  end.

(** Iterating an array along its first axis. *)
Definition nd_items {A} (a : ndarray A) : list (ndarray A) :=
  match a with
  | Nd0 _ => []
  | Nd1 v => map Nd0 v
  | Nd2 rows => map Nd1 rows
  end.

(** [ch[x]]: one entry for a 0-d index, the entries at all positions for
    an index vector. *)
Definition take_at (ch : list Q) (x : ndarray nat) : outcome (ndarray Q) :=
  let at_ j := match ch !! j with
               | Some v => Return v
               | None => Raise (IndexError "index is out of bounds for axis 0")
               end in
  match x with
  | Nd0 j => obind (at_ j) (fun v => Return (Nd0 v))
  | Nd1 js => obind (sequence (map at_ js)) (fun vs => Return (Nd1 vs))
  | Nd2 _ => Raise (IndexError "too many indices for array")
  end.

(** Lines 183 to 190: the values selected for each channel. *)
Definition select_sa_correction (ds_vend : Vendor)
    (transmit_duration_nominal : list (list Q)) : outcome (ndarray Q) :=
  match vend_sa_correction ds_vend with
  | None => Raise (ValueError "sa_correction not found in raw data!")
  | Some sa_correction_table =>
      let pulse_length_table := vend_pulse_length ds_vend in
      let unique_pulse_length := squeeze (unique_axis1 transmit_duration_nominal) in
      if negb (Nat.eqb (nd_size unique_pulse_length) (length (vend_frequency ds_vend))) then
        Raise (ValueError "Pulse length changes over time")
      else
        obind (sequence (map (fun '(i, table_row) =>
                 obind (nd_index unique_pulse_length i) (fun pl =>
                 obind (isclose_row pl table_row) (fun mask =>
                 Return (squeeze_index (argwhere mask)))))
               (imap pair pulse_length_table))) (fun idx =>
        obind (np_array idx) (fun idx_array =>
        obind (sequence (zip_with take_at sa_correction_table (nd_items idx_array)))
              (fun selected =>
        np_array selected)))
  end.

(** Line 192: [xr.DataArray(sa_correction, dims='frequency')] takes
    one-dimensional data only, and the coordinate must have its length. *)
Definition calc_sa_correction (ds_vend : Vendor)
    (transmit_duration_nominal : list (list Q)) : outcome DataArray1 :=
  obind (select_sa_correction ds_vend transmit_duration_nominal) (fun sa_correction =>
  match sa_correction with
  | Nd1 values =>
      if Nat.eqb (length values) (length (vend_frequency ds_vend))
      then Return (mkDataArray1 values (vend_frequency ds_vend))
      else Raise (ValueError "conflicting sizes for dimension 'frequency'")
  | Nd0 _ => Raise (ValueError "different number of dimensions on data and dims: 0 vs 1")
  | Nd2 _ => Raise (ValueError "different number of dimensions on data and dims: 2 vs 1")
  end).

(** * Specification vocabulary

    The formulas of the design document, stated per sample, against which
    the array code above is compared. *)

Definition spec_wavelength (speed_of_sound freq : R) : R := (speed_of_sound / freq)%R.

Definition spec_spreading_loss (rg : R) : R := (20 * log10 (Rmax rg 1))%R.

Definition spec_absorption_loss (seawater_absorption rg : R) : R :=
  (2 * seawater_absorption * rg)%R.

(** The gain terms, with [lg] the logarithm to base ten. *)
Definition spec_gain_Sv (lg : R -> R) (transmit_power gain_correction equivalent_beam_angle
                         wavelength transmit_duration_nominal speed_of_sound : R) : R :=
  (10 * lg transmit_power + 2 * gain_correction + equivalent_beam_angle
   + 10 * lg (wavelength ^ 2 * transmit_duration_nominal * speed_of_sound
              / (32 * PI ^ 2)))%R.

Definition spec_Sv (raw_power spreading absorption gain sa_correction : R) : R :=
  (raw_power + spreading + absorption - gain - 2 * sa_correction)%R.

Definition spec_gain_Sp (lg : R -> R) (transmit_power gain_correction wavelength : R) : R :=
  (10 * lg transmit_power + 2 * gain_correction
   + 10 * lg (wavelength ^ 2 / (16 * PI ^ 2)))%R.

Definition spec_Sp (raw_power spreading absorption gain : R) : R :=
  (raw_power + 2 * spreading + absorption - gain)%R.

(** Broadcasting two shapes against each other, as binary arithmetic does. *)
Definition broadcast (s t : shape) : shape :=
  axis_zip (axis_zip (axis_zip (fun _ _ : unit => tt))) s t.

(** The array [a] covers [rng]: along each dimension that [a] has, [rng]
    has it too and [a] reaches at least as far, so arithmetic with [a]
    leaves the dimensions and extents of [rng] as they are. *)
Definition covers (a rng : xarr) : Prop :=
  broadcast (shape_of a) (shape_of rng) = shape_of rng.

(** The range has the three dimensions and every operand of the product
    covers it: the product then has the extents of the range, which is
    what attaching the range to it requires. *)
Definition range_attaches (rng : xarr) (operands : list xarr) : Prop :=
  has_all_dims (shape_of rng) = true /\ Forall (fun a => covers a rng) operands.

(** The persist collaborator writes what it is handed. *)
Definition persist_succeeds (persist : dataset -> string -> string -> outcome unit) : Prop :=
  forall ds path fmt, persist ds path fmt = Return tt.

(** The range array a calibration call works with. *)
Definition range_used (calc_range : EchoData -> params -> params -> xarr)
    (ed : EchoData) (env_params cal_params : params) : xarr :=
  match range ed with
  | Some r => r
  | None => calc_range ed env_params cal_params
  end.

(** Where a calibration call leaves its product: on the object when
    [save] is off, with the persist collaborator when it is on. *)
Definition delivered (product : EchoData -> option dataset) (save : bool)
    (s : state) : option dataset :=
  if save then saved_dataset <$> last (persisted s) else product (ed_obj s).

(** The attribute of the object that holds the product of a call. *)
Definition product_attr (cal_type : string) : EchoData -> option dataset :=
  if String.eqb cal_type "Sv" then Sv else Sp.
Definition path_attr (cal_type : string) : EchoData -> option string :=
  if String.eqb cal_type "Sv" then Sv_path else Sp_path.

(** The requests the aggregation code recognises and does not implement:
    one of the interval tilings set, or the rolling type. *)
Definition interval_keys : list string :=
  ["MVBS_time_interval"; "MVBS_distance_interval"; "MVBS_range_interval"].
Definition unsupported_request (proc_params : gmap string pyval) : Prop :=
  (exists key v, key ∈ interval_keys /\ proc_params !! key = Some v /\ v <> PNone)
  \/ proc_params !! "MVBS_type" = Some (PStr "rolling").

Definition printed (line : string) (s : state) : state :=
  mkState (ed_obj s) (stdout s ++ [line]) (persisted s).

(** The pulse length of a channel changes between two pings. *)
Definition varies (row : list Q) : Prop :=
  exists (i j : nat) (x y : Q), row !! i = Some x /\ row !! j = Some y /\ ~ (x == y)%Q.

(** A channel has exactly one pulse length over its pings. *)
Definition one_pulse_length (row : list Q) : Prop :=
  row <> [] /\ forall (i j : nat) (x y : Q), row !! i = Some x -> row !! j = Some y -> (x == y)%Q.

(** The positions of a table row within tolerance of the pulse length. *)
Definition matches (pulse_length : Q) (table_row : list Q) : list nat :=
  argwhere (map (isclose pulse_length) table_row).

(** The samples of tile [(i, j)] of one channel: pings [i*p .. i*p+p-1],
    range bins [j*r .. j*r+r-1], as far as the data go. *)
Definition block (plane : list (list R)) (p r i j : nat) : list R :=
  concat (map (fun ping => take r (drop (j * r) ping)) (take p (drop (i * p) plane))).

(** Mean in the linear domain, reported in dB. *)
Definition spec_MVBS (tile : list R) : R :=
  (10 * log10 (mean (map (fun dB => pow10 (dB / 10)) tile)))%R.

(** A request for binned averaging over [p] pings by [r] range bins of
    the variable [name]. *)
Definition binned_request (proc_params : gmap string pyval) (name : string) (p r : nat) : Prop :=
  proc_params !! "MVBS_source" = Some (PStr name)
  /\ proc_params !! "MVBS_type" = Some (PStr "binned")
  /\ proc_params !! "MVBS_time_interval" = Some PNone
  /\ proc_params !! "MVBS_distance_interval" = Some PNone
  /\ proc_params !! "MVBS_range_interval" = Some PNone
  /\ proc_params !! "MVBS_ping_num" = Some (PInt (Z.of_nat p))
  /\ proc_params !! "MVBS_range_bin_num" = Some (PInt (Z.of_nat r)).

(** The calibrated array that [name] selects on the object. *)
Definition source_array (ed : EchoData) (name : string) : option xarr :=
  (if String.eqb name "Sv" then Sv ed else Sv_clean ed) ≫= (fun ds => ds !! name).

(** What [get_MVBS] computes for a three-dimensional array. *)
Definition MVBS_of (p r : nat) (a : list (list (list R))) : xarr :=
  (scalar 10 * np_log10 (Along (map (fun plane =>
      plane_of (coarsen_plane p r (map (map (fun x => pow10 (x / 10))) plane))) a)))%X.

(** ** Concrete inputs *)

(** The end-to-end scenario: one channel at 38 kHz, one ping, one sample
    of -60 dB at 50 m. *)
Definition scenario_ed : EchoData :=
  mkEchoData (mkRaw (per_channel [38000%R]) (cube [[[(-60)%R]]])) (Return ∅)
             (Some (cube [[[50%R]]])) None None None None None.
Definition scenario_env : params :=
  <["speed_of_sound_in_water" := scalar 1500]>
  (<["seawater_absorption" := per_channel [(1 / 100)%R]]> ∅).
Definition scenario_cal : params :=
  <["transmit_power" := per_channel [1000%R]]>
  (<["gain_correction" := per_channel [20%R]]>
  (<["equivalent_beam_angle" := per_channel [(-20)%R]]>
  (<["transmit_duration_nominal" := per_channel [(1 / 1000)%R]]>
  (<["sa_correction" := per_channel [0%R]]> ∅)))).
Definition scenario_state : state := mkState scenario_ed [] [].


(** The same session before any range was computed. *)
Definition fresh_ed : EchoData :=
  mkEchoData (mkRaw (per_channel [38000%R]) (cube [[[(-60)%R]]])) (Return ∅)
             None None None None None None.
Definition fresh_state : state := mkState fresh_ed [] [].
Definition range_50 : EchoData -> params -> params -> xarr :=
  fun _ _ _ => cube [[[50%R]]].

(** A request for thirty-second tiles. *)
Definition time_interval_request : gmap string pyval :=
  <["MVBS_source" := PStr "Sv"]>
  (<["MVBS_type" := PStr "binned"]>
  (<["MVBS_time_interval" := PStr "30s"]>
  (<["MVBS_ping_num" := PNone]>
  (<["MVBS_distance_interval" := PNone]>
  (<["MVBS_range_interval" := PNone]>
  (<["MVBS_range_bin_num" := PInt 2]> ∅)))))).

(** A raw file whose Environment group stores a sound speed. *)
Definition ed_with_stored_sound_speed : EchoData :=
  mkEchoData (mkRaw (per_channel [38000%R]) (cube [[[(-60)%R]]]))
             (Return {["sound_speed_indicative" := scalar 1500]})
             None None None None None None.

(** Two channels, three pulse-length settings each. *)
Definition two_channel_vendor : Vendor :=
  mkVendor [38000; 120000]%Q
           (Some [[1; 2; 3]; [4; 5; 6]]%Q)
           [[256; 512; 1024]; [64; 128; 256]]%Q.
(** A table that lists one pulse length twice in each channel. *)
Definition duplicated_vendor : Vendor :=
  mkVendor [38000; 120000]%Q
           (Some [[1; 2; 3]; [4; 5; 6]]%Q)
           [[256; 256; 1024]; [64; 64; 256]]%Q.

(** Four pings of four range bins, one channel, tiled two by two. *)
Definition request_2x2 : gmap string pyval :=
  <["MVBS_source" := PStr "Sv"]>
  (<["MVBS_type" := PStr "binned"]>
  (<["MVBS_time_interval" := PNone]>
  (<["MVBS_distance_interval" := PNone]>
  (<["MVBS_range_interval" := PNone]>
  (<["MVBS_ping_num" := PInt 2]>
  (<["MVBS_range_bin_num" := PInt 2]> ∅)))))).
Definition Sv_4x4 : list (list R) :=
  [[-70; -60; -50; -40]; [-71; -61; -51; -41]; [-72; -62; -52; -42]; [-73; -63; -53; -43]]%R.
Definition state_4x4 : state :=
  mkState (set_Sv {["Sv" := cube [Sv_4x4]]} fresh_ed) [] [].
Definition Sv_flat : list (list R) :=
  [[0; 0; 0; 0]; [0; 0; 0; 0]; [0; 0; 0; 0]; [0; 0; 0; 0]]%R.
Definition state_flat : state :=
  mkState (set_Sv {["Sv" := cube [Sv_flat]]} fresh_ed) [] [].

(** A request for a rolling average. *)
Definition rolling_request : gmap string pyval :=
  <["MVBS_type" := PStr "rolling"]> request_2x2.

(** ** Further vocabulary *)

(** The object after a call has cached the range it used. *)
Definition cache_range (rng : xarr) (ed : EchoData) : EchoData :=
  match range ed with
  | None => set_range rng ed
  | Some _ => ed
  end.

(** The arrays the two branches of [_cal_narrowband] build. *)
Definition Sv_array (nonfinite : R -> R) (ed : EchoData)
    (rng sos alpha tp gc eba tdn sac : xarr) : xarr :=
  (backscatter_r (raw ed) + spreading_loss nonfinite rng + absorption_loss alpha rng
   - CSv_of nonfinite (sos / frequency (raw ed)) tp gc eba tdn sos - scalar 2 * sac)%X.
Definition Sp_array (nonfinite : R -> R) (ed : EchoData) (rng sos alpha tp gc : xarr) : xarr :=
  (backscatter_r (raw ed) + spreading_loss nonfinite rng * scalar 2 + absorption_loss alpha rng
   - CSp_of nonfinite (sos / frequency (raw ed)) tp gc)%X.

(** The arrays that enter each product besides the range. *)
Definition Sv_operands (ed : EchoData) (sos alpha tp gc eba tdn sac : xarr) : list xarr :=
  [backscatter_r (raw ed); frequency (raw ed); sos; alpha; tp; gc; eba; tdn; sac].
Definition Sp_operands (ed : EchoData) (sos alpha tp gc : xarr) : list xarr :=
  [backscatter_r (raw ed); frequency (raw ed); sos; alpha; tp; gc].

(** A persist collaborator that writes, one whose disk is full, and a
    stand-in for the logarithm of a number that is not positive. *)
Definition writes : dataset -> string -> string -> outcome unit := fun _ _ _ => Return tt.
Definition disk_full : dataset -> string -> string -> outcome unit :=
  fun _ _ _ => Raise (OSError "No space left on device").
Definition minus_huge : R -> R := fun _ => (-1000000)%R.

(** The keys an [Sv] call and an [Sp] call read. *)
Definition Sv_keys (env_params cal_params : params) (sos alpha tp gc eba tdn sac : xarr) : Prop :=
  env_params !! "speed_of_sound_in_water" = Some sos
  /\ env_params !! "seawater_absorption" = Some alpha
  /\ cal_params !! "transmit_power" = Some tp
  /\ cal_params !! "gain_correction" = Some gc
  /\ cal_params !! "equivalent_beam_angle" = Some eba
  /\ cal_params !! "transmit_duration_nominal" = Some tdn
  /\ cal_params !! "sa_correction" = Some sac.
Definition Sp_keys (env_params cal_params : params) (sos alpha tp gc : xarr) : Prop :=
  env_params !! "speed_of_sound_in_water" = Some sos
  /\ env_params !! "seawater_absorption" = Some alpha
  /\ cal_params !! "transmit_power" = Some tp
  /\ cal_params !! "gain_correction" = Some gc.

(** A call for ['Sv'] or ['Sp'] that finds the keys it reads and whose
    range can be attached to its product. *)
Definition calibration_request (ed : EchoData) (rng : xarr) (env_params cal_params : params)
    (cal_type : string) : Prop :=
  (cal_type = "Sv"
   /\ exists sos alpha tp gc eba tdn sac,
        Sv_keys env_params cal_params sos alpha tp gc eba tdn sac
        /\ range_attaches rng (Sv_operands ed sos alpha tp gc eba tdn sac))
  \/ (cal_type = "Sp"
      /\ exists sos alpha tp gc,
           Sp_keys env_params cal_params sos alpha tp gc
           /\ range_attaches rng (Sp_operands ed sos alpha tp gc)).

(** The scenario with two range bins, the first at the transducer. *)
Definition zero_range_ed : EchoData :=
  mkEchoData (mkRaw (per_channel [38000%R]) (cube [[[(-60)%R; (-60)%R]]])) (Return ∅)
             (Some (cube [[[0%R; 50%R]]])) None None None None None.
Definition zero_range_state : state := mkState zero_range_ed [] [].

(** A session whose raw file stores no sound speed. *)
Definition sample_env : params :=
  <["water_temperature" := scalar 8]>
  (<["water_salinity" := scalar (275 / 10)]>
  (<["water_pressure" := scalar 59]> ∅)).
Definition thickness_env : params := {["speed_of_sound_in_water" := scalar 1500]}.
Definition thickness_cal : params := {["sample_interval" := per_channel [(1 / 4000)%R; (1 / 8000)%R]]}.
Definition ed_two_frequencies : EchoData :=
  mkEchoData (mkRaw (per_channel [(379999 / 10)%R; 120000%R]) (cube [[[(-60)%R]]; [[(-70)%R]]]))
             (Return ∅) None None None None None None.

(** A request that names no tiling at all, and one with a misspelt type. *)
Definition no_sizes_request : gmap string pyval :=
  <["MVBS_ping_num" := PNone]> request_2x2.
Definition misspelt_type_request : gmap string pyval :=
  <["MVBS_type" := PStr "bined"]> request_2x2.
Definition misspelt_source_request : gmap string pyval :=
  <["MVBS_source" := PStr "sv"]> time_interval_request.

(** One-sample tiles, and a grid that the tiles do not divide. *)
Definition request_1x1 : gmap string pyval :=
  <["MVBS_ping_num" := PInt 1]> (<["MVBS_range_bin_num" := PInt 1]> request_2x2).
Definition Sv_3x3 : list (list R) :=
  [[-70; -60; -50]; [-71; -61; -51]; [-72; -62; -52]]%R.
Definition state_3x3 : state :=
  mkState (set_Sv {["Sv" := cube [Sv_3x3]]} fresh_ed) [] [].
Definition state_4x4_plus_3 : state :=
  mkState (set_Sv {["Sv" := cube [map (map (fun x => (x + 3)%R)) Sv_4x4]]} fresh_ed) [] [].

(** A single-frequency instrument. *)
Definition single_channel_vendor : Vendor :=
  mkVendor [38000]%Q (Some [[1; 2; 3]]%Q) [[256; 512; 1024]]%Q.
(** * Properties *)

(** ** Arrays *)

Lemma axis_at_map {A B} (f : A -> B) (a : axis A) (i : nat) :
  axis_at i (axis_map f a) = f <$> axis_at i a.
Proof. destruct a as [x|l]; simpl; [reflexivity | apply list_lookup_fmap]. Qed.

Lemma axis_at_zip {A B C} (f : A -> B -> C) (a : axis A) (b : axis B) (i : nat) x y :
  axis_at i a = Some x -> axis_at i b = Some y ->
  axis_at i (axis_zip f a b) = Some (f x y).
Proof.
  destruct a as [x0|l1], b as [y0|l2]; simpl; intros Ha Hb.
  - congruence.
  - rewrite list_lookup_fmap, Hb. simpl. congruence.
  - rewrite list_lookup_fmap, Ha. simpl. congruence.
  - rewrite lookup_zip_with, Ha. simpl. rewrite Hb. reflexivity.
Qed.

Lemma xat_scalar (x : R) (c p r : nat) : xat (scalar x) c p r = Some x.
Proof. reflexivity. Qed.

Lemma xat_xmap (f : R -> R) (a : xarr) (c p r : nat) x :
  xat a c p r = Some x -> xat (xmap f a) c p r = Some (f x).
Proof.
  unfold xat, xmap. rewrite axis_at_map.
  destruct (axis_at c a) as [plane|]; simpl; [|discriminate].
  rewrite axis_at_map.
  destruct (axis_at p plane) as [row|]; simpl; [|discriminate].
  rewrite axis_at_map. intros ->. reflexivity.
Qed.

Lemma xat_xzip (f : R -> R -> R) (a b : xarr) (c p r : nat) x y :
  xat a c p r = Some x -> xat b c p r = Some y ->
  xat (xzip f a b) c p r = Some (f x y).
Proof.
  unfold xat, xzip.
  destruct (axis_at c a) as [pa|] eqn:Ea; [|discriminate].
  destruct (axis_at c b) as [pb|] eqn:Eb; [|discriminate].
  rewrite (axis_at_zip _ _ _ _ _ _ Ea Eb).
  destruct (axis_at p pa) as [ra|] eqn:Era; [|discriminate].
  destruct (axis_at p pb) as [rb|] eqn:Erb; [|discriminate].
  rewrite (axis_at_zip _ _ _ _ _ _ Era Erb).
  apply axis_at_zip.
Qed.

Lemma xat_cube (a : list (list (list R))) (c p r : nat) plane row x :
  a !! c = Some plane -> plane !! p = Some row -> row !! r = Some x ->
  xat (cube a) c p r = Some x.
Proof.
  intros Hc Hp Hr. unfold xat, cube. simpl.
  rewrite list_lookup_fmap, Hc. simpl.
  rewrite list_lookup_fmap, Hp. simpl. exact Hr.
Qed.

Lemma where_ge1_Rmax (x : R) : (if Rle_dec 1 x then x else 1%R) = Rmax x 1.
Proof.
  unfold Rmax. destruct (Rle_dec 1 x), (Rle_dec x 1); lra.
Qed.

Lemma ln_10_pos : (0 < ln 10)%R.
Proof. rewrite <- ln_1. apply ln_increasing; lra. Qed.

Lemma log10_1 : log10 1 = 0%R.
Proof. unfold log10. rewrite ln_1. unfold Rdiv. apply Rmult_0_l. Qed.

Lemma log10_nonneg (x : R) : (1 <= x)%R -> (0 <= log10 x)%R.
Proof.
  intros Hx. unfold log10.
  apply Rmult_le_pos.
  - destruct Hx as [Hlt | <-].
    + rewrite <- ln_1. left. apply ln_increasing; lra.
    + rewrite ln_1. lra.
  - left. apply Rinv_0_lt_compat, ln_10_pos.
Qed.

(** ** Shapes *)

Lemma axis_map_zip {A B C A' B' C'} (g : C -> C') (f : A -> B -> C)
    (ga : A -> A') (gb : B -> B') (h : A' -> B' -> C') :
  (forall x y, g (f x y) = h (ga x) (gb y)) ->
  forall a b, axis_map g (axis_zip f a b) = axis_zip h (axis_map ga a) (axis_map gb b).
Proof.
  intros H [x|l] [y|k]; simpl; f_equal.
  - apply H.
  - rewrite !map_map. apply map_ext. intros; apply H.
  - rewrite !map_map. apply map_ext. intros; apply H.
  - revert k. induction l as [|u l IH]; intros [|v k]; simpl; f_equal; auto.
Qed.

Lemma axis_map_map {A B C} (g : B -> C) (f : A -> B) (h : A -> C) :
  (forall x, g (f x) = h x) -> forall a, axis_map g (axis_map f a) = axis_map h a.
Proof.
  intros H [x|l]; simpl; f_equal; [apply H | rewrite map_map; apply map_ext, H].
Qed.

Lemma shape_of_xzip (f : R -> R -> R) (a b : xarr) :
  shape_of (xzip f a b) = broadcast (shape_of a) (shape_of b).
Proof.
  unfold shape_of, xzip, broadcast.
  apply axis_map_zip. apply axis_map_zip. apply axis_map_zip. reflexivity.
Qed.

Lemma shape_of_xmap (f : R -> R) (a : xarr) : shape_of (xmap f a) = shape_of a.
Proof.
  unfold shape_of, xmap.
  apply axis_map_map. apply axis_map_map. apply axis_map_map. reflexivity.
Qed.

Section Axis_zip_algebra.
Context {A : Type} (f : A -> A -> A).

Lemma axis_zip_comm :
  (forall x y, f x y = f y x) -> forall a b, axis_zip f a b = axis_zip f b a.
Proof.
  intros Hc [x|l] [y|k]; simpl; f_equal.
  - apply Hc.
  - apply map_ext. intros; apply Hc.
  - apply map_ext. intros; apply Hc.
  - revert k. induction l as [|u l IH]; intros [|v k]; simpl; f_equal; auto.
Qed.

Lemma axis_zip_assoc :
  (forall x y z, f (f x y) z = f x (f y z)) ->
  forall a b c, axis_zip f (axis_zip f a b) c = axis_zip f a (axis_zip f b c).
Proof.
  intros Ha [x|l] [y|k] [z|m]; simpl; f_equal;
    rewrite ?map_map; try (apply map_ext; intros; apply Ha); try apply Ha.
  - revert m. induction k as [|v k IH]; intros [|w m]; simpl; f_equal; auto.
  - revert m. induction l as [|u l IH]; intros [|w m]; simpl; f_equal; auto.
  - revert k. induction l as [|u l IH]; intros [|v k]; simpl; f_equal; auto.
  - revert k m. induction l as [|u l IH]; intros [|v k] [|w m]; simpl; f_equal; auto.
Qed.

Lemma axis_zip_idem :
  (forall x, f x x = x) -> forall a, axis_zip f a a = a.
Proof.
  intros Hi [x|l]; simpl; f_equal; [apply Hi|].
  induction l as [|u l IH]; simpl; f_equal; auto.
Qed.

Lemma axis_zip_unit (u : A) :
  (forall y, f u y = y) -> forall b, axis_zip f (Bcast u) b = b.
Proof.
  intros Hu [y|k]; simpl; f_equal; [apply Hu|].
  induction k as [|v k IH]; simpl; f_equal; auto.
Qed.
End Axis_zip_algebra.

Lemma broadcast_comm (s t : shape) : broadcast s t = broadcast t s.
Proof.
  unfold broadcast. apply axis_zip_comm. apply axis_zip_comm. apply axis_zip_comm.
  reflexivity.
Qed.

Lemma broadcast_assoc (s t u : shape) :
  broadcast (broadcast s t) u = broadcast s (broadcast t u).
Proof.
  unfold broadcast. apply axis_zip_assoc. apply axis_zip_assoc. apply axis_zip_assoc.
  reflexivity.
Qed.

Lemma broadcast_idem (s : shape) : broadcast s s = s.
Proof.
  unfold broadcast. apply axis_zip_idem. apply axis_zip_idem. apply axis_zip_idem.
  intros []. reflexivity.
Qed.

(** A Python float takes the shape of what it meets. *)
Lemma broadcast_point (s : shape) : broadcast (Bcast (Bcast (Bcast tt))) s = s.
Proof.
  unfold broadcast. apply axis_zip_unit. apply axis_zip_unit. apply axis_zip_unit.
  intros []. reflexivity.
Qed.

Lemma covered_product (s t u : shape) :
  broadcast s u = u -> broadcast t u = u -> broadcast (broadcast s t) u = u.
Proof. intros Hs Ht. rewrite broadcast_assoc, Ht. exact Hs. Qed.

Lemma absorbs_l (s t u : shape) :
  broadcast s u = s -> broadcast (broadcast s t) u = broadcast s t.
Proof.
  intros Hs. rewrite broadcast_assoc, (broadcast_comm t u), <- broadcast_assoc, Hs.
  reflexivity.
Qed.

Lemma absorbs_r (s t u : shape) :
  broadcast t u = t -> broadcast (broadcast s t) u = broadcast s t.
Proof. intros Ht. rewrite broadcast_assoc, Ht. reflexivity. Qed.

Ltac covered :=
  repeat first [ assumption | apply broadcast_idem | apply broadcast_point
               | apply covered_product ].
Ltac absorbed :=
  solve [ apply broadcast_idem | apply absorbs_l; absorbed | apply absorbs_r; absorbed ].

(** The shape of a product whose operands cover the range is the shape
    of the range. *)
Lemma Sv_shape (u sraw sfreq ssos salpha stp sgc seba stdn ssac : shape) :
  let pt := Bcast (Bcast (Bcast tt)) in
  broadcast sraw u = u -> broadcast sfreq u = u -> broadcast ssos u = u ->
  broadcast salpha u = u -> broadcast stp u = u -> broadcast sgc u = u ->
  broadcast seba u = u -> broadcast stdn u = u -> broadcast ssac u = u ->
  broadcast
    (broadcast
       (broadcast (broadcast sraw (broadcast pt u)) (broadcast (broadcast pt salpha) u))
       (broadcast
          (broadcast (broadcast (broadcast pt stp) (broadcast pt sgc)) seba)
          (broadcast pt
             (broadcast (broadcast (broadcast (broadcast ssos sfreq) stdn) ssos) pt))))
    (broadcast pt ssac)
  = u.
Proof.
  intros pt Hraw Hfreq Hsos Halpha Htp Hgc Heba Htdn Hsac.
  match goal with |- ?X = _ =>
    assert (Hle : broadcast X u = u) by covered;
    assert (Hge : broadcast X u = X) by absorbed
  end.
  congruence.
Qed.

Lemma Sp_shape (u sraw sfreq ssos salpha stp sgc : shape) :
  let pt := Bcast (Bcast (Bcast tt)) in
  broadcast sraw u = u -> broadcast sfreq u = u -> broadcast ssos u = u ->
  broadcast salpha u = u -> broadcast stp u = u -> broadcast sgc u = u ->
  broadcast
    (broadcast
       (broadcast sraw (broadcast (broadcast pt u) pt)) (broadcast (broadcast pt salpha) u))
    (broadcast (broadcast (broadcast pt stp) (broadcast pt sgc))
       (broadcast pt (broadcast (broadcast ssos sfreq) pt)))
  = u.
Proof.
  intros pt Hraw Hfreq Hsos Halpha Htp Hgc.
  match goal with |- ?X = _ =>
    assert (Hle : broadcast X u = u) by covered;
    assert (Hge : broadcast X u = X) by absorbed
  end.
  congruence.
Qed.

Lemma Sv_array_shape (nonfinite : R -> R) (ed : EchoData)
    (rng sos alpha tp gc eba tdn sac : xarr) :
  Forall (fun a => covers a rng) (Sv_operands ed sos alpha tp gc eba tdn sac) ->
  shape_of (Sv_array nonfinite ed rng sos alpha tp gc eba tdn sac) = shape_of rng.
Proof.
  unfold Sv_operands, covers. rewrite !Forall_cons.
  intros (Hraw & Hfreq & Hsos & Halpha & Htp & Hgc & Heba & Htdn & Hsac & _).
  unfold Sv_array, spreading_loss, absorption_loss, CSv_of, np_log10_or, where_ge1, xsquare.
  rewrite ?shape_of_xzip, ?shape_of_xmap, ?shape_of_xzip, ?shape_of_xmap, ?shape_of_xzip.
  change (shape_of (scalar _)) with (Bcast (Bcast (Bcast tt))).
  apply Sv_shape; assumption.
Qed.

Lemma Sp_array_shape (nonfinite : R -> R) (ed : EchoData) (rng sos alpha tp gc : xarr) :
  Forall (fun a => covers a rng) (Sp_operands ed sos alpha tp gc) ->
  shape_of (Sp_array nonfinite ed rng sos alpha tp gc) = shape_of rng.
Proof.
  unfold Sp_operands, covers. rewrite !Forall_cons.
  intros (Hraw & Hfreq & Hsos & Halpha & Htp & Hgc & _).
  unfold Sp_array, spreading_loss, absorption_loss, CSp_of, np_log10_or, where_ge1, xsquare.
  rewrite ?shape_of_xzip, ?shape_of_xmap, ?shape_of_xzip, ?shape_of_xmap, ?shape_of_xzip.
  change (shape_of (scalar _)) with (Bcast (Bcast (Bcast tt))).
  apply Sp_shape; assumption.
Qed.

Lemma attach_range_ok (product : string) (arr rng : xarr) :
  has_all_dims (shape_of rng) = true -> shape_of arr = shape_of rng ->
  attach_range product arr rng = Return (<["range" := rng]> {[product := arr]}).
Proof.
  intros Hdims Hshape. unfold attach_range. rewrite Hdims. cbn [negb].
  rewrite decide_True by congruence. reflexivity.
Qed.

(** When it raises, attaching the range raises a [ValueError]. *)
Lemma attach_range_raises (product : string) (arr rng : xarr) (e : exn) :
  attach_range product arr rng = Raise e ->
  (has_all_dims (shape_of rng) = false \/ shape_of rng <> shape_of arr)
  /\ exists msg, e = ValueError msg.
Proof.
  unfold attach_range. destruct (has_all_dims (shape_of rng)); cbn [negb].
  - destruct (decide (shape_of rng = shape_of arr)) as [|Hne]; [discriminate|].
    intros [= <-]. split; [right; exact Hne | eexists; reflexivity].
  - intros [= <-]. split; [left; reflexivity | eexists; reflexivity].
Qed.

Lemma Sv_attaches (nonfinite : R -> R) (ed : EchoData)
    (rng sos alpha tp gc eba tdn sac : xarr) :
  range_attaches rng (Sv_operands ed sos alpha tp gc eba tdn sac) ->
  attach_range "Sv" (Sv_array nonfinite ed rng sos alpha tp gc eba tdn sac) rng
  = Return (<["range" := rng]>
              {["Sv" := Sv_array nonfinite ed rng sos alpha tp gc eba tdn sac]}).
Proof.
  intros [Hdims Hcover]. apply attach_range_ok; [exact Hdims|].
  apply Sv_array_shape, Hcover.
Qed.

Lemma Sp_attaches (nonfinite : R -> R) (ed : EchoData) (rng sos alpha tp gc : xarr) :
  range_attaches rng (Sp_operands ed sos alpha tp gc) ->
  attach_range "Sp" (Sp_array nonfinite ed rng sos alpha tp gc) rng
  = Return (<["range" := rng]> {["Sp" := Sp_array nonfinite ed rng sos alpha tp gc]}).
Proof.
  intros [Hdims Hcover]. apply attach_range_ok; [exact Hdims|].
  apply Sp_array_shape, Hcover.
Qed.

(** What an [Sv] call needs, an [Sp] call has. *)
Lemma Sp_keys_of_Sv_keys (env_params cal_params : params) (sos alpha tp gc eba tdn sac : xarr) :
  Sv_keys env_params cal_params sos alpha tp gc eba tdn sac ->
  Sp_keys env_params cal_params sos alpha tp gc.
Proof. intros (H1 & H2 & H3 & H4 & _). repeat split; assumption. Qed.

Lemma Sp_operands_of_Sv_operands (ed : EchoData) (rng sos alpha tp gc eba tdn sac : xarr) :
  range_attaches rng (Sv_operands ed sos alpha tp gc eba tdn sac) ->
  range_attaches rng (Sp_operands ed sos alpha tp gc).
Proof.
  intros [Hdims Hcover]. split; [exact Hdims|].
  unfold Sv_operands, Sp_operands in *. rewrite !Forall_cons in *.
  destruct Hcover as (H1 & H2 & H3 & H4 & H5 & H6 & _).
  repeat (split; [assumption|]). constructor.
Qed.

(** ** Transmission loss *)

Lemma log10_or_pos (nonfinite : R -> R) (x : R) :
  (0 < x)%R -> log10_or nonfinite x = log10 x.
Proof. intros Hx. unfold log10_or. destruct (Rlt_dec 0 x); [reflexivity | contradiction]. Qed.

Lemma xat_spreading_loss (nonfinite : R -> R) (rng : xarr) (c p r : nat) (rg : R) :
  xat rng c p r = Some rg ->
  xat (spreading_loss nonfinite rng) c p r = Some (spec_spreading_loss rg).
Proof.
  intros H. unfold spreading_loss, spec_spreading_loss, np_log10_or, where_ge1.
  erewrite xat_xzip; [| apply xat_scalar | apply xat_xmap, xat_xmap, H].
  rewrite where_ge1_Rmax, log10_or_pos by (pose proof (Rmax_r rg 1); lra). reflexivity.
Qed.

Lemma xat_absorption_loss (alpha rng : xarr) (c p r : nat) (a rg : R) :
  xat alpha c p r = Some a -> xat rng c p r = Some rg ->
  xat (absorption_loss alpha rng) c p r = Some (spec_absorption_loss a rg).
Proof.
  intros Ha Hr. unfold absorption_loss, spec_absorption_loss.
  erewrite xat_xzip; [reflexivity | | exact Hr].
  erewrite xat_xzip; [reflexivity | apply xat_scalar | exact Ha].
Qed.

Lemma spec_spreading_loss_nonneg (rg : R) : (0 <= spec_spreading_loss rg)%R.
Proof.
  unfold spec_spreading_loss.
  apply Rmult_le_pos; [lra | apply log10_nonneg, Rmax_r].
Qed.

Lemma spec_spreading_loss_near (rg : R) : (rg <= 1)%R -> spec_spreading_loss rg = 0%R.
Proof.
  intros Hle. unfold spec_spreading_loss. rewrite Rmax_right, log10_1 by assumption.
  apply Rmult_0_r.
Qed.

(** ** Calibration *)

Lemma getitem_Some {V} (d : gmap string V) (key : string) (v : V) :
  d !! key = Some v -> getitem d key = Return v.
Proof. intros H. unfold getitem. rewrite H. reflexivity. Qed.

Lemma xat_CSv (nonfinite : R -> R) (wavelength tp gc eba tdn sos : xarr) (c p r : nat)
    (l P G E T cs : R) :
  xat wavelength c p r = Some l -> xat tp c p r = Some P -> xat gc c p r = Some G ->
  xat eba c p r = Some E -> xat tdn c p r = Some T -> xat sos c p r = Some cs ->
  xat (CSv_of nonfinite wavelength tp gc eba tdn sos) c p r
  = Some (spec_gain_Sv (log10_or nonfinite) P G E l T cs).
Proof.
  intros Hl HP HG HE HT Hc. unfold CSv_of, spec_gain_Sv, np_log10_or, xsquare.
  repeat (first [ eassumption | apply xat_scalar
                | eapply xat_xzip | eapply (xat_xmap (log10_or nonfinite))
                | eapply (xat_xmap (fun x => (x ^ 2)%R)) ]).
Qed.

Lemma xat_CSp (nonfinite : R -> R) (wavelength tp gc : xarr) (c p r : nat) (l P G : R) :
  xat wavelength c p r = Some l -> xat tp c p r = Some P -> xat gc c p r = Some G ->
  xat (CSp_of nonfinite wavelength tp gc) c p r
  = Some (spec_gain_Sp (log10_or nonfinite) P G l).
Proof.
  intros Hl HP HG. unfold CSp_of, spec_gain_Sp, np_log10_or, xsquare.
  repeat (first [ eassumption | apply xat_scalar
                | eapply xat_xzip | eapply (xat_xmap (log10_or nonfinite))
                | eapply (xat_xmap (fun x => (x ^ 2)%R)) ]).
Qed.

Lemma xat_Sv_array (nonfinite : R -> R) (ed : EchoData)
    (rng sos alpha tp gc eba tdn sac : xarr) (c p r : nat)
    (raw_power rg f cs a P G E T sa : R) :
  xat (backscatter_r (raw ed)) c p r = Some raw_power ->
  xat rng c p r = Some rg ->
  xat (frequency (raw ed)) c p r = Some f ->
  xat sos c p r = Some cs -> xat alpha c p r = Some a ->
  xat tp c p r = Some P -> xat gc c p r = Some G -> xat eba c p r = Some E ->
  xat tdn c p r = Some T -> xat sac c p r = Some sa ->
  xat (Sv_array nonfinite ed rng sos alpha tp gc eba tdn sac) c p r
  = Some (spec_Sv raw_power (spec_spreading_loss rg) (spec_absorption_loss a rg)
            (spec_gain_Sv (log10_or nonfinite) P G E (spec_wavelength cs f) T cs) sa).
Proof.
  intros Hraw Hrg Hf Hcs Ha HP HG HE HT Hsa. unfold Sv_array, spec_Sv.
  eapply xat_xzip;
    [ eapply xat_xzip;
      [ eapply xat_xzip;
        [ eapply xat_xzip; [exact Hraw | apply xat_spreading_loss; exact Hrg]
        | apply xat_absorption_loss; [exact Ha | exact Hrg] ]
      | apply xat_CSv; try eassumption;
        unfold spec_wavelength; eapply xat_xzip; eassumption ]
    | eapply xat_xzip; [apply xat_scalar | exact Hsa] ].
Qed.

Lemma xat_Sp_array (nonfinite : R -> R) (ed : EchoData) (rng sos alpha tp gc : xarr)
    (c p r : nat) (raw_power rg f cs a P G : R) :
  xat (backscatter_r (raw ed)) c p r = Some raw_power ->
  xat rng c p r = Some rg ->
  xat (frequency (raw ed)) c p r = Some f ->
  xat sos c p r = Some cs -> xat alpha c p r = Some a ->
  xat tp c p r = Some P -> xat gc c p r = Some G ->
  xat (Sp_array nonfinite ed rng sos alpha tp gc) c p r
  = Some (spec_Sp raw_power (spec_spreading_loss rg) (spec_absorption_loss a rg)
            (spec_gain_Sp (log10_or nonfinite) P G (spec_wavelength cs f))).
Proof.
  intros Hraw Hrg Hf Hcs Ha HP HG. unfold Sp_array, spec_Sp.
  eapply xat_xzip;
    [ eapply xat_xzip;
      [ eapply xat_xzip; [exact Hraw|];
        rewrite Rmult_comm;
        eapply xat_xzip; [apply xat_spreading_loss; exact Hrg | apply xat_scalar]
      | apply xat_absorption_loss; [exact Ha | exact Hrg] ]
    | apply xat_CSp; try eassumption;
      unfold spec_wavelength; eapply xat_xzip; eassumption ].
Qed.

Lemma product_lookup (product : string) (arr rng : xarr) :
  product <> "range" ->
  (<["range" := rng]> ({[product := arr]} : dataset)) !! product = Some arr.
Proof.
  intros Hne. rewrite lookup_insert_ne by congruence. apply lookup_singleton_eq.
Qed.

Section Calibration_facts.
Variable calc_range : EchoData -> params -> params -> xarr.
Variable validate_proc_path : EchoData -> string -> option string -> string.
Variable now : string.
Variable _save_dataset : dataset -> string -> string -> outcome unit.
Variable nonfinite : R -> R.

(** The course of an [Sv] call that finds its keys. *)
Lemma Sv_run (env_params cal_params : params) (s : state)
    (save : bool) (save_path : option string) (save_format : string)
    (sos alpha tp gc eba tdn sac : xarr) :
  Sv_keys env_params cal_params sos alpha tp gc eba tdn sac ->
  let rng := range_used calc_range (ed_obj s) env_params cal_params in
  let ed1 := cache_range rng (ed_obj s) in
  let path := validate_proc_path ed1 "_Sv" save_path in
  let line := (now ++ "  saving calibrated Sv to " ++ path)%string in
  _cal_narrowband calc_range validate_proc_path now _save_dataset nonfinite
    env_params cal_params "Sv" save save_path save_format s
  = match attach_range "Sv" (Sv_array nonfinite (ed_obj s) rng sos alpha tp gc eba tdn sac) rng with
    | Raise e => (mkState ed1 (stdout s) (persisted s), Raise e)
    | Return ds =>
        if save then
          match _save_dataset ds path save_format with
          | Return _ =>
              (mkState (set_Sv_path path ed1) (stdout s ++ [line])
                       (persisted s ++ [mkSaved ds path save_format]), Return tt)
          | Raise e => (mkState ed1 (stdout s ++ [line]) (persisted s), Raise e)
          end
        else (mkState (set_Sv ds ed1) (stdout s) (persisted s), Return tt)
    end.
Proof.
  intros (Hsos & Halpha & Htp & Hgc & Heba & Htdn & Hsac).
  unfold _cal_narrowband, bind, lift, get_ed, ret, modify_ed, print, save_dataset.
  rewrite !(getitem_Some _ _ _ Hsos), (getitem_Some _ _ _ Halpha),
    (getitem_Some _ _ _ Htp), (getitem_Some _ _ _ Hgc), (getitem_Some _ _ _ Heba),
    (getitem_Some _ _ _ Htdn), (getitem_Some _ _ _ Hsac).
  rewrite String.eqb_refl. unfold range_used, cache_range, Sv_array.
  destruct s as [ed out saved]. cbn [ed_obj stdout persisted].
  destruct (range ed) as [rng|] eqn:Hrng; cbv beta iota zeta; cbn [ed_obj stdout persisted];
    (destruct (attach_range _ _ _) as [ds|e]; [|reflexivity]);
    (destruct save; [|reflexivity]);
    cbn [ed_obj stdout persisted];
    destruct (_save_dataset _ _ _); reflexivity.
Qed.

(** The course of an [Sp] call that finds its keys. *)
Lemma Sp_run (env_params cal_params : params) (s : state)
    (save : bool) (save_path : option string) (save_format : string)
    (sos alpha tp gc : xarr) :
  Sp_keys env_params cal_params sos alpha tp gc ->
  let rng := range_used calc_range (ed_obj s) env_params cal_params in
  let ed1 := cache_range rng (ed_obj s) in
  let path := validate_proc_path ed1 "_Sp" save_path in
  let line := (now ++ "  saving calibrated Sp to " ++ path)%string in
  _cal_narrowband calc_range validate_proc_path now _save_dataset nonfinite
    env_params cal_params "Sp" save save_path save_format s
  = match attach_range "Sp" (Sp_array nonfinite (ed_obj s) rng sos alpha tp gc) rng with
    | Raise e => (mkState ed1 (stdout s) (persisted s), Raise e)
    | Return ds =>
        if save then
          match _save_dataset ds path save_format with
          | Return _ =>
              (mkState (set_Sp_path path ed1) (stdout s ++ [line])
                       (persisted s ++ [mkSaved ds path save_format]), Return tt)
          | Raise e => (mkState ed1 (stdout s ++ [line]) (persisted s), Raise e)
          end
        else (mkState (set_Sp ds ed1) (stdout s) (persisted s), Return tt)
    end.
Proof.
  intros (Hsos & Halpha & Htp & Hgc).
  unfold _cal_narrowband, bind, lift, get_ed, ret, modify_ed, print, save_dataset.
  rewrite !(getitem_Some _ _ _ Hsos), (getitem_Some _ _ _ Halpha),
    (getitem_Some _ _ _ Htp), (getitem_Some _ _ _ Hgc).
  change (String.eqb "Sp" "Sv") with false. rewrite String.eqb_refl.
  unfold range_used, cache_range, Sp_array.
  destruct s as [ed out saved]. cbn [ed_obj stdout persisted].
  destruct (range ed) as [rng|] eqn:Hrng; cbv beta iota zeta; cbn [ed_obj stdout persisted];
    (destruct (attach_range _ _ _) as [ds|e]; [|reflexivity]);
    (destruct save; [|reflexivity]);
    cbn [ed_obj stdout persisted];
    destruct (_save_dataset _ _ _); reflexivity.
Qed.

(** The course of a completed [Sv] call, and of a completed [Sp] call. *)
Lemma Sv_run_completes (env_params cal_params : params) (s : state)
    (save : bool) (save_path : option string) (save_format : string)
    (sos alpha tp gc eba tdn sac : xarr) :
  Sv_keys env_params cal_params sos alpha tp gc eba tdn sac ->
  let rng := range_used calc_range (ed_obj s) env_params cal_params in
  range_attaches rng (Sv_operands (ed_obj s) sos alpha tp gc eba tdn sac) ->
  (save = true -> persist_succeeds _save_dataset) ->
  let ed1 := cache_range rng (ed_obj s) in
  let path := validate_proc_path ed1 "_Sv" save_path in
  let ds : dataset :=
    <["range" := rng]> {["Sv" := Sv_array nonfinite (ed_obj s) rng sos alpha tp gc eba tdn sac]} in
  _cal_narrowband calc_range validate_proc_path now _save_dataset nonfinite
    env_params cal_params "Sv" save save_path save_format s
  = if save
    then (mkState (set_Sv_path path ed1)
                  (stdout s ++ [(now ++ "  saving calibrated Sv to " ++ path)%string])
                  (persisted s ++ [mkSaved ds path save_format]), Return tt)
    else (mkState (set_Sv ds ed1) (stdout s) (persisted s), Return tt).
Proof.
  intros Hkeys rng Hattach Hpersist ed1 path ds.
  rewrite (Sv_run _ _ _ _ _ _ _ _ _ _ _ _ _ Hkeys).
  fold rng. rewrite (Sv_attaches nonfinite _ _ _ _ _ _ _ _ _ Hattach).
  destruct save; [|reflexivity].
  fold ed1 path ds. rewrite (Hpersist eq_refl). reflexivity.
Qed.

Lemma Sp_run_completes (env_params cal_params : params) (s : state)
    (save : bool) (save_path : option string) (save_format : string)
    (sos alpha tp gc : xarr) :
  Sp_keys env_params cal_params sos alpha tp gc ->
  let rng := range_used calc_range (ed_obj s) env_params cal_params in
  range_attaches rng (Sp_operands (ed_obj s) sos alpha tp gc) ->
  (save = true -> persist_succeeds _save_dataset) ->
  let ed1 := cache_range rng (ed_obj s) in
  let path := validate_proc_path ed1 "_Sp" save_path in
  let ds : dataset :=
    <["range" := rng]> {["Sp" := Sp_array nonfinite (ed_obj s) rng sos alpha tp gc]} in
  _cal_narrowband calc_range validate_proc_path now _save_dataset nonfinite
    env_params cal_params "Sp" save save_path save_format s
  = if save
    then (mkState (set_Sp_path path ed1)
                  (stdout s ++ [(now ++ "  saving calibrated Sp to " ++ path)%string])
                  (persisted s ++ [mkSaved ds path save_format]), Return tt)
    else (mkState (set_Sp ds ed1) (stdout s) (persisted s), Return tt).
Proof.
  intros Hkeys rng Hattach Hpersist ed1 path ds.
  rewrite (Sp_run _ _ _ _ _ _ _ _ _ _ Hkeys).
  fold rng. rewrite (Sp_attaches nonfinite _ _ _ _ _ _ Hattach).
  destruct save; [|reflexivity].
  fold ed1 path ds. rewrite (Hpersist eq_refl). reflexivity.
Qed.

Lemma cache_range_range (rng : xarr) (ed : EchoData) :
  range (cache_range rng ed) = Some (match range ed with Some r => r | None => rng end).
Proof. unfold cache_range. destruct (range ed) eqn:H; [exact H | reflexivity]. Qed.

Lemma cache_range_raw (rng : xarr) (ed : EchoData) :
  raw (cache_range rng ed) = raw ed
  /\ raw_environment (cache_range rng ed) = raw_environment ed
  /\ Sv (cache_range rng ed) = Sv ed /\ Sp (cache_range rng ed) = Sp ed
  /\ Sv_path (cache_range rng ed) = Sv_path ed /\ Sp_path (cache_range rng ed) = Sp_path ed
  /\ Sv_clean (cache_range rng ed) = Sv_clean ed.
Proof. unfold cache_range. destruct (range ed); repeat split. Qed.

(** C1. With every environment and calibration key present, the range
    of the three dimensions and covered by every operand, and the
    persist collaborator writing when asked to, an [Sv] call completes
    and delivers a dataset whose [Sv] variable holds, at every sample
    [(c, p, r)] of the inputs,
    [raw_power + spreading_loss + absorption_loss - gain - 2 * sa_correction],
    with [gain = 10*log10(transmit_power) + 2*gain_correction
    + equivalent_beam_angle + 10*log10(wavelength^2 * transmit_duration_nominal
    * speed_of_sound / (32*pi^2))], [wavelength = speed_of_sound / frequency]
    and [absorption_loss = 2 * seawater_absorption * range]. *)
Theorem cal_narrowband_Sv_formula (env_params cal_params : params) (s : state)
    (save : bool) (save_path : option string) (save_format : string)
    (sos alpha tp gc eba tdn sac : xarr) :
  env_params !! "speed_of_sound_in_water" = Some sos ->
  env_params !! "seawater_absorption" = Some alpha ->
  cal_params !! "transmit_power" = Some tp ->
  cal_params !! "gain_correction" = Some gc ->
  cal_params !! "equivalent_beam_angle" = Some eba ->
  cal_params !! "transmit_duration_nominal" = Some tdn ->
  cal_params !! "sa_correction" = Some sac ->
  range_attaches (range_used calc_range (ed_obj s) env_params cal_params)
    (Sv_operands (ed_obj s) sos alpha tp gc eba tdn sac) ->
  (save = true -> persist_succeeds _save_dataset) ->
  exists (s' : state) (ds : dataset) (sv : xarr),
    _cal_narrowband calc_range validate_proc_path now _save_dataset nonfinite
      env_params cal_params "Sv" save save_path save_format s = (s', Return tt)
    /\ delivered Sv save s' = Some ds
    /\ ds !! "Sv" = Some sv
    /\ forall (c p r : nat) (raw_power rg f cs a P G E T sa : R),
         xat (backscatter_r (raw (ed_obj s))) c p r = Some raw_power ->
         xat (range_used calc_range (ed_obj s) env_params cal_params) c p r = Some rg ->
         xat (frequency (raw (ed_obj s))) c p r = Some f ->
         xat sos c p r = Some cs ->
         xat alpha c p r = Some a ->
         xat tp c p r = Some P ->
         xat gc c p r = Some G ->
         xat eba c p r = Some E ->
         xat tdn c p r = Some T ->
         xat sac c p r = Some sa ->
         xat sv c p r =
           Some (spec_Sv raw_power (spec_spreading_loss rg) (spec_absorption_loss a rg)
                   (spec_gain_Sv (log10_or nonfinite) P G E (spec_wavelength cs f) T cs) sa).
Proof.
  intros Hsos Halpha Htp Hgc Heba Htdn Hsac Hattach Hpersist.
  assert (Hkeys : Sv_keys env_params cal_params sos alpha tp gc eba tdn sac)
    by (repeat split; assumption).
  rewrite (Sv_run_completes _ _ _ _ _ _ _ _ _ _ _ _ _ Hkeys Hattach Hpersist).
  destruct save; (eexists; eexists; eexists; split; [reflexivity|]);
    (split; [unfold delivered; cbn [persisted ed_obj Sv set_Sv];
             try rewrite last_snoc; reflexivity|]);
    (split; [cbn [saved_dataset]; apply product_lookup; discriminate|]);
    intros c p r raw_power rg f cs a P G E T sa;
    apply xat_Sv_array.
Qed.

(** C2. With the keys it reads present, the range of the three
    dimensions and covered by every operand, and the persist
    collaborator writing when asked to, an [Sp] call completes and
    delivers a dataset whose [Sp] variable holds, at every sample,
    [raw_power + 2 * spreading_loss + absorption_loss - gain] with
    [gain = 10*log10(transmit_power) + 2*gain_correction
    + 10*log10(wavelength^2 / (16*pi^2))]: the spreading loss counts
    twice and [sa_correction] is not read at all. *)
Theorem cal_narrowband_Sp_formula (env_params cal_params : params) (s : state)
    (save : bool) (save_path : option string) (save_format : string)
    (sos alpha tp gc : xarr) :
  env_params !! "speed_of_sound_in_water" = Some sos ->
  env_params !! "seawater_absorption" = Some alpha ->
  cal_params !! "transmit_power" = Some tp ->
  cal_params !! "gain_correction" = Some gc ->
  range_attaches (range_used calc_range (ed_obj s) env_params cal_params)
    (Sp_operands (ed_obj s) sos alpha tp gc) ->
  (save = true -> persist_succeeds _save_dataset) ->
  exists (s' : state) (ds : dataset) (sp : xarr),
    _cal_narrowband calc_range validate_proc_path now _save_dataset nonfinite
      env_params cal_params "Sp" save save_path save_format s = (s', Return tt)
    /\ delivered Sp save s' = Some ds
    /\ ds !! "Sp" = Some sp
    /\ forall (c p r : nat) (raw_power rg f cs a P G : R),
         xat (backscatter_r (raw (ed_obj s))) c p r = Some raw_power ->
         xat (range_used calc_range (ed_obj s) env_params cal_params) c p r = Some rg ->
         xat (frequency (raw (ed_obj s))) c p r = Some f ->
         xat sos c p r = Some cs ->
         xat alpha c p r = Some a ->
         xat tp c p r = Some P ->
         xat gc c p r = Some G ->
         xat sp c p r =
           Some (spec_Sp raw_power (spec_spreading_loss rg) (spec_absorption_loss a rg)
                   (spec_gain_Sp (log10_or nonfinite) P G (spec_wavelength cs f))).
Proof.
  intros Hsos Halpha Htp Hgc Hattach Hpersist.
  assert (Hkeys : Sp_keys env_params cal_params sos alpha tp gc)
    by (repeat split; assumption).
  rewrite (Sp_run_completes _ _ _ _ _ _ _ _ _ _ Hkeys Hattach Hpersist).
  destruct save; (eexists; eexists; eexists; split; [reflexivity|]);
    (split; [unfold delivered; cbn [persisted ed_obj Sp set_Sp];
             try rewrite last_snoc; reflexivity|]);
    (split; [cbn [saved_dataset]; apply product_lookup; discriminate|]);
    intros c p r raw_power rg f cs a P G;
    apply xat_Sp_array.
Qed.

(** C4. In both products the spreading loss of a sample at range [rg]
    is [20 * log10 (max rg 1)], the real logarithm of a number that is
    at least one, whatever [np.log10] gives for numbers that are not
    positive: it is never negative, and for a range up to one unit --
    zero and negative ranges included -- it is exactly zero, so that
    such a sample of [Sv] is [raw_power + absorption_loss - gain
    - 2 * sa_correction] and such a sample of [Sp] is
    [raw_power + absorption_loss - gain]. *)
Theorem spreading_loss_clamped (env_params cal_params : params) (s : state)
    (save : bool) (save_path : option string) (save_format : string)
    (sos alpha tp gc eba tdn sac : xarr) :
  Sv_keys env_params cal_params sos alpha tp gc eba tdn sac ->
  range_attaches (range_used calc_range (ed_obj s) env_params cal_params)
    (Sv_operands (ed_obj s) sos alpha tp gc eba tdn sac) ->
  (save = true -> persist_succeeds _save_dataset) ->
  exists (s1 s2 : state) (dsv dsp : dataset) (sv sp : xarr),
    _cal_narrowband calc_range validate_proc_path now _save_dataset nonfinite
      env_params cal_params "Sv" save save_path save_format s = (s1, Return tt)
    /\ delivered Sv save s1 = Some dsv /\ dsv !! "Sv" = Some sv
    /\ _cal_narrowband calc_range validate_proc_path now _save_dataset nonfinite
         env_params cal_params "Sp" save save_path save_format s = (s2, Return tt)
    /\ delivered Sp save s2 = Some dsp /\ dsp !! "Sp" = Some sp
    /\ forall (c p r : nat) (raw_power rg f cs a P G E T sa : R),
         xat (backscatter_r (raw (ed_obj s))) c p r = Some raw_power ->
         xat (range_used calc_range (ed_obj s) env_params cal_params) c p r = Some rg ->
         xat (frequency (raw (ed_obj s))) c p r = Some f ->
         xat sos c p r = Some cs ->
         xat alpha c p r = Some a ->
         xat tp c p r = Some P ->
         xat gc c p r = Some G ->
         xat eba c p r = Some E ->
         xat tdn c p r = Some T ->
         xat sac c p r = Some sa ->
         let loss := (20 * log10 (Rmax rg 1))%R in
         let gain_Sv := spec_gain_Sv (log10_or nonfinite) P G E (cs / f) T cs in
         let gain_Sp := spec_gain_Sp (log10_or nonfinite) P G (cs / f) in
         (0 <= loss)%R
         /\ xat sv c p r = Some (raw_power + loss + 2 * a * rg - gain_Sv - 2 * sa)%R
         /\ xat sp c p r = Some (raw_power + 2 * loss + 2 * a * rg - gain_Sp)%R
         /\ ((rg <= 1)%R ->
               loss = 0%R
               /\ xat sv c p r = Some (raw_power + 2 * a * rg - gain_Sv - 2 * sa)%R
               /\ xat sp c p r = Some (raw_power + 2 * a * rg - gain_Sp)%R).
Proof.
  intros Hkeys Hattach Hpersist.
  pose proof (Sp_keys_of_Sv_keys _ _ _ _ _ _ _ _ _ Hkeys) as Hkeys'.
  pose proof (Sp_operands_of_Sv_operands _ _ _ _ _ _ _ _ _ Hattach) as Hattach'.
  rewrite (Sv_run_completes _ _ _ _ _ _ _ _ _ _ _ _ _ Hkeys Hattach Hpersist).
  rewrite (Sp_run_completes _ _ _ _ _ _ _ _ _ _ Hkeys' Hattach' Hpersist).
  destruct save; (do 6 eexists; split; [reflexivity|]);
    (split; [unfold delivered; cbn [persisted ed_obj Sv set_Sv];
             try rewrite last_snoc; reflexivity|]);
    (split; [cbn [saved_dataset]; apply product_lookup; discriminate|]);
    (split; [reflexivity|]);
    (split; [unfold delivered; cbn [persisted ed_obj Sp set_Sp];
             try rewrite last_snoc; reflexivity|]);
    (split; [cbn [saved_dataset]; apply product_lookup; discriminate|]);
    intros c p r raw_power rg f cs a P G E T sa Hraw Hrg Hf Hcs Ha HP HG HE HT Hsa
      loss gain_Sv gain_Sp;
    pose proof (xat_Sv_array nonfinite (ed_obj s) _ sos alpha tp gc eba tdn sac c p r
                  _ _ _ _ _ _ _ _ _ _ Hraw Hrg Hf Hcs Ha HP HG HE HT Hsa) as Hsv;
    pose proof (xat_Sp_array nonfinite (ed_obj s) _ sos alpha tp gc c p r
                  _ _ _ _ _ _ _ Hraw Hrg Hf Hcs Ha HP HG) as Hsp;
    pose proof (spec_spreading_loss_nonneg rg) as Hpos;
    pose proof (spec_spreading_loss_near rg) as Hnear;
    unfold spec_Sv, spec_Sp, spec_absorption_loss, spec_wavelength, spec_spreading_loss in *;
    fold loss gain_Sv gain_Sp in Hsv, Hsp, Hpos, Hnear;
    (split; [exact Hpos|]); (split; [exact Hsv|]); (split; [exact Hsp|]);
    intros Hle; specialize (Hnear Hle);
    (split; [exact Hnear|]);
    rewrite Hsv, Hsp, Hnear; split; f_equal; lra.
Qed.

(** C7, as the code has it.  A calibration call never changes the raw
    data, and what it returns is [None].  It works on the object it is
    given: a call for ['Sv'] or ['Sp'] that finds its keys, whose range
    has the three dimensions and is covered by every operand, and whose
    persist collaborator writes when asked to, completes with the range
    it used cached on [ed.range], and has either stored the product on
    [ed.Sv] or [ed.Sp] ([save] off) or handed it to the persist
    collaborator, printed one line and recorded the path on
    [ed.Sv_path] or [ed.Sp_path] ([save] on).  The product is a dataset
    holding the calibrated variable and, under ["range"], the range
    array. *)
Theorem cal_narrowband_effects (env_params cal_params : params) (s : state)
    (cal_type : string) (save : bool) (save_path : option string) (save_format : string) :
  let run := _cal_narrowband calc_range validate_proc_path now _save_dataset nonfinite
               env_params cal_params cal_type save save_path save_format s in
  let rng := range_used calc_range (ed_obj s) env_params cal_params in
  raw (ed_obj (fst run)) = raw (ed_obj s)
  /\ raw_environment (ed_obj (fst run)) = raw_environment (ed_obj s)
  /\ (calibration_request (ed_obj s) rng env_params cal_params cal_type ->
      (save = true -> persist_succeeds _save_dataset) ->
      exists (s' : state) (ds : dataset),
        run = (s', Return tt)
        /\ delivered (product_attr cal_type) save s' = Some ds
        /\ dom ds = {[ cal_type; "range" ]}
        /\ ds !! "range" = Some rng
        /\ range (ed_obj s') = Some rng
        /\ (if save
            then (exists path,
                    path_attr cal_type (ed_obj s') = Some path
                    /\ persisted s' = persisted s ++ [mkSaved ds path save_format]
                    /\ length (stdout s') = S (length (stdout s))
                    /\ product_attr cal_type (ed_obj s') = product_attr cal_type (ed_obj s))
            else stdout s' = stdout s /\ persisted s' = persisted s)).
Proof.
  intros run rng. split; [|split].
  - subst run. destruct s as [ed out saved].
    unfold _cal_narrowband, bind, lift, get_ed, ret, modify_ed, print, save_dataset, none, getitem.
    cbn [ed_obj stdout persisted].
    repeat (case_match; simplify_eq/=; try discriminate); reflexivity.
  - subst run. destruct s as [ed out saved].
    unfold _cal_narrowband, bind, lift, get_ed, ret, modify_ed, print, save_dataset, none, getitem.
    cbn [ed_obj stdout persisted].
    repeat (case_match; simplify_eq/=; try discriminate); reflexivity.
  - intros [(-> & sos & alpha & tp & gc & eba & tdn & sac & Hkeys & Hattach)
           |(-> & sos & alpha & tp & gc & Hkeys & Hattach)] Hpersist; subst run.
    + rewrite (Sv_run_completes _ _ _ _ _ _ _ _ _ _ _ _ _ Hkeys Hattach Hpersist).
      fold rng. pose proof (cache_range_range rng (ed_obj s)) as Hcache.
      assert (Hrng : match range (ed_obj s) with Some r => r | None => rng end = rng)
        by (subst rng; unfold range_used; destruct (range (ed_obj s)); reflexivity).
      rewrite Hrng in Hcache.
      destruct (cache_range_raw rng (ed_obj s)) as (_ & _ & HSv & _ & _ & _ & _).
      destruct save; (eexists; eexists; split; [reflexivity|]);
        (split; [unfold delivered, product_attr; rewrite ?String.eqb_refl;
                 cbn [persisted ed_obj Sv set_Sv]; try rewrite last_snoc; reflexivity|]);
        cbn [saved_dataset];
        (split; [rewrite dom_insert_L, dom_singleton_L; set_solver|]);
        (split; [apply lookup_insert_eq|]);
        (split; [cbn [ed_obj set_Sv set_Sv_path range]; exact Hcache|]).
      * eexists. unfold path_attr, product_attr. rewrite String.eqb_refl.
        cbn [ed_obj set_Sv_path Sv_path Sv persisted stdout].
        repeat split; [rewrite length_app; cbn; lia | exact HSv].
      * split; reflexivity.
    + rewrite (Sp_run_completes _ _ _ _ _ _ _ _ _ _ Hkeys Hattach Hpersist).
      fold rng. pose proof (cache_range_range rng (ed_obj s)) as Hcache.
      assert (Hrng : match range (ed_obj s) with Some r => r | None => rng end = rng)
        by (subst rng; unfold range_used; destruct (range (ed_obj s)); reflexivity).
      rewrite Hrng in Hcache.
      destruct (cache_range_raw rng (ed_obj s)) as (_ & _ & _ & HSp & _ & _ & _).
      destruct save; (eexists; eexists; split; [reflexivity|]);
        (split; [unfold delivered, product_attr; change (String.eqb "Sp" "Sv") with false;
                 cbn [persisted ed_obj Sp set_Sp]; try rewrite last_snoc; reflexivity|]);
        cbn [saved_dataset];
        (split; [rewrite dom_insert_L, dom_singleton_L; set_solver|]);
        (split; [apply lookup_insert_eq|]);
        (split; [cbn [ed_obj set_Sp set_Sp_path range]; exact Hcache|]).
      * eexists. unfold path_attr, product_attr. change (String.eqb "Sp" "Sv") with false.
        cbn [ed_obj set_Sp_path Sp_path Sp persisted stdout].
        repeat split; [rewrite length_app; cbn; lia | exact HSp].
      * split; reflexivity.
Qed.
End Calibration_facts.

Lemma cal_narrowband_Sv_scenario :
  exists (s' : state) (ds : dataset) (sv : xarr),
    _cal_narrowband (fun _ _ _ => scalar 0) (fun _ _ _ => "out.zarr") "12:00:00" writes minus_huge
      scenario_env scenario_cal "Sv" false None "zarr" scenario_state = (s', Return tt)
    /\ Sv (ed_obj s') = Some ds
    /\ ds !! "Sv" = Some sv
    /\ xat sv 0 0 0 =
         Some (spec_Sv (-60) (spec_spreading_loss 50) (spec_absorption_loss (1 / 100) 50)
                 (spec_gain_Sv (log10_or minus_huge) 1000 20 (-20) (spec_wavelength 1500 38000)
                    (1 / 1000) 1500) 0).
Proof.
  destruct (cal_narrowband_Sv_formula (fun _ _ _ => scalar 0) (fun _ _ _ => "out.zarr")
              "12:00:00" writes minus_huge scenario_env scenario_cal scenario_state false None "zarr"
              (scalar 1500) (per_channel [(1 / 100)%R]) (per_channel [1000%R])
              (per_channel [20%R]) (per_channel [(-20)%R]) (per_channel [(1 / 1000)%R])
              (per_channel [0%R]))
    as (s' & ds & sv & Hrun & Hds & Hsv & Hat);
    try reflexivity; try discriminate.
  - split; [reflexivity|]. repeat constructor.
  - exists s', ds, sv. repeat split; try assumption.
    apply Hat; reflexivity.
Defined.

Lemma cal_narrowband_Sp_scenario :
  exists (s' : state) (ds : dataset) (sp : xarr),
    _cal_narrowband (fun _ _ _ => scalar 0) (fun _ _ _ => "out.zarr") "12:00:00" writes minus_huge
      scenario_env scenario_cal "Sp" true None "zarr" scenario_state = (s', Return tt)
    /\ saved_dataset <$> last (persisted s') = Some ds
    /\ ds !! "Sp" = Some sp
    /\ xat sp 0 0 0 =
         Some (spec_Sp (-60) (spec_spreading_loss 50) (spec_absorption_loss (1 / 100) 50)
                 (spec_gain_Sp (log10_or minus_huge) 1000 20 (spec_wavelength 1500 38000))).
Proof.
  destruct (cal_narrowband_Sp_formula (fun _ _ _ => scalar 0) (fun _ _ _ => "out.zarr")
              "12:00:00" writes minus_huge scenario_env scenario_cal scenario_state true None "zarr"
              (scalar 1500) (per_channel [(1 / 100)%R]) (per_channel [1000%R])
              (per_channel [20%R]))
    as (s' & ds & sp & Hrun & Hds & Hsp & Hat);
    try reflexivity.
  - split; [reflexivity|]. repeat constructor.
  - intros _ ds path fmt. reflexivity.
  - exists s', ds, sp. repeat split; try assumption.
    apply Hat; reflexivity.
Defined.

(** A range array that starts at the transducer: the first sample of
    the calibrated arrays holds no trace of a logarithm of zero. *)
Lemma spreading_loss_clamped_at_zero :
  exists (s1 : state) (dsv : dataset) (sv : xarr),
    _cal_narrowband (fun _ _ _ => scalar 0) (fun _ _ _ => "out.zarr") "12:00:00" writes minus_huge
      scenario_env scenario_cal "Sv" false None "zarr" zero_range_state = (s1, Return tt)
    /\ Sv (ed_obj s1) = Some dsv /\ dsv !! "Sv" = Some sv
    /\ xat sv 0 0 0 =
         Some (-60 + 2 * (1 / 100) * 0
               - spec_gain_Sv (log10_or minus_huge) 1000 20 (-20) (1500 / 38000) (1 / 1000) 1500
               - 2 * 0)%R.
Proof.
  destruct (spreading_loss_clamped (fun _ _ _ => scalar 0) (fun _ _ _ => "out.zarr")
              "12:00:00" writes minus_huge scenario_env scenario_cal zero_range_state false None "zarr"
              (scalar 1500) (per_channel [(1 / 100)%R]) (per_channel [1000%R])
              (per_channel [20%R]) (per_channel [(-20)%R]) (per_channel [(1 / 1000)%R])
              (per_channel [0%R]))
    as (s1 & s2 & dsv & dsp & sv & sp & Hrun & Hds & Hsv & _ & _ & _ & Hat).
  - repeat split; reflexivity.
  - split; [reflexivity|]. repeat constructor.
  - discriminate.
  - exists s1, dsv, sv. repeat split; try assumption.
    destruct (Hat 0 0 0 (-60)%R 0%R 38000%R 1500%R (1 / 100)%R 1000%R 20%R (-20)%R
                (1 / 1000)%R 0%R) as (_ & _ & _ & Hnear); try reflexivity.
    destruct Hnear as (_ & Hzero & _); [lra | exact Hzero].
Defined.

Lemma cal_narrowband_effects_scenario :
  exists (s' : state) (ds : dataset),
    _cal_narrowband range_50 (fun _ _ _ => "out.zarr") "12:00:00" writes minus_huge
      scenario_env scenario_cal "Sv" false None "zarr" fresh_state = (s', Return tt)
    /\ Sv (ed_obj s') = Some ds
    /\ ds !! "range" = Some (cube [[[50%R]]])
    /\ range (ed_obj s') = Some (cube [[[50%R]]]).
Proof.
  destruct (cal_narrowband_effects range_50 (fun _ _ _ => "out.zarr") "12:00:00" writes
              minus_huge scenario_env scenario_cal fresh_state "Sv" false None "zarr")
    as (_ & _ & Hproduct).
  destruct Hproduct as (s' & ds & Hrun & Hds & _ & Hrange & Hcache & _).
  - left. split; [reflexivity|].
    exists (scalar 1500), (per_channel [(1 / 100)%R]), (per_channel [1000%R]),
      (per_channel [20%R]), (per_channel [(-20)%R]), (per_channel [(1 / 1000)%R]),
      (per_channel [0%R]).
    split; [repeat split; reflexivity|]. split; [reflexivity|]. repeat constructor.
  - discriminate.
  - exists s', ds. repeat split; assumption.
Defined.

(** C7, as stated, fails: the call returns [None], and the object passed
    as [ed] comes back with [range] and [Sv] assigned. *)
Lemma cal_narrowband_mutates_ed :
  let run := _cal_narrowband range_50 (fun _ _ _ => "out.zarr") "12:00:00" writes minus_huge
               scenario_env scenario_cal "Sv" false None "zarr" fresh_state in
  snd run = Return tt
  /\ range (ed_obj fresh_state) = None
  /\ range (ed_obj (fst run)) = Some (cube [[[50%R]]])
  /\ Sv (ed_obj fresh_state) = None
  /\ is_Some (Sv (ed_obj (fst run)))
  /\ ed_obj (fst run) <> ed_obj fresh_state.
Proof.
  cbv zeta. repeat split.
  - eexists. reflexivity.
  - intros H. apply (f_equal range) in H. discriminate H.
Qed.

(** An array of ranges without a channel dimension cannot be attached:
    the call raises once the product is computed, and the object keeps
    the range but gets no product. *)
Example range_without_channels :
  let ed := mkEchoData (mkRaw (per_channel [38000%R]) (cube [[[(-60)%R]]])) (Return ∅)
              (Some (Bcast (Along [Along [50%R]]))) None None None None None in
  _cal_narrowband (fun _ _ _ => scalar 0) (fun _ _ _ => "out.zarr") "12:00:00" writes minus_huge
    scenario_env scenario_cal "Sv" false None "zarr" (mkState ed [] [])
  = (mkState ed [] [],
     Raise (ValueError "transpose: the dimensions must be a permuted list of the dimensions of the array")).
Proof. reflexivity. Qed.

(** A range array longer than the data has no product of its extents. *)
Example range_longer_than_data :
  let ed := mkEchoData (mkRaw (per_channel [38000%R]) (cube [[[(-60)%R]]])) (Return ∅)
              (Some (cube [[[50%R; 51%R]]])) None None None None None in
  _cal_narrowband (fun _ _ _ => scalar 0) (fun _ _ _ => "out.zarr") "12:00:00" writes minus_huge
    scenario_env scenario_cal "Sp" true None "zarr" (mkState ed [] [])
  = (mkState ed [] [], Raise (ValueError "conflicting sizes for dimension")).
Proof. reflexivity. Qed.

(** ** Unimplemented aggregation modes *)

Lemma is_None_false (v : pyval) : v <> PNone -> is_None v = false.
Proof. destruct v; simpl; congruence. Qed.

Lemma get_tile_params_time_interval (proc_params : gmap string pyval) (s : state) (v : pyval) :
  proc_params !! "MVBS_time_interval" = Some v -> v <> PNone ->
  _get_tile_params proc_params s
  = (printed "Averaging by time interval is not yet implemented" s, Return None).
Proof.
  intros Hk Hv. unfold _get_tile_params, bind, lift, print, ret.
  rewrite (getitem_Some _ _ _ Hk), (is_None_false _ Hv). reflexivity.
Qed.

Lemma get_tile_params_distance_interval (proc_params : gmap string pyval) (s : state)
    (n v : pyval) :
  proc_params !! "MVBS_time_interval" = Some PNone ->
  proc_params !! "MVBS_ping_num" = Some n -> n <> PNone ->
  proc_params !! "MVBS_distance_interval" = Some v -> v <> PNone ->
  _get_tile_params proc_params s
  = (printed "Averaging by distance interval is not yet implemented" s, Return None).
Proof.
  intros Ht Hn Hn' Hk Hv. unfold _get_tile_params, bind, lift, print, ret.
  rewrite (getitem_Some _ _ _ Ht), (getitem_Some _ _ _ Hn), (getitem_Some _ _ _ Hk),
    (is_None_false _ Hv), (is_None_false _ Hn').
  reflexivity.
Qed.

Lemma get_tile_params_range_interval (proc_params : gmap string pyval) (s : state)
    (n v : pyval) :
  proc_params !! "MVBS_time_interval" = Some PNone ->
  proc_params !! "MVBS_ping_num" = Some n -> n <> PNone ->
  proc_params !! "MVBS_distance_interval" = Some PNone ->
  proc_params !! "MVBS_range_interval" = Some v -> v <> PNone ->
  _get_tile_params proc_params s
  = (printed "Averaging by range inteval is not yet implemented" s, Return None).
Proof.
  intros Ht Hn Hn' Hd Hk Hv. unfold _get_tile_params, bind, lift, print, ret.
  rewrite (getitem_Some _ _ _ Ht), (getitem_Some _ _ _ Hn), (getitem_Some _ _ _ Hd),
    (getitem_Some _ _ _ Hk), (is_None_false _ Hv), (is_None_false _ Hn').
  reflexivity.
Qed.

(** With an interval set, the tile parameters are never a pair of sizes. *)
Lemma get_tile_params_interval_no_sizes (proc_params : gmap string pyval) (s : state)
    (key : string) (v : pyval) :
  key ∈ interval_keys -> proc_params !! key = Some v -> v <> PNone ->
  forall t, snd (_get_tile_params proc_params s) <> Return (Some t).
Proof.
  intros Hkey Hk Hv t. apply is_None_false in Hv.
  unfold _get_tile_params, bind, lift, print, ret, throw, getitem.
  unfold interval_keys in Hkey.
  repeat (apply elem_of_cons in Hkey as [-> | Hkey]); [| | | by apply elem_of_nil in Hkey];
    repeat (case_match; simplify_eq/=); try congruence;
    match goal with
    | H : is_None ?x = false, H' : negb (is_None ?x) = false |- _ =>
        rewrite H in H'; discriminate H'
    end.
Qed.

Lemma get_tile_params_keeps_ed (proc_params : gmap string pyval) (s : state) :
  ed_obj (fst (_get_tile_params proc_params s)) = ed_obj s.
Proof.
  unfold _get_tile_params, bind, lift, print, ret, throw, getitem.
  repeat (case_match; simplify_eq/=); reflexivity.
Qed.

Lemma get_MVBS_keeps_ed (proc_params : gmap string pyval) (s : state) :
  ed_obj (fst (get_MVBS proc_params s)) = ed_obj s.
Proof.
  pose proof (get_tile_params_keeps_ed proc_params s) as Htile.
  unfold get_MVBS, bind, lift, get_ed, ret, throw.
  destruct (getitem proc_params "MVBS_source") as [source|e]; [|reflexivity].
  destruct (str_eq source "Sv" || str_eq source "Sv_clean"); [|reflexivity].
  destruct (get_source _ _) as [data|e]; [|reflexivity].
  destruct (_get_tile_params proc_params s) as [s1 [[[pings bins]|]|e]];
    cbn in Htile; try exact Htile.
  repeat (case_match; simplify_eq/=); exact Htile.
Qed.

Lemma get_MVBS_unsupported_no_result (proc_params : gmap string pyval) (s : state) :
  unsupported_request proc_params ->
  forall v, snd (get_MVBS proc_params s) <> Return v.
Proof.
  intros Hreq v.
  unfold get_MVBS, bind, lift, get_ed, ret, throw.
  destruct (getitem proc_params "MVBS_source") as [source|e]; [|discriminate].
  destruct (str_eq source "Sv" || str_eq source "Sv_clean"); [|discriminate].
  destruct (get_source _ _) as [data|e]; [|discriminate].
  destruct (_get_tile_params proc_params s) as [s1 [[[pings bins]|]|e]] eqn:Htile;
    [|discriminate|discriminate].
  destruct Hreq as [(key & w & Hkey & Hk & Hw) | Hrolling].
  - exfalso.
    apply (get_tile_params_interval_no_sizes proc_params s key w Hkey Hk Hw (pings, bins)).
    rewrite Htile. reflexivity.
  - rewrite (getitem_Some _ _ _ Hrolling). cbn. discriminate.
Qed.

(** Without a time interval and without a ping number the call raises
    before it looks at the other intervals. *)
Lemma get_tile_params_no_ping_num (proc_params : gmap string pyval) (s : state) :
  proc_params !! "MVBS_time_interval" = Some PNone ->
  proc_params !! "MVBS_ping_num" = Some PNone ->
  _get_tile_params proc_params s = (s, Raise (ValueError "No ping tile size provided")).
Proof.
  intros Ht Hn. unfold _get_tile_params, bind, lift, print, ret, throw.
  rewrite (getitem_Some _ _ _ Ht), (getitem_Some _ _ _ Hn). reflexivity.
Qed.

(** C5, as the code has it.  With [MVBS_time_interval] set,
    [_get_tile_params] prints that the mode is not yet implemented and
    returns [None].  With no time interval, a set
    [MVBS_distance_interval] or [MVBS_range_interval] has the same
    effect when a ping number is given; when none is given the call
    raises [ValueError("No ping tile size provided")] and prints
    nothing, whatever the two intervals are.  [get_MVBS], for a request
    with an interval set or for the rolling type, never returns an
    array, partial or otherwise: it ends in an exception, and the object
    is left as it was. *)
Theorem unimplemented_modes (proc_params : gmap string pyval) (s : state) :
  (forall v, proc_params !! "MVBS_time_interval" = Some v -> v <> PNone ->
     _get_tile_params proc_params s
     = (printed "Averaging by time interval is not yet implemented" s, Return None))
  /\ (forall n v,
        proc_params !! "MVBS_time_interval" = Some PNone ->
        proc_params !! "MVBS_ping_num" = Some n -> n <> PNone ->
        proc_params !! "MVBS_distance_interval" = Some v -> v <> PNone ->
        _get_tile_params proc_params s
        = (printed "Averaging by distance interval is not yet implemented" s, Return None))
  /\ (forall n v,
        proc_params !! "MVBS_time_interval" = Some PNone ->
        proc_params !! "MVBS_ping_num" = Some n -> n <> PNone ->
        proc_params !! "MVBS_distance_interval" = Some PNone ->
        proc_params !! "MVBS_range_interval" = Some v -> v <> PNone ->
        _get_tile_params proc_params s
        = (printed "Averaging by range inteval is not yet implemented" s, Return None))
  /\ (proc_params !! "MVBS_time_interval" = Some PNone ->
      proc_params !! "MVBS_ping_num" = Some PNone ->
      _get_tile_params proc_params s
      = (s, Raise (ValueError "No ping tile size provided")))
  /\ (unsupported_request proc_params ->
        (exists e, snd (get_MVBS proc_params s) = Raise e)
        /\ ed_obj (fst (get_MVBS proc_params s)) = ed_obj s).
Proof.
  split; [|split; [|split; [|split]]].
  - apply get_tile_params_time_interval.
  - apply get_tile_params_distance_interval.
  - apply get_tile_params_range_interval.
  - apply get_tile_params_no_ping_num.
  - intros Hreq. split; [|apply get_MVBS_keeps_ed].
    pose proof (get_MVBS_unsupported_no_result proc_params s Hreq) as Hno.
    destruct (snd (get_MVBS proc_params s)) as [v|e].
    + exfalso. exact (Hno v eq_refl).
    + exists e. reflexivity.
Qed.

Lemma unimplemented_modes_time_interval :
  _get_tile_params time_interval_request fresh_state
  = (printed "Averaging by time interval is not yet implemented" fresh_state, Return None).
Proof.
  apply (proj1 (unimplemented_modes time_interval_request fresh_state) (PStr "30s"));
    [reflexivity | discriminate].
Defined.

(** C5, as stated, fails: asked for thirty-second tiles, [_get_tile_params]
    prints a diagnostic and returns [None], and the exception [get_MVBS]
    then ends in is the [TypeError] of unpacking that [None]. *)
Lemma time_interval_prints_and_returns_None :
  let s := mkState (set_Sv {["Sv" := cube [[[0%R]]]]} fresh_ed) [] [] in
  _get_tile_params time_interval_request s
  = (mkState (ed_obj s) ["Averaging by time interval is not yet implemented"] [], Return None)
  /\ get_MVBS time_interval_request s
     = (mkState (ed_obj s) ["Averaging by time interval is not yet implemented"] [],
        Raise (TypeError "cannot unpack non-iterable NoneType object")).
Proof. split; reflexivity. Qed.

(** A distance interval without a ping number: the call raises and
    prints nothing. *)
Example distance_interval_without_ping_num :
  _get_tile_params (<["MVBS_distance_interval" := PStr "100m"]>
                    (<["MVBS_time_interval" := PNone]> time_interval_request)) fresh_state
  = (fresh_state, Raise (ValueError "No ping tile size provided")).
Proof. reflexivity. Qed.

(** The rolling type passes the tile parameters and then finds [MVBS]
    unassigned. *)
Example rolling_is_unbound :
  get_MVBS rolling_request state_4x4
  = (state_4x4, Raise (UnboundLocalError "local variable 'MVBS' referenced before assignment")).
Proof. reflexivity. Qed.

(** ** Sources of the environment parameters *)

Section Environment_facts.
Variable uwa_calc_sound_speed : xarr -> xarr -> xarr -> string -> xarr.
Variable uwa_calc_seawater_absorption : xarr -> xarr -> xarr -> xarr -> string -> xarr.

(** C9, as the code has it.  The absorption operation raises for every
    source other than ['user'].  The sound-speed operation has two
    sources: ['user'], which requires [env_params], and ['file'], for
    which it returns the sound speed stored in the raw file when there
    is one. *)
Theorem environment_sources (ed : EchoData) (env_params : params)
    (src formula_source : string) :
  (src <> "user" ->
     calc_seawater_absorption uwa_calc_seawater_absorption ed env_params src formula_source
     = Raise (ValueError "'src' can only be 'user'"))
  /\ (forall env ds_env v,
        raw_environment ed = Return ds_env ->
        ds_env !! "sound_speed_indicative" = Some v ->
        calc_sound_speed uwa_calc_sound_speed ed env "file" formula_source
        = Return (Some v))
  /\ calc_sound_speed uwa_calc_sound_speed ed None "user" formula_source
     = Raise (ValueError "`env_params` required for calculating sound speed").
Proof.
  split; [|split].
  - intros Hsrc. unfold calc_seawater_absorption.
    apply String.eqb_neq in Hsrc. rewrite Hsrc. reflexivity.
  - intros env ds_env v Hopen Hv. unfold calc_sound_speed. cbn.
    rewrite Hopen. cbn. rewrite Hv. reflexivity.
  - reflexivity.
Qed.
End Environment_facts.

Lemma environment_sources_file :
  calc_seawater_absorption (fun f _ _ _ _ => f) ed_with_stored_sound_speed ∅ "file" "FG"
  = Raise (ValueError "'src' can only be 'user'").
Proof.
  apply (proj1 (environment_sources (fun _ _ _ _ => scalar 0) (fun f _ _ _ _ => f)
                  ed_with_stored_sound_speed ∅ "file" "FG")).
  discriminate.
Defined.

(** C9, as stated, fails: the sound-speed operation accepts the source
    ['file'] and returns the stored value. *)
Lemma calc_sound_speed_file_returns :
  calc_sound_speed (fun _ _ _ _ => scalar 0) ed_with_stored_sound_speed None "file" "Mackenzie"
  = Return (Some (scalar 1500)).
Proof. reflexivity. Qed.

(** For a source that is neither ['file'] nor ['user'] the error is built
    and not raised, and the call returns [None]. *)
Example calc_sound_speed_other_source :
  calc_sound_speed (fun _ _ _ _ => scalar 0) ed_with_stored_sound_speed None "database" "Mackenzie"
  = Return None.
Proof. reflexivity. Qed.

(** ** Noise removal *)

(** C10.  [remove_noise] is documented to remove noise and has no body:
    on a calibrated session it returns [None] and leaves the object
    without an [Sv_clean], so that there is nothing to compare with
    [Sv], and aggregating the cleaned product raises. *)
Lemma remove_noise_yields_no_Sv_clean :
  let s := mkState (set_Sv {["Sv" := cube [[[0%R]]]]} fresh_ed) [] [] in
  let s' := fst (remove_noise ∅ false "zarr" s) in
  snd (remove_noise ∅ false "zarr" s) = Return tt
  /\ s' = s
  /\ Sv_clean (ed_obj s') = None
  /\ snd (get_MVBS (<["MVBS_source" := PStr "Sv_clean"]> time_interval_request) s')
     = Raise (AttributeError "'NoneType' object has no attribute 'Sv_clean'").
Proof. repeat split. Qed.

(** ** The sa_correction resolver *)

Lemma lex_compare_Eq (a b : list Q) :
  lex_compare a b = Eq <-> Forall2 Qeq a b.
Proof.
  revert b. induction a as [|x a IH]; intros [|y b]; simpl.
  - split; [constructor | reflexivity].
  - split; [discriminate | intros H; inversion H].
  - split; [discriminate | intros H; inversion H].
  - destruct (Qcompare x y) eqn:Hc.
    + rewrite IH. apply Qeq_alt in Hc. split.
      * intros H. constructor; assumption.
      * intros H. inversion H; assumption.
    + split; [discriminate|]. intros H. inversion H as [|? ? ? ? Hxy _]; subst.
      apply Qeq_alt in Hxy. congruence.
    + split; [discriminate|]. intros H. inversion H as [|? ? ? ? Hxy _]; subst.
      apply Qeq_alt in Hxy. congruence.
Qed.

Lemma Forall2_Qeq_sym (a b : list Q) : Forall2 Qeq a b -> Forall2 Qeq b a.
Proof. induction 1; constructor; [symmetry|]; assumption. Qed.

Lemma Forall2_Qeq_trans (a b c : list Q) :
  Forall2 Qeq a b -> Forall2 Qeq b c -> Forall2 Qeq a c.
Proof.
  intros H. revert c. induction H as [|x y a b Hxy _ IH]; intros c Hc.
  - inversion Hc. constructor.
  - inversion Hc as [|? z ? c' Hyz Hbc]; subst. constructor.
    + transitivity y; assumption.
    + apply IH, Hbc.
Qed.

Lemma insert_unique_keeps (c d : list Q) (sorted : list (list Q)) :
  d ∈ sorted -> d ∈ insert_unique c sorted.
Proof.
  induction sorted as [|e rest IH]; simpl; intros Hd.
  - by apply elem_of_nil in Hd.
  - destruct (lex_compare c e).
    + exact Hd.
    + apply elem_of_cons. right. exact Hd.
    + apply elem_of_cons in Hd as [-> | Hd]; apply elem_of_cons; [left | right]; auto.
Qed.

Lemma insert_unique_covers (c : list Q) (sorted : list (list Q)) :
  exists d, d ∈ insert_unique c sorted /\ Forall2 Qeq c d.
Proof.
  induction sorted as [|e rest IH]; simpl.
  - exists c. split; [apply list_elem_of_singleton; reflexivity|].
    apply lex_compare_Eq. clear. induction c as [|x c IH]; simpl; [reflexivity|].
    rewrite (proj1 (Qeq_alt x x) (Qeq_refl x)). exact IH.
  - destruct (lex_compare c e) eqn:Hc.
    + exists e. split; [apply elem_of_cons; left; reflexivity | apply lex_compare_Eq, Hc].
    + exists c. split; [apply elem_of_cons; left; reflexivity|].
      apply lex_compare_Eq. clear. induction c as [|x c IH]; simpl; [reflexivity|].
      rewrite (proj1 (Qeq_alt x x) (Qeq_refl x)). exact IH.
    + destruct IH as (d & Hd & Hcd). exists d. split; [|exact Hcd].
      apply elem_of_cons. right. exact Hd.
Qed.

Lemma unique_columns_cover (cols : list (list Q)) (c : list Q) :
  c ∈ cols -> exists d, d ∈ foldr insert_unique [] cols /\ Forall2 Qeq c d.
Proof.
  induction cols as [|e cols IH]; intros Hc.
  - by apply elem_of_nil in Hc.
  - simpl. apply elem_of_cons in Hc as [-> | Hc].
    + apply insert_unique_covers.
    + destruct (IH Hc) as (d & Hd & Hcd). exists d. split; [|exact Hcd].
      apply insert_unique_keeps, Hd.
Qed.

(** Two columns that differ leave at least two distinct columns. *)
Lemma two_unique_columns (cols : list (list Q)) (c1 c2 : list Q) :
  c1 ∈ cols -> c2 ∈ cols -> ~ Forall2 Qeq c1 c2 ->
  2 <= length (foldr insert_unique [] cols).
Proof.
  intros H1 H2 Hne.
  destruct (unique_columns_cover cols c1 H1) as (d1 & Hd1 & E1).
  destruct (unique_columns_cover cols c2 H2) as (d2 & Hd2 & E2).
  destruct (foldr insert_unique [] cols) as [|u [|u' rest]]; simpl; try lia.
  - by apply elem_of_nil in Hd1.
  - apply list_elem_of_singleton in Hd1, Hd2. subst. exfalso. apply Hne.
    eapply Forall2_Qeq_trans; [exact E1 | apply Forall2_Qeq_sym, E2].
Qed.

Lemma columns_lookup (rows : list (list Q)) (P i : nat) :
  rows <> [] -> Forall (fun row => length row = P) rows -> i < P ->
  columns rows !! i = Some (map (fun row => nth i row 0%Q) rows).
Proof.
  intros Hne Hrect Hi. destruct rows as [|first rest]; [congruence|].
  unfold columns. rewrite list_lookup_fmap.
  apply Forall_cons in Hrect as [Hfirst _].
  rewrite lookup_seq_lt by lia. reflexivity.
Qed.

Lemma columns_length (rows : list (list Q)) (P : nat) :
  rows <> [] -> Forall (fun row => length row = P) rows -> length (columns rows) = P.
Proof.
  intros Hne Hrect. destruct rows as [|first rest]; [congruence|].
  apply Forall_cons in Hrect as [Hfirst _].
  unfold columns. rewrite length_map, length_seq. exact Hfirst.
Qed.

Lemma nth_lookup_Q (row : list Q) (i : nat) (x : Q) :
  row !! i = Some x -> nth i row 0%Q = x.
Proof. intros H. apply nth_lookup_Some with (d := 0%Q) in H. exact H. Qed.

(** A channel whose pulse length varies gives two different columns. *)
Lemma varies_two_columns (rows : list (list Q)) (P : nat) (row : list Q) :
  Forall (fun row => length row = P) rows -> row ∈ rows -> varies row ->
  2 <= length (foldr insert_unique [] (columns rows)).
Proof.
  intros Hrect Hin (i & j & x & y & Hi & Hj & Hxy).
  assert (Hne : rows <> []) by (intros ->; by apply elem_of_nil in Hin).
  assert (Hlen : length row = P) by (rewrite Forall_forall in Hrect; apply Hrect, Hin).
  assert (HiP : i < P) by (rewrite <- Hlen; eapply lookup_lt_Some, Hi).
  assert (HjP : j < P) by (rewrite <- Hlen; eapply lookup_lt_Some, Hj).
  apply (two_unique_columns _ (map (fun row => nth i row 0%Q) rows)
                              (map (fun row => nth j row 0%Q) rows)).
  - eapply list_elem_of_lookup_2, columns_lookup; eassumption.
  - eapply list_elem_of_lookup_2, columns_lookup; eassumption.
  - intros HF. apply list_elem_of_lookup_1 in Hin as [c Hc].
    apply Hxy.
    rewrite <- (nth_lookup_Q _ _ _ Hi), <- (nth_lookup_Q _ _ _ Hj).
    eapply (Forall2_lookup_lr _ _ _ c); [exact HF | |];
      rewrite list_lookup_fmap, Hc; reflexivity.
Qed.

Lemma rows_of_columns_shape (n : nat) (cols : list (list Q)) :
  length (rows_of_columns n cols) = n
  /\ Forall (fun row => length row = length cols) (rows_of_columns n cols).
Proof.
  unfold rows_of_columns. split.
  - rewrite length_map, length_seq. reflexivity.
  - apply Forall_forall. intros row Hrow.
    apply list_elem_of_fmap in Hrow as (i & -> & _). apply length_map.
Qed.

Lemma concat_length_rect (rows : list (list Q)) (U : nat) :
  Forall (fun row => length row = U) rows -> length (concat rows) = length rows * U.
Proof.
  induction 1 as [|row rows Hrow _ IH]; simpl; [reflexivity|].
  rewrite length_app, IH, Hrow. reflexivity.
Qed.

(** Unless exactly one distinct column is left, the squeezed array does
    not have one entry per channel. *)
Lemma squeeze_size (rows : list (list Q)) (U : nat) :
  Forall (fun row => length row = U) rows -> rows <> [] -> U <> 1 ->
  nd_size (squeeze rows) <> length rows.
Proof.
  intros Hrect Hne HU.
  destruct rows as [|r1 rest]; [congruence|].
  pose proof (concat_length_rect _ _ Hrect) as Hsize.
  apply Forall_cons in Hrect as [H1 Hrest].
  destruct rest as [|r2 rest].
  - destruct r1 as [|x [|y r1]]; simpl in *; lia.
  - assert (Hall : forallb (fun row => Nat.eqb (length row) 1) (r1 :: r2 :: rest) = false).
    { simpl. rewrite H1. apply Nat.eqb_neq in HU. rewrite HU. reflexivity. }
    unfold squeeze.
    destruct r1 as [|x [|y r1]]; rewrite Hall; unfold nd_size; rewrite Hsize;
      simpl length in *; nia.
Qed.

Lemma pulse_length_check (ds_vend : Vendor) (tdn table : list (list Q)) :
  vend_sa_correction ds_vend = Some table ->
  length tdn = length (vend_frequency ds_vend) ->
  tdn <> [] ->
  length (foldr insert_unique [] (columns tdn)) <> 1 ->
  select_sa_correction ds_vend tdn = Raise (ValueError "Pulse length changes over time").
Proof.
  intros Htable Hn Hne HU. unfold select_sa_correction. rewrite Htable.
  destruct (rows_of_columns_shape (length tdn) (foldr insert_unique [] (columns tdn)))
    as [Hlen Hrect].
  assert (Hsize : nd_size (squeeze (unique_axis1 tdn)) <> length (vend_frequency ds_vend)).
  { rewrite <- Hn. unfold unique_axis1. rewrite <- Hlen at 2.
    apply (squeeze_size _ _ Hrect); [|exact HU].
    intros Hnil. rewrite Hnil in Hlen. simpl in Hlen.
    destruct tdn; [congruence | discriminate]. }
  apply Nat.eqb_neq in Hsize. rewrite Hsize. reflexivity.
Qed.

(** C8. On a dataset whose correction table is present and whose arrays
    have one row per channel, a channel whose transmitted pulse length
    changes between pings makes the resolver raise
    [ValueError("Pulse length changes over time")]; and whenever the
    resolver returns, every channel has exactly one pulse length. *)
Theorem pulse_length_must_be_constant (ds_vend : Vendor) (tdn table : list (list Q))
    (pings : nat) :
  vend_sa_correction ds_vend = Some table ->
  length tdn = length (vend_frequency ds_vend) ->
  Forall (fun row => length row = pings) tdn ->
  ((exists row, row ∈ tdn /\ varies row) ->
     calc_sa_correction ds_vend tdn = Raise (ValueError "Pulse length changes over time"))
  /\ (forall result, calc_sa_correction ds_vend tdn = Return result ->
        forall row, row ∈ tdn -> one_pulse_length row).
Proof.
  intros Htable Hn Hrect. split.
  - intros (row & Hin & Hvar).
    pose proof (varies_two_columns tdn pings row Hrect Hin Hvar) as HU.
    unfold calc_sa_correction. rewrite (pulse_length_check ds_vend tdn table); auto.
    + intros ->. by apply elem_of_nil in Hin.
    + lia.
  - intros result Hret row Hin.
    assert (Hne : tdn <> []) by (intros ->; by apply elem_of_nil in Hin).
    assert (HU : length (foldr insert_unique [] (columns tdn)) = 1).
    { destruct (Nat.eq_dec (length (foldr insert_unique [] (columns tdn))) 1) as [|HU];
        [assumption|].
      unfold calc_sa_correction in Hret.
      rewrite (pulse_length_check ds_vend tdn table) in Hret by assumption.
      discriminate Hret. }
    split.
    + intros ->.
      assert (Hp : pings = 0).
      { rewrite Forall_forall in Hrect. symmetry. apply (Hrect _ Hin). }
      subst pings. pose proof (columns_length tdn 0 Hne Hrect) as Hc.
      apply nil_length_inv in Hc. rewrite Hc in HU. discriminate HU.
    + intros i j x y Hi Hj.
      destruct (Qeq_dec x y) as [|Hxy]; [assumption|]. exfalso.
      assert (Hvar : varies row) by (exists i, j, x, y; auto).
      pose proof (varies_two_columns tdn pings row Hrect Hin Hvar). lia.
Qed.

Lemma pulse_length_must_be_constant_example :
  calc_sa_correction two_channel_vendor [[512; 1024]; [64; 64]]%Q
  = Raise (ValueError "Pulse length changes over time").
Proof.
  apply (proj1 (pulse_length_must_be_constant two_channel_vendor
                  [[512; 1024]; [64; 64]]%Q [[1; 2; 3]; [4; 5; 6]]%Q 2
                  eq_refl eq_refl ltac:(repeat constructor))).
  exists [512; 1024]%Q. split.
  - apply elem_of_cons. left. reflexivity.
  - exists 0, 1, 512%Q, 1024%Q. repeat split. intros H. discriminate H.
Defined.

Lemma sequence_Return {A B} (f : A -> outcome B) (g : A -> B) (l : list A) :
  (forall i x, l !! i = Some x -> f x = Return (g x)) ->
  sequence (map f l) = Return (map g l).
Proof.
  induction l as [|a l IH]; intros H; simpl; [reflexivity|].
  rewrite (H 0 a eq_refl). simpl.
  rewrite IH; [reflexivity|]. intros i x Hi. apply (H (S i) x Hi).
Qed.




Lemma lex_compare_refl (c : list Q) : lex_compare c c = Eq.
Proof. apply lex_compare_Eq. induction c; constructor; [reflexivity | assumption]. Qed.

Lemma unique_of_replicate (P : nat) (c : list Q) :
  foldr insert_unique [] (replicate (S P) c) = [c].
Proof.
  induction P as [|P IH].
  - reflexivity.
  - change (replicate (S (S P)) c) with (c :: replicate (S P) c).
    simpl foldr. simpl in IH. rewrite IH. simpl. rewrite lex_compare_refl. reflexivity.
Qed.

Lemma map_nth_seq (pl : list Q) :
  map (fun i => nth i pl 0%Q) (seq 0 (length pl)) = pl.
Proof.
  apply list_eq. intros i. rewrite list_lookup_fmap.
  destruct (decide (i < length pl)) as [Hi|Hi].
  - rewrite lookup_seq_lt by exact Hi. simpl.
    destruct (lookup_lt_is_Some_2 pl i Hi) as [x Hx]. rewrite Hx.
    f_equal. apply nth_lookup_Q, Hx.
  - rewrite lookup_seq_ge by lia. rewrite lookup_ge_None_2 by lia. reflexivity.
Qed.

Lemma columns_constant (P : nat) (pl : list Q) :
  pl <> [] -> columns (map (replicate (S P)) pl) = replicate (S P) pl.
Proof.
  intros Hne. destruct pl as [|x pl]; [congruence|].
  unfold columns. cbn [map]. rewrite length_replicate.
  apply list_eq. intros j. rewrite list_lookup_fmap.
  destruct (decide (j < S P)) as [Hj|Hj].
  - rewrite lookup_seq_lt by exact Hj. rewrite lookup_replicate_2 by exact Hj. simpl.
    f_equal.
    change (map (fun row => nth j row 0%Q) (map (replicate (S P)) (x :: pl)) = x :: pl).
    rewrite map_map. rewrite <- (map_id (x :: pl)) at 2.
    apply map_ext. intros y. apply nth_lookup_Q, lookup_replicate_2, Hj.
  - rewrite lookup_seq_ge by lia. symmetry. apply lookup_replicate_None. lia.
Qed.

Lemma rows_of_single_column (pl : list Q) :
  rows_of_columns (length pl) [pl] = map (fun x => [x]) pl.
Proof.
  unfold rows_of_columns.
  transitivity (map (fun x => [x]) (map (fun i => nth i pl 0%Q) (seq 0 (length pl)))).
  - rewrite map_map. reflexivity.
  - rewrite map_nth_seq. reflexivity.
Qed.

Lemma squeeze_column (v : list Q) :
  2 <= length v -> squeeze (map (fun x => [x]) v) = Nd1 v.
Proof.
  intros Hn.
  assert (Hall : forall l : list Q,
            forallb (fun row : list Q => Nat.eqb (length row) 1) (map (fun x => [x]) l) = true).
  { induction l as [|a l IH]; [reflexivity | exact IH]. }
  assert (Hcol : forall l : list Q, map (fun row : list Q => nth 0 row 0%Q) (map (fun x => [x]) l) = l).
  { induction l as [|a l IH]; [reflexivity|]. simpl. f_equal. exact IH. }
  destruct v as [|x [|y v]]; simpl in Hn; try lia.
  specialize (Hall (x :: y :: v)). specialize (Hcol (x :: y :: v)).
  unfold squeeze. cbn [map] in *. rewrite Hall, Hcol. reflexivity.
Qed.

(** With one pulse length per channel and two channels or more, the
    squeezed array of distinct columns is the vector of pulse lengths. *)
Lemma unique_pulse_length_constant (P : nat) (pl : list Q) :
  2 <= length pl ->
  squeeze (unique_axis1 (map (replicate (S P)) pl)) = Nd1 pl.
Proof.
  intros Hn. assert (Hne : pl <> []) by (intros ->; simpl in Hn; lia).
  unfold unique_axis1. rewrite (columns_constant P pl Hne), unique_of_replicate.
  rewrite length_map, rows_of_single_column. apply squeeze_column, Hn.
Qed.


Lemma sequence_Return_inv {A} (l : list (outcome A)) (r : list A) :
  sequence l = Return r -> Forall2 (fun o x => o = Return x) l r.
Proof.
  revert r. induction l as [|o l IH]; intros r H; simpl in H.
  - injection H as <-. constructor.
  - destruct o as [a|e]; [|discriminate H]. simpl in H.
    destruct (sequence l) as [t|e]; [|discriminate H]. simpl in H.
    injection H as <-. constructor; [reflexivity | apply IH; reflexivity].
Qed.

Lemma all_scalars_inv {A} (items : list (ndarray A)) (xs : list A) :
  all_scalars items = Some xs -> items = map Nd0 xs.
Proof.
  unfold all_scalars. intros H. apply mapM_Some_1 in H.
  induction H as [|it x items xs Hx _ IH]; [reflexivity|].
  simpl. rewrite <- IH. destruct it; simplify_eq. reflexivity.
Qed.

Lemma np_array_Nd1_inv {A} (items : list (ndarray A)) (xs : list A) :
  np_array items = Return (Nd1 xs) -> items = map Nd0 xs.
Proof.
  unfold np_array. destruct (all_scalars items) as [ys|] eqn:Hs.
  - intros [= <-]. apply all_scalars_inv, Hs.
  - destruct (all_vectors items) as [vs|]; [|discriminate].
    destruct (same_lengths vs); discriminate.
Qed.

Lemma take_at_Nd0_inv (ch : list Q) (x : ndarray nat) (v : Q) :
  take_at ch x = Return (Nd0 v) -> exists j, x = Nd0 j /\ ch !! j = Some v.
Proof.
  unfold take_at. destruct x as [j|js|rows]; simpl.
  - destruct (ch !! j) as [w|] eqn:Hw; [|discriminate]. simpl. intros [= <-].
    exists j. split; [reflexivity | exact Hw].
  - destruct (sequence _); discriminate.
  - discriminate.
Qed.

Lemma nd_items_Nd0_inv {A} (a : ndarray A) (i : nat) (j : A) :
  nd_items a !! i = Some (Nd0 j) -> exists js, a = Nd1 js /\ js !! i = Some j.
Proof.
  destruct a as [x|v|rows]; simpl.
  - discriminate.
  - rewrite list_lookup_fmap. destruct (v !! i) as [y|] eqn:Hy; [|discriminate].
    simpl. intros [= <-]. exists v. split; [reflexivity | exact Hy].
  - rewrite list_lookup_fmap. destruct (rows !! i); discriminate.
Qed.

Lemma squeeze_index_Nd0_inv (js : list nat) (j : nat) :
  squeeze_index js = Nd0 j -> js = [j].
Proof. destruct js as [|a [|b js]]; simpl; congruence. Qed.

Lemma unique_pulse_length_single (P : nat) (x : Q) :
  squeeze (unique_axis1 [replicate (S P) x]) = Nd0 x.
Proof.
  unfold unique_axis1.
  change [replicate (S P) x] with (map (replicate (S P)) [x]).
  rewrite (columns_constant P [x]) by discriminate.
  rewrite unique_of_replicate. reflexivity.
Qed.


(** A result is a vector with one value per channel. *)
Lemma calc_return_inv (ds_vend : Vendor) (tdn : list (list Q)) (result : DataArray1) :
  calc_sa_correction ds_vend tdn = Return result ->
  exists values,
    select_sa_correction ds_vend tdn = Return (Nd1 values)
    /\ result = mkDataArray1 values (vend_frequency ds_vend)
    /\ length values = length (vend_frequency ds_vend).
Proof.
  intros Hret. unfold calc_sa_correction in Hret.
  destruct (select_sa_correction ds_vend tdn) as [sa|e]; [|discriminate Hret].
  cbn [obind] in Hret.
  destruct sa as [x0|values|rows]; try discriminate Hret.
  destruct (Nat.eqb (length values) (length (vend_frequency ds_vend))) eqn:Hlen;
    [|discriminate Hret].
  injection Hret as <-. apply Nat.eqb_eq in Hlen.
  exists values. repeat split. exact Hlen.
Qed.

(** A selected vector implies one match in every channel. *)
Lemma select_return_inv (ds_vend : Vendor) (table : list (list Q))
    (pl : list Q) (P : nat) (values : list Q) :
  vend_sa_correction ds_vend = Some table ->
  2 <= length pl ->
  length (vend_frequency ds_vend) = length pl ->
  select_sa_correction ds_vend (map (replicate (S P)) pl) = Return (Nd1 values) ->
  forall c x prow srow v,
    pl !! c = Some x -> vend_pulse_length ds_vend !! c = Some prow ->
    table !! c = Some srow -> values !! c = Some v ->
    exists j, matches x prow = [j] /\ srow !! j = Some v.
Proof.
  intros Htable Hn Hfreq Hsel.
  unfold select_sa_correction in Hsel.
  rewrite Htable, (unique_pulse_length_constant P pl Hn) in Hsel.
  cbn [nd_size] in Hsel. rewrite Hfreq, Nat.eqb_refl in Hsel. cbn [negb] in Hsel.
  destruct (sequence _) as [idx|e] eqn:Hidx in Hsel; [|discriminate Hsel].
  cbn [obind] in Hsel.
  destruct (np_array idx) as [idx_array|e] eqn:Harr; [|discriminate Hsel].
  cbn [obind] in Hsel.
  destruct (sequence _) as [selected|e] eqn:Hselected in Hsel; [|discriminate Hsel].
  cbn [obind] in Hsel.
  apply np_array_Nd1_inv in Hsel. subst selected.
  apply sequence_Return_inv in Hselected. apply sequence_Return_inv in Hidx.
  intros c x prow srow v Hx Hprow Hsrow Hv.
  (* the value of channel [c] was taken at a scalar index *)
  assert (Hsel_c : map Nd0 values !! c = Some (Nd0 v))
    by (rewrite list_lookup_fmap, Hv; reflexivity).
  destruct (Forall2_lookup_r _ _ _ _ _ Hselected Hsel_c) as (o & Ho & Hov).
  rewrite lookup_zip_with, Hsrow in Ho. cbn in Ho.
  destruct (nd_items idx_array !! c) as [ix|] eqn:Hix; [|discriminate Ho].
  cbn in Ho. injection Ho as <-.
  apply take_at_Nd0_inv in Hov as (j & -> & Hj).
  exists j. split; [|exact Hj].
  (* and that index is the only match *)
  apply nd_items_Nd0_inv in Hix as (js & -> & Hjs).
  apply np_array_Nd1_inv in Harr. subst idx.
  assert (Hidx_c : map Nd0 js !! c = Some (Nd0 j))
    by (rewrite list_lookup_fmap, Hjs; reflexivity).
  destruct (Forall2_lookup_r _ _ _ _ _ Hidx Hidx_c) as (o & Ho & Hoj).
  rewrite list_lookup_fmap, list_lookup_imap, Hprow in Ho. cbn in Ho.
  injection Ho as <-. unfold nd_index in Hoj. rewrite Hx in Hoj.
  cbn [obind isclose_row] in Hoj. injection Hoj as Hsq.
  apply squeeze_index_Nd0_inv in Hsq. exact Hsq.
Qed.




(** One match in each channel. *)
Example resolver_one_match_each :
  calc_sa_correction two_channel_vendor [[512; 512]; [64; 64]]%Q
  = Return (mkDataArray1 [2; 4]%Q [38000; 120000]%Q).
Proof. reflexivity. Qed.

(** Two matches in each channel: both are selected, and the call ends
    in the constructor of the result. *)
Example resolver_two_matches_each :
  matches 256 [256; 256; 1024]%Q = [0; 1]
  /\ matches 64 [64; 64; 256]%Q = [0; 1]
  /\ select_sa_correction duplicated_vendor [[256; 256]; [64; 64]]%Q
     = Return (Nd2 [[1; 2]; [4; 5]]%Q)
  /\ calc_sa_correction duplicated_vendor [[256; 256]; [64; 64]]%Q
     = Raise (ValueError "different number of dimensions on data and dims: 2 vs 1").
Proof. repeat split. Qed.

(** A pulse length that no entry of the table matches: nothing is
    selected, and the call ends the same way. *)
Example resolver_no_match :
  matches 500 [256; 512; 1024]%Q = []
  /\ select_sa_correction two_channel_vendor [[500; 500]; [65; 65]]%Q = Return (Nd2 [[]; []])
  /\ calc_sa_correction two_channel_vendor [[500; 500]; [65; 65]]%Q
     = Raise (ValueError "different number of dimensions on data and dims: 2 vs 1").
Proof. repeat split. Qed.

(** The tolerance at work: 100.0000001 against a table entry of 100. *)
Example resolver_tolerance :
  isclose (1000000001 # 10000000) 100 = true
  /\ ~ ((1000000001 # 10000000) == 100)%Q
  /\ calc_sa_correction (mkVendor [38000; 120000]%Q (Some [[1]; [2]]%Q) [[100]; [100]]%Q)
       [[1000000001 # 10000000]; [100]]%Q
     = Return (mkDataArray1 [1; 2]%Q [38000; 120000]%Q).
Proof. repeat split. intros H. discriminate H. Qed.

(** With a single channel the squeezed array is 0-d and cannot be indexed. *)
Example resolver_single_channel :
  calc_sa_correction (mkVendor [38000]%Q (Some [[1; 2; 3]]%Q) [[256; 512; 1024]]%Q)
    [[256; 256]]%Q
  = Raise (IndexError "too many indices for array").
Proof. reflexivity. Qed.

(** ** Tiling *)

Section Windows.
Context {A : Type}.

Lemma windows_aux_lookup (w : nat) (fuel : nat) (l : list A) (i : nat) :
  0 < w -> length l <= fuel ->
  windows_aux fuel w l !! i
  = if decide (i * w < length l) then Some (take w (drop (i * w) l)) else None.
Proof.
  intros Hw. revert l i. induction fuel as [|fuel IH]; intros l i Hlen.
  - destruct l; [|simpl in Hlen; lia]. simpl.
    destruct (decide (i * w < 0)); [lia | reflexivity].
  - destruct l as [|a l].
    + simpl. destruct (decide (i * w < 0)); [lia | reflexivity].
    + cbn [windows_aux]. destruct i as [|i].
      * cbn [lookup list_lookup Nat.mul drop]. rewrite decide_True by (simpl; lia).
        reflexivity.
      * cbn [lookup list_lookup]. rewrite IH by (rewrite length_drop; simpl in *; lia).
        rewrite length_drop.
        replace (S i * w) with (w + i * w) by lia.
        rewrite <- drop_drop.
        destruct (decide (i * w < length (a :: l) - w)),
                 (decide (w + i * w < length (a :: l))); try lia; reflexivity.
Qed.

Lemma windows_lookup (w : nat) (l : list A) (i : nat) :
  0 < w ->
  windows w l !! i
  = if decide (i * w < length l) then Some (take w (drop (i * w) l)) else None.
Proof. intros Hw. apply windows_aux_lookup; [exact Hw | reflexivity]. Qed.

(** A window of a padded list is the window of the list, followed by
    padding only. *)
Lemma pad_window (w k : nat) (filler : A) (l : list A) :
  exists m, take w (drop k (pad w filler l)) = take w (drop k l) ++ replicate m filler.
Proof.
  assert (Happ : forall m0, exists m,
             take w (drop k (l ++ replicate m0 filler))
             = take w (drop k l) ++ replicate m filler).
  { intros m0. rewrite drop_app, take_app, drop_replicate, take_replicate.
    eexists. reflexivity. }
  unfold pad. destruct (Nat.eqb (length l mod w) 0).
  - exists 0. rewrite app_nil_r. reflexivity.
  - apply Happ.
Qed.

Lemma pad_length_ge (w : nat) (filler : A) (l : list A) :
  length l <= length (pad w filler l).
Proof.
  unfold pad. destruct (Nat.eqb (length l mod w) 0); [lia|].
  rewrite length_app. lia.
Qed.
End Windows.

Lemma real_samples_app (l k : list (option R)) :
  real_samples (l ++ k) = real_samples l ++ real_samples k.
Proof. unfold real_samples. apply omap_app. Qed.

Lemma real_samples_Some (l : list R) : real_samples (map Some l) = l.
Proof.
  unfold real_samples. induction l as [|x l IH]; [reflexivity|].
  simpl. cbn. f_equal. exact IH.
Qed.

Lemma real_samples_padding (m : nat) : real_samples (replicate m None) = [].
Proof. induction m as [|m IH]; [reflexivity | exact IH]. Qed.

Lemma real_samples_concat (ls : list (list (option R))) :
  real_samples (concat ls) = concat (map real_samples ls).
Proof.
  induction ls as [|l ls IH]; [reflexivity|].
  simpl. rewrite real_samples_app, IH. reflexivity.
Qed.

(** Window [j] of a padded ping holds the samples [j*r .. j*r+r-1] of the
    ping and padding. *)
Lemma window_of_padded_ping (r j : nat) (ping : list R) :
  0 < r ->
  real_samples (default [] (windows r (pad r None (map Some ping)) !! j))
  = take r (drop (j * r) ping).
Proof.
  intros Hr. rewrite windows_lookup by exact Hr.
  destruct (decide (j * r < length (pad r None (map Some ping)))) as [Hj|Hj].
  - simpl default.
    destruct (pad_window r (j * r) None (map Some ping)) as [m ->].
    rewrite real_samples_app, real_samples_padding, app_nil_r.
    rewrite <- fmap_drop, <- fmap_take. apply real_samples_Some.
  - simpl default.
    pose proof (pad_length_ge r None (map Some ping)) as Hge.
    rewrite length_map in Hge.
    rewrite drop_ge by lia. destruct r; reflexivity.
Qed.

Lemma window_of_filler (r j width : nat) :
  0 < r ->
  real_samples (default [] (windows r (replicate width (@None R)) !! j)) = [].
Proof.
  intros Hr. rewrite windows_lookup by exact Hr.
  destruct (decide _); [|reflexivity]. simpl default.
  rewrite drop_replicate, take_replicate. apply real_samples_padding.
Qed.

Lemma concat_filler_windows (r j width m : nat) :
  0 < r ->
  concat (map (fun row => real_samples (default [] (windows r row !! j)))
              (replicate m (replicate width (@None R)))) = [].
Proof.
  intros Hr. induction m as [|m IH]; [reflexivity|].
  simpl. rewrite IH, app_nil_r. apply window_of_filler, Hr.
Qed.

(** The real samples of tile [j] of a band of padded pings. *)
Lemma band_tile_samples (r j m width : nat) (pings : list (list R)) :
  0 < r ->
  real_samples
    (concat (map (fun windowed => default [] (windowed !! j))
                 (map (windows r)
                      (map (fun ping => pad r None (map Some ping)) pings
                       ++ replicate m (replicate width None)))))
  = concat (map (fun ping => take r (drop (j * r) ping)) pings).
Proof.
  intros Hr. rewrite real_samples_concat, !map_map, map_app, concat_app.
  rewrite map_map. rewrite (concat_filler_windows r j width m Hr), app_nil_r.
  f_equal. apply map_ext. intros ping. apply window_of_padded_ping, Hr.
Qed.

Lemma coarsen_plane_lookup (p r nr i j : nat) (plane : list (list R)) :
  0 < p -> 0 < r ->
  Forall (fun ping => length ping = nr) plane ->
  i * p < length plane -> j * r < nr ->
  exists row, coarsen_plane p r plane !! i = Some row
              /\ row !! j = Some (mean (block plane p r i j)).
Proof.
  intros Hp Hr Hrect Hi Hj. unfold coarsen_plane. cbv zeta.
  set (padrow := fun ping : list R => pad r None (map Some ping)).
  set (width := length (default [] (head (map padrow plane)))).
  destruct (pad_window p (i * p) (replicate width None) (map padrow plane)) as [m Hm].
  rewrite <- fmap_drop, <- fmap_take in Hm.
  assert (Hrow : map (fun band => map nanmean (band_tiles (map (windows r) band)))
                     (windows p (pad p (replicate width None) (map padrow plane))) !! i
                 = Some (map nanmean (band_tiles (map (windows r)
                           (map padrow (take p (drop (i * p) plane))
                            ++ replicate m (replicate width None)))))).
  { rewrite list_lookup_fmap, windows_lookup by exact Hp.
    rewrite decide_True
      by (eapply Nat.lt_le_trans; [|apply pad_length_ge]; rewrite length_map; exact Hi).
    cbn [fmap option_fmap option_map]. rewrite Hm. reflexivity. }
  eexists. split; [exact Hrow|]. clear Hrow Hm.
  destruct (take p (drop (i * p) plane)) as [|ping0 rest] eqn:Hband.
  { apply (f_equal length) in Hband. rewrite length_take, length_drop in Hband.
    simpl in Hband. lia. }
  assert (Hping0 : length ping0 = nr).
  { rewrite Forall_forall in Hrect. apply Hrect.
    assert (H0 : (ping0 :: rest) !! 0 = Some ping0) by reflexivity.
    rewrite <- Hband in H0. apply lookup_take_Some in H0 as [H0 _].
    rewrite lookup_drop in H0. eapply list_elem_of_lookup_2, H0. }
  assert (Hcount : j < length (windows r (padrow ping0))).
  { apply (lookup_lt_is_Some_1 _ j). rewrite windows_lookup by exact Hr.
    rewrite decide_True; [eexists; reflexivity|].
    eapply Nat.lt_le_trans; [|apply pad_length_ge]. rewrite length_map. lia. }
  rewrite list_lookup_fmap. unfold band_tiles.
  change (map padrow (ping0 :: rest)) with (padrow ping0 :: map padrow rest).
  cbn [app map].
  rewrite list_lookup_fmap, lookup_seq_lt by exact Hcount. cbn [fmap option_fmap option_map].
  f_equal. unfold nanmean, block. rewrite Hband. f_equal.
  apply (band_tile_samples r j m width (ping0 :: rest) Hr).
Qed.

Lemma plane_samples_plane_of (plane : list (list R)) :
  plane_samples (plane_of plane) = Return plane.
Proof.
  unfold plane_samples, plane_of. rewrite map_map.
  rewrite (sequence_Return _ (fun ping => ping)); [rewrite map_id; reflexivity|].
  reflexivity.
Qed.

Lemma window_size_positive (n : nat) :
  0 < n -> window_size (PInt (Z.of_nat n)) = Return n.
Proof.
  intros Hn. unfold window_size.
  destruct (Z.leb_spec (Z.of_nat n) 0) as [H|H]; [lia|].
  rewrite Nat2Z.id. reflexivity.
Qed.

Lemma xmap_cube (f : R -> R) (a : list (list (list R))) :
  xmap f (cube a) = cube (map (map (map f)) a).
Proof.
  unfold xmap, cube. simpl. f_equal. rewrite !map_map.
  apply map_ext. intros plane. simpl. f_equal. rewrite !map_map. reflexivity.
Qed.

Lemma coarsen_mean_cube (p r : nat) (a : list (list (list R))) :
  0 < p -> 0 < r ->
  coarsen_mean (PInt (Z.of_nat p)) (PInt (Z.of_nat r)) (cube a)
  = Return (Along (map (fun plane => plane_of (coarsen_plane p r plane)) a)).
Proof.
  intros Hp Hr. unfold coarsen_mean.
  rewrite (window_size_positive p Hp), (window_size_positive r Hr).
  cbn [obind]. unfold cube. rewrite map_map.
  rewrite (sequence_Return _ (fun plane => plane_of (coarsen_plane p r plane)));
    [reflexivity|].
  intros i plane _. fold (plane_of plane). rewrite plane_samples_plane_of. reflexivity.
Qed.

Lemma block_map (f : R -> R) (plane : list (list R)) (p r i j : nat) :
  block (map (map f) plane) p r i j = map f (block plane p r i j).
Proof.
  unfold block. rewrite <- fmap_drop, <- fmap_take, map_map.
  change (map f (concat ?l)) with (f <$> concat l).
  rewrite concat_map, map_map. f_equal. apply map_ext. intros ping.
  rewrite <- fmap_drop, <- fmap_take. reflexivity.
Qed.

(** ** Linear-domain mean against the mean of the dB values *)

Local Open Scope R_scope.

Lemma Rsum_le_pointwise (f g : R -> R) (l : list R) :
  (forall x, x ∈ l -> g x <= f x) ->
  Rsum (map g l) <= Rsum (map f l)
  /\ (Rsum (map g l) = Rsum (map f l) -> forall x, x ∈ l -> g x = f x).
Proof.
  induction l as [|a l IH]; intros H.
  - split; [simpl; lra|]. intros _ x Hx. by apply elem_of_nil in Hx.
  - destruct IH as [IHle IHeq]; [intros x Hx; apply H, elem_of_cons; right; exact Hx|].
    assert (Ha : g a <= f a) by (apply H, elem_of_cons; left; reflexivity).
    simpl. split; [lra|].
    intros Heq x Hx. apply elem_of_cons in Hx as [-> | Hx].
    + lra.
    + apply IHeq; [lra | exact Hx].
Qed.

Lemma Rsum_affine (a b : R) (l : list R) :
  Rsum (map (fun x => a + b * x) l) = a * INR (length l) + b * Rsum l.
Proof.
  induction l as [|x l IH].
  - simpl. lra.
  - cbn [map Rsum foldr length]. fold (Rsum (map (fun x => a + b * x) l)). fold (Rsum l).
    rewrite IH, S_INR. lra.
Qed.

Lemma pow10_exp (x : R) : pow10 (x / 10) = exp (ln 10 / 10 * x).
Proof. unfold pow10, Rpower. f_equal. lra. Qed.

Lemma INR_length_pos (l : list R) : l <> [] -> 0 < INR (length l).
Proof. destruct l; [congruence|]. intros _. apply lt_0_INR. simpl. lia. Qed.

Lemma mean_times_length (l : list R) : l <> [] -> mean l * INR (length l) = Rsum l.
Proof.
  intros Hne. pose proof (INR_length_pos l Hne). unfold mean. field. lra.
Qed.

(** The tangent-line bound on the sum of linear powers. *)
Lemma linear_sum_bound (tile : list R) :
  tile <> [] ->
  let k := ln 10 / 10 in
  let m := mean tile in
  exp (k * m) * INR (length tile) <= Rsum (map (fun x => exp (k * x)) tile)
  /\ (exp (k * m) * INR (length tile) = Rsum (map (fun x => exp (k * x)) tile) ->
      forall x, x ∈ tile -> x = m).
Proof.
  intros Hne k m.
  assert (Hk : 0 < k) by (unfold k; pose proof ln_10_pos; lra).
  set (g := fun x => exp (k * m) * (1 - k * m) + exp (k * m) * k * x).
  assert (Hg : Rsum (map g tile) = exp (k * m) * INR (length tile)).
  { unfold g. rewrite Rsum_affine, <- (mean_times_length tile Hne). fold m. ring. }
  assert (Hpt : forall x, g x <= exp (k * x)).
  { intros x. unfold g.
    replace (k * x) with (k * m + k * (x - m)) by ring.
    rewrite exp_plus. pose proof (exp_ineq1_le (k * (x - m))) as Hexp.
    pose proof (exp_pos (k * m)) as Hpos. nra. }
  destruct (Rsum_le_pointwise (fun x => exp (k * x)) g tile (fun x _ => Hpt x))
    as [Hle Heq].
  rewrite <- Hg. split; [exact Hle|].
  intros Hsum x Hx. specialize (Heq Hsum x Hx). unfold g in Heq.
  destruct (Req_dec x m) as [|Hxm]; [assumption|]. exfalso.
  assert (Hne0 : k * (x - m) <> 0) by nra.
  pose proof (exp_ineq1 (k * (x - m)) Hne0) as Hstrict.
  replace (k * x) with (k * m + k * (x - m)) in Heq by ring.
  rewrite exp_plus in Heq. pose proof (exp_pos (k * m)) as Hpos. nra.
Qed.

Lemma Rsum_const (f : R -> R) (c : R) (l : list R) :
  (forall x, x ∈ l -> f x = c) -> Rsum (map f l) = c * INR (length l).
Proof.
  induction l as [|a l IH]; intros H.
  - simpl. lra.
  - cbn [map Rsum foldr length]. fold (Rsum (map f l)).
    rewrite IH by (intros x Hx; apply H, elem_of_cons; right; exact Hx).
    rewrite (H a) by (apply elem_of_cons; left; reflexivity).
    rewrite S_INR. lra.
Qed.

Lemma ln_le_compat (x y : R) : 0 < x -> x <= y -> ln x <= ln y.
Proof.
  intros Hx [Hlt | ->]; [left; apply ln_increasing; assumption | right; reflexivity].
Qed.

Lemma mean_linear (tile : list R) :
  mean (map (fun dB => pow10 (dB / 10)) tile)
  = Rsum (map (fun x => exp (ln 10 / 10 * x)) tile) / INR (length tile).
Proof.
  unfold mean. rewrite length_map. f_equal. f_equal.
  apply map_ext. intros x. apply pow10_exp.
Qed.

(** The dB value of the linear mean is at least the mean of the dB
    values, and equals it exactly when all samples are equal. *)
Lemma MVBS_against_mean_dB (tile : list R) :
  tile <> [] ->
  mean tile <= spec_MVBS tile
  /\ (spec_MVBS tile = mean tile <-> forall x y, x ∈ tile -> y ∈ tile -> x = y).
Proof.
  intros Hne.
  pose proof (INR_length_pos tile Hne) as Hn.
  pose proof ln_10_pos as Hln.
  destruct (linear_sum_bound tile Hne) as [Hle Heq]. cbv zeta in Hle, Heq.
  set (k := ln 10 / 10) in *. set (m := mean tile) in *.
  set (S := Rsum (map (fun x => exp (k * x)) tile)) in *.
  assert (Hexp : 0 < exp (k * m)) by apply exp_pos.
  assert (HL : exp (k * m) <= S / INR (length tile)).
  { apply Rmult_le_reg_r with (INR (length tile)); [exact Hn|].
    replace (S / INR (length tile) * INR (length tile)) with S by (field; lra).
    exact Hle. }
  assert (Hspec : spec_MVBS tile = 10 * (ln (S / INR (length tile)) / ln 10)).
  { unfold spec_MVBS, log10. rewrite mean_linear. reflexivity. }
  assert (Hkm : 10 * (k * m / ln 10) = m) by (unfold k; field; lra).
  split.
  - rewrite Hspec, <- Hkm. rewrite <- (ln_exp (k * m)) at 1.
    apply Rmult_le_compat_l; [lra|].
    apply Rmult_le_compat_r; [left; apply Rinv_0_lt_compat, Hln|].
    apply ln_le_compat; assumption.
  - split.
    + intros Hmean.
      assert (Hlnl : ln (S / INR (length tile)) = k * m).
      { rewrite Hspec in Hmean.
        replace (ln (S / INR (length tile)))
          with (10 * (ln (S / INR (length tile)) / ln 10) * ln 10 / 10) by (field; lra).
        rewrite Hmean. unfold k. field. }
      assert (HS : exp (k * m) * INR (length tile) = S).
      { rewrite <- Hlnl, exp_ln by lra. field. lra. }
      intros x y Hx Hy. rewrite (Heq HS x Hx), (Heq HS y Hy). reflexivity.
    + intros Hall.
      destruct tile as [|c tile]; [congruence|].
      assert (Hc : forall x, x ∈ c :: tile -> x = c).
      { intros x Hx. apply Hall; [exact Hx | apply elem_of_cons; left; reflexivity]. }
      assert (Hm : m = c).
      { unfold m, mean.
        rewrite <- (map_id (c :: tile)) at 1.
        rewrite (Rsum_const (fun x => x) c (c :: tile)) by exact Hc. field. lra. }
      assert (HS : S = exp (k * c) * INR (length (c :: tile))).
      { unfold S. apply Rsum_const. intros x Hx. rewrite (Hc x Hx). reflexivity. }
      rewrite Hspec, HS.
      replace (exp (k * c) * INR (length (c :: tile)) / INR (length (c :: tile)))
        with (exp (k * c)) by (field; lra).
      rewrite ln_exp, Hm. unfold k. field. lra.
Qed.

Local Close Scope R_scope.

(** ** Binned MVBS *)

Lemma get_MVBS_binned_run (proc_params : gmap string pyval) (s : state) (name : string)
    (a : list (list (list R))) (p r : nat) :
  binned_request proc_params name p r ->
  name = "Sv" \/ name = "Sv_clean" ->
  source_array (ed_obj s) name = Some (cube a) ->
  0 < p -> 0 < r ->
  get_MVBS proc_params s = (s, Return (MVBS_of p r a)).
Proof.
  intros (Hsrc & Htype & Hti & Hdi & Hri & Hpn & Hrn) Hname Harr Hp Hr.
  unfold get_MVBS, bind, lift, get_ed, ret, throw.
  rewrite (getitem_Some _ _ _ Hsrc).
  assert (Hok : str_eq (PStr name) "Sv" || str_eq (PStr name) "Sv_clean" = true).
  { destruct Hname as [-> | ->]; reflexivity. }
  rewrite Hok.
  assert (Hget : get_source (ed_obj s) name = Return (cube a)).
  { unfold get_source. unfold source_array in Harr.
    destruct (if String.eqb name "Sv" then Sv (ed_obj s) else Sv_clean (ed_obj s)) as [ds|];
      [|discriminate Harr].
    cbn in Harr. rewrite Harr. reflexivity. }
  rewrite Hget.
  unfold _get_tile_params, bind, lift, ret, throw.
  rewrite (getitem_Some _ _ _ Hti), (getitem_Some _ _ _ Hpn), (getitem_Some _ _ _ Hdi),
    (getitem_Some _ _ _ Hri), (getitem_Some _ _ _ Hrn), (getitem_Some _ _ _ Htype).
  cbn [is_None negb str_eq unique_len Nat.eqb].
  change (String.eqb "binned" "binned") with true. cbv iota beta.
  rewrite xmap_cube, (coarsen_mean_cube p r _ Hp Hr).
  unfold MVBS_of. rewrite map_map. reflexivity.
Qed.

Lemma MVBS_tile_value (p r nr c i j : nat) (a : list (list (list R))) (plane : list (list R)) :
  0 < p -> 0 < r ->
  a !! c = Some plane ->
  Forall (fun ping => length ping = nr) plane ->
  i * p < length plane -> j * r < nr ->
  xat (MVBS_of p r a) c i j = Some (spec_MVBS (block plane p r i j)).
Proof.
  intros Hp Hr Hc Hrect Hi Hj. unfold MVBS_of, spec_MVBS.
  eapply xat_xzip; [apply xat_scalar|]. apply (xat_xmap log10).
  destruct (coarsen_plane_lookup p r nr i j (map (map (fun x => pow10 (x / 10))) plane))
    as (row & Hrow & Hval); try assumption.
  - apply Forall_forall. intros ping Hping.
    apply list_elem_of_fmap in Hping as (ping' & -> & Hin).
    rewrite length_map. rewrite Forall_forall in Hrect. apply Hrect, Hin.
  - rewrite length_map. exact Hi.
  - rewrite block_map in Hval.
    unfold xat. cbn [axis_at]. rewrite list_lookup_fmap, Hc. cbn [fmap option_fmap option_map].
    unfold plane_of. cbn [axis_at]. rewrite list_lookup_fmap, Hrow.
    cbn [fmap option_fmap option_map axis_at]. exact Hval.
Qed.

Lemma block_nonempty (p r nr i j : nat) (plane : list (list R)) :
  0 < p -> 0 < r ->
  Forall (fun ping => length ping = nr) plane ->
  i * p < length plane -> j * r < nr ->
  block plane p r i j <> [].
Proof.
  intros Hp Hr Hrect Hi Hj Hnil. apply (f_equal length) in Hnil.
  unfold block in Hnil.
  destruct (take p (drop (i * p) plane)) as [|ping0 rest] eqn:Hband.
  { apply (f_equal length) in Hband. rewrite length_take, length_drop in Hband.
    simpl in Hband. lia. }
  assert (Hping0 : length ping0 = nr).
  { rewrite Forall_forall in Hrect. apply Hrect.
    assert (H0 : (ping0 :: rest) !! 0 = Some ping0) by reflexivity.
    rewrite <- Hband in H0. apply lookup_take_Some in H0 as [H0 _].
    rewrite lookup_drop in H0. eapply list_elem_of_lookup_2, H0. }
  cbn [map concat] in Hnil. rewrite length_app, length_take, length_drop in Hnil.
  simpl in Hnil. lia.
Qed.

(** C3, as the code has it.  For positive tile sizes, binned aggregation
    of a calibrated array returns, for every channel and every tile, ten
    times the decimal logarithm of the arithmetic mean of [10^(dB/10)]
    over the samples of the tile (padding left out).  That value is never
    below the arithmetic mean of the dB values of the tile, and it equals
    that mean exactly when all samples of the tile are equal. *)
Theorem binned_MVBS (proc_params : gmap string pyval) (s : state) (name : string)
    (a : list (list (list R))) (p r nr : nat) :
  binned_request proc_params name p r ->
  name = "Sv" \/ name = "Sv_clean" ->
  source_array (ed_obj s) name = Some (cube a) ->
  0 < p -> 0 < r ->
  Forall (Forall (fun ping => length ping = nr)) a ->
  exists mvbs,
    get_MVBS proc_params s = (s, Return mvbs)
    /\ forall (c i j : nat) (plane : list (list R)),
         a !! c = Some plane -> i * p < length plane -> j * r < nr ->
         let tile := block plane p r i j in
         xat mvbs c i j
         = Some (10 * log10 (mean (map (fun dB => pow10 (dB / 10)) tile)))%R
         /\ (mean tile <= 10 * log10 (mean (map (fun dB => pow10 (dB / 10)) tile)))%R
         /\ ((10 * log10 (mean (map (fun dB => pow10 (dB / 10)) tile)))%R = mean tile
             <-> forall x y, x ∈ tile -> y ∈ tile -> x = y).
Proof.
  intros Hreq Hname Harr Hp Hr Hrect.
  exists (MVBS_of p r a). split.
  - apply (get_MVBS_binned_run proc_params s name a p r); assumption.
  - intros c i j plane Hc Hi Hj tile.
    assert (Hplane : Forall (fun ping => length ping = nr) plane).
    { rewrite Forall_forall in Hrect. eapply Hrect, list_elem_of_lookup_2, Hc. }
    split.
    + apply (MVBS_tile_value p r nr c i j a plane); assumption.
    + apply MVBS_against_mean_dB.
      apply (block_nonempty p r nr i j plane); assumption.
Qed.

Lemma binned_MVBS_4x4 :
  exists mvbs,
    get_MVBS request_2x2 state_4x4 = (state_4x4, Return mvbs)
    /\ xat mvbs 0 0 0 = Some (spec_MVBS [-70; -60; -71; -61]%R)
    /\ xat mvbs 0 0 1 = Some (spec_MVBS [-50; -40; -51; -41]%R)
    /\ xat mvbs 0 1 0 = Some (spec_MVBS [-72; -62; -73; -63]%R)
    /\ xat mvbs 0 1 1 = Some (spec_MVBS [-52; -42; -53; -43]%R).
Proof.
  destruct (binned_MVBS request_2x2 state_4x4 "Sv" [Sv_4x4] 2 2 4) as (mvbs & Hrun & Htile).
  - repeat split.
  - left. reflexivity.
  - reflexivity.
  - lia.
  - lia.
  - repeat constructor.
  - exists mvbs. split; [exact Hrun|].
    repeat split.
    + apply (Htile 0 0 0 Sv_4x4 eq_refl); simpl; lia.
    + apply (Htile 0 0 1 Sv_4x4 eq_refl); simpl; lia.
    + apply (Htile 0 1 0 Sv_4x4 eq_refl); simpl; lia.
    + apply (Htile 0 1 1 Sv_4x4 eq_refl); simpl; lia.
Defined.

(** C3, as stated, fails: on a block of equal samples the value returned
    for a tile is the arithmetic mean of its dB values. *)
Lemma MVBS_of_flat_block_is_mean_dB :
  exists mvbs,
    get_MVBS request_2x2 state_flat = (state_flat, Return mvbs)
    /\ block Sv_flat 2 2 0 0 = [0; 0; 0; 0]%R
    /\ xat mvbs 0 0 0 = Some (mean (block Sv_flat 2 2 0 0)).
Proof.
  exists (MVBS_of 2 2 [Sv_flat]). split; [|split].
  - apply (get_MVBS_binned_run request_2x2 state_flat "Sv" [Sv_flat] 2 2);
      [repeat split | left; reflexivity | reflexivity | lia | lia].
  - reflexivity.
  - rewrite (MVBS_tile_value 2 2 4 0 0 0 [Sv_flat] Sv_flat);
      [| lia | lia | reflexivity | repeat constructor | simpl; lia | lia].
    f_equal. apply MVBS_against_mean_dB.
    + discriminate.
    + intros x y Hx Hy.
      change (block Sv_flat 2 2 0 0) with [0; 0; 0; 0]%R in Hx, Hy.
      repeat (apply elem_of_cons in Hx as [-> | Hx]);
        repeat (apply elem_of_cons in Hy as [-> | Hy]);
        try reflexivity;
        solve [by apply elem_of_nil in Hx | by apply elem_of_nil in Hy].
Qed.

(** * Further properties *)

(** ** Calibration: effects and composition *)

Section Calibration_runs.
Variable calc_range : EchoData -> params -> params -> xarr.
Variable validate_proc_path : EchoData -> string -> option string -> string.
Variable now : string.
Variable _save_dataset : dataset -> string -> string -> outcome unit.
Variable nonfinite : R -> R.

(** X1. One range grid per session: when a session without a range is
    calibrated for [Sv] and then for [Sp], the range is computed once, by
    the first call and from its parameters; the second call reuses it,
    whatever parameters it is given, and both products carry that array.
    The grid has the three dimensions and is covered by the operands of
    each call. *)
Theorem range_shared_by_Sv_and_Sp (env1 cal1 env2 cal2 : params) (s : state)
    (fmt : string) (sos1 alpha1 tp1 gc1 eba1 tdn1 sac1 sos2 alpha2 tp2 gc2 : xarr) :
  range (ed_obj s) = None ->
  Sv_keys env1 cal1 sos1 alpha1 tp1 gc1 eba1 tdn1 sac1 ->
  Sp_keys env2 cal2 sos2 alpha2 tp2 gc2 ->
  let grid := calc_range (ed_obj s) env1 cal1 in
  range_attaches grid (Sv_operands (ed_obj s) sos1 alpha1 tp1 gc1 eba1 tdn1 sac1) ->
  range_attaches grid (Sp_operands (ed_obj s) sos2 alpha2 tp2 gc2) ->
  let s1 := fst (_cal_narrowband calc_range validate_proc_path now _save_dataset nonfinite
                   env1 cal1 "Sv" false None fmt s) in
  let run2 := _cal_narrowband calc_range validate_proc_path now _save_dataset nonfinite
                env2 cal2 "Sp" false None fmt s1 in
  snd run2 = Return tt
  /\ range (ed_obj (fst run2)) = Some grid
  /\ (exists dsv dsp,
        Sv (ed_obj (fst run2)) = Some dsv /\ Sp (ed_obj (fst run2)) = Some dsp
        /\ dsv !! "range" = Some grid /\ dsp !! "range" = Some grid).
Proof.
  intros Hnone Hsv Hsp grid Hattach1 Hattach2 s1 run2. subst s1 run2.
  assert (Hgrid : range_used calc_range (ed_obj s) env1 cal1 = grid)
    by (unfold range_used; rewrite Hnone; reflexivity).
  rewrite (Sv_run_completes calc_range validate_proc_path now _save_dataset nonfinite
             env1 cal1 s false None fmt _ _ _ _ _ _ _ Hsv);
    [| rewrite Hgrid; exact Hattach1 | discriminate].
  cbn [fst]. rewrite Hgrid.
  rewrite (Sp_run_completes calc_range validate_proc_path now _save_dataset nonfinite
             env2 cal2 _ false None fmt _ _ _ _ Hsp);
    [| | discriminate].
  - cbn [fst snd]. unfold range_used, cache_range. cbn [ed_obj]. rewrite Hnone.
    cbn [set_Sv set_range range Sv Sp set_Sp ed_obj].
    split; [reflexivity|]. split; [reflexivity|].
    eexists. eexists. split; [reflexivity|]. split; [reflexivity|].
    split; apply lookup_insert_eq.
  - unfold range_used, cache_range. cbn [ed_obj]. rewrite Hnone.
    cbn [set_Sv set_range range ed_obj]. exact Hattach2.
Qed.

(** X2. A [cal_type] other than ['Sv'] and ['Sp'] is not an error: with
    the two environment keys present the call returns [None] without a
    product, a print or a save; the only trace it leaves is the cached
    range. *)
Theorem other_cal_type_is_silent (env_params cal_params : params) (s : state)
    (cal_type : string) (save : bool) (save_path : option string) (fmt : string) :
  cal_type <> "Sv" -> cal_type <> "Sp" ->
  is_Some (env_params !! "speed_of_sound_in_water") ->
  is_Some (env_params !! "seawater_absorption") ->
  _cal_narrowband calc_range validate_proc_path now _save_dataset nonfinite
    env_params cal_params cal_type save save_path fmt s
  = (mkState (cache_range (range_used calc_range (ed_obj s) env_params cal_params) (ed_obj s))
             (stdout s) (persisted s),
     Return tt).
Proof.
  intros Hsv Hsp [sos Hsos] [alpha Halpha].
  apply String.eqb_neq in Hsv, Hsp.
  unfold _cal_narrowband, bind, lift, get_ed, ret, modify_ed, none.
  rewrite (getitem_Some _ _ _ Hsos), (getitem_Some _ _ _ Halpha), Hsv, Hsp.
  unfold range_used, cache_range. destruct s as [ed out saved]. cbn [ed_obj stdout persisted].
  destruct (range ed); reflexivity.
Qed.

(** X3. A calibration call that raises has stored nothing: the products,
    their paths, the raw data and the persisted datasets are as before
    the call.  The exception is the [KeyError] of a key missing from the
    parameters or the [ValueError] of a range that cannot be attached
    to the product, both with nothing printed, or it is the exception of
    the persist collaborator, raised after the one line of a saving call
    was printed. *)
Theorem failed_calibration_stores_nothing (env_params cal_params : params) (s : state)
    (cal_type : string) (save : bool) (save_path : option string) (fmt : string) (e : exn) :
  snd (_cal_narrowband calc_range validate_proc_path now _save_dataset nonfinite
         env_params cal_params cal_type save save_path fmt s) = Raise e ->
  let s' := fst (_cal_narrowband calc_range validate_proc_path now _save_dataset nonfinite
                   env_params cal_params cal_type save save_path fmt s) in
  Sv (ed_obj s') = Sv (ed_obj s) /\ Sp (ed_obj s') = Sp (ed_obj s)
  /\ Sv_path (ed_obj s') = Sv_path (ed_obj s) /\ Sp_path (ed_obj s') = Sp_path (ed_obj s)
  /\ raw (ed_obj s') = raw (ed_obj s)
  /\ persisted s' = persisted s
  /\ (((exists key, e = KeyError key /\ (env_params !! key = None \/ cal_params !! key = None))
       /\ stdout s' = stdout s)
      \/ ((exists msg, e = ValueError msg) /\ stdout s' = stdout s)
      \/ (save = true
          /\ (exists ds path, _save_dataset ds path fmt = Raise e)
          /\ exists line, stdout s' = stdout s ++ [line])).
Proof.
  destruct s as [ed out saved].
  unfold _cal_narrowband, bind, lift, get_ed, ret, modify_ed, print, save_dataset, none, getitem.
  cbn [ed_obj stdout persisted].
  repeat (case_match; simplify_eq/=; try discriminate);
    intros [= <-]; (repeat (split; [reflexivity|]));
    first
      [ left; split; [eexists; split; [reflexivity | auto] | reflexivity]
      | right; left; split; [|reflexivity];
        match goal with
        | H : attach_range _ _ _ = Raise _ |- _ =>
            exact (proj2 (attach_range_raises _ _ _ _ H))
        end
      | right; right; split; [reflexivity|]; split;
        [eexists; eexists; eassumption | eexists; reflexivity] ].
Qed.

End Calibration_runs.

Local Open Scope R_scope.


Local Close Scope R_scope.

Section Calibration_products.
Variable calc_range : EchoData -> params -> params -> xarr.
Variable validate_proc_path : EchoData -> string -> option string -> string.
Variable now : string.
Variable _save_dataset : dataset -> string -> string -> outcome unit.
Variable nonfinite : R -> R.


End Calibration_products.

Lemma range_shared_by_Sv_and_Sp_witness :
  let s1 := fst (_cal_narrowband range_50 (fun _ _ _ => "out.zarr") "12:00:00" writes minus_huge
                   scenario_env scenario_cal "Sv" false None "zarr" fresh_state) in
  let run2 := _cal_narrowband range_50 (fun _ _ _ => "out.zarr") "12:00:00" writes minus_huge
                scenario_env scenario_cal "Sp" false None "zarr" s1 in
  snd run2 = Return tt /\ range (ed_obj (fst run2)) = Some (cube [[[50%R]]]).
Proof.
  pose proof (range_shared_by_Sv_and_Sp range_50 (fun _ _ _ => "out.zarr") "12:00:00"
                writes minus_huge
                scenario_env scenario_cal scenario_env scenario_cal fresh_state "zarr"
                (scalar 1500) (per_channel [(1 / 100)%R]) (per_channel [1000%R])
                (per_channel [20%R]) (per_channel [(-20)%R]) (per_channel [(1 / 1000)%R])
                (per_channel [0%R])
                (scalar 1500) (per_channel [(1 / 100)%R]) (per_channel [1000%R])
                (per_channel [20%R])
                eq_refl ltac:(repeat split) ltac:(repeat split)
                ltac:(split; [reflexivity | repeat constructor])
                ltac:(split; [reflexivity | repeat constructor])) as (H1 & H2 & _).
  split; [exact H1 | exact H2].
Defined.

Lemma other_cal_type_is_silent_witness :
  _cal_narrowband range_50 (fun _ _ _ => "out.zarr") "12:00:00" writes minus_huge
    scenario_env ∅ "TS" true None "zarr" fresh_state
  = (mkState (set_range (cube [[[50%R]]]) fresh_ed) [] [], Return tt).
Proof.
  apply (other_cal_type_is_silent range_50 (fun _ _ _ => "out.zarr") "12:00:00" writes
           minus_huge scenario_env ∅ fresh_state "TS" true None "zarr");
    first [discriminate | eexists; reflexivity].
Defined.

(** A full disk: the line is printed, the exception of the collaborator
    ends the call, and no path is recorded. *)
Lemma failed_calibration_stores_nothing_witness :
  let s' := fst (_cal_narrowband range_50 (fun _ _ _ => "out.zarr") "12:00:00" disk_full
                   minus_huge scenario_env scenario_cal "Sv" true None "zarr" fresh_state) in
  Sv (ed_obj s') = None /\ Sv_path (ed_obj s') = None /\ persisted s' = [].
Proof.
  pose proof (failed_calibration_stores_nothing range_50 (fun _ _ _ => "out.zarr") "12:00:00"
                disk_full minus_huge scenario_env scenario_cal fresh_state "Sv" true None "zarr"
                (OSError "No space left on device")
                eq_refl) as (H1 & _ & H2 & _ & _ & H3 & _).
  repeat split; assumption.
Defined.


(** ** Sample thickness *)

(** X5. The sample thickness is [speed_of_sound * sample_interval / 2] at
    every index at which both are defined, so it is positive when they
    are; without a sound speed the call raises the [KeyError] of that
    key, whether or not a sample interval is given. *)
Theorem sample_thickness_formula (env_params cal_params : params) :
  (forall sos si, env_params !! "speed_of_sound_in_water" = Some sos ->
     cal_params !! "sample_interval" = Some si ->
     exists t, calc_sample_thickness env_params cal_params = Return t
       /\ forall c p r cs dt, xat sos c p r = Some cs -> xat si c p r = Some dt ->
            xat t c p r = Some (cs * dt / 2)%R
            /\ ((0 < cs)%R -> (0 < dt)%R -> (0 < cs * dt / 2)%R))
  /\ (env_params !! "speed_of_sound_in_water" = None ->
        calc_sample_thickness env_params cal_params
        = Raise (KeyError "speed_of_sound_in_water"))
  /\ (is_Some (env_params !! "speed_of_sound_in_water") ->
        cal_params !! "sample_interval" = None ->
        calc_sample_thickness env_params cal_params = Raise (KeyError "sample_interval")).
Proof.
  unfold calc_sample_thickness. split; [|split].
  - intros sos si Hsos Hsi. rewrite (getitem_Some _ _ _ Hsos), (getitem_Some _ _ _ Hsi).
    cbn [obind]. eexists. split; [reflexivity|].
    intros c p r cs dt Hcs Hdt. split.
    + eapply xat_xzip; [eapply xat_xzip; eassumption | apply xat_scalar].
    + intros H1 H2. apply Rdiv_lt_0_compat; [apply Rmult_lt_0_compat; assumption | lra].
  - intros Hnone. unfold getitem. rewrite Hnone. reflexivity.
  - intros [sos Hsos] Hnone. unfold getitem. rewrite Hsos, Hnone. reflexivity.
Qed.

Lemma sample_thickness_formula_witness :
  exists t, calc_sample_thickness thickness_env thickness_cal = Return t
    /\ xat t 1 0 0 = Some (1500 * (1 / 8000) / 2)%R.
Proof.
  destruct (proj1 (sample_thickness_formula thickness_env thickness_cal)
              (scalar 1500) (per_channel [(1 / 4000)%R; (1 / 8000)%R]) eq_refl eq_refl)
    as (t & Hrun & Hat).
  exists t. split; [exact Hrun|].
  apply (Hat 1 0 0 1500%R (1 / 8000)%R); reflexivity.
Defined.

(** ** Environment parameters *)

Lemma astype_int64_floor (x : R) :
  (0 <= x < IZR (2 ^ 63))%R ->
  exists k : Z, astype_int64 x = IZR k /\ (IZR k <= x < IZR k + 1)%R.
Proof.
  intros [Hx Hlt]. unfold astype_int64. destruct (Rle_dec 0 x) as [_|Hn]; [|contradiction].
  destruct (base_Int_part x) as [H1 H2].
  assert (Hlo : (- 2 ^ 63 <= Int_part x)%Z).
  { apply le_IZR. replace (IZR (- 2 ^ 63)) with (- IZR (2 ^ 63))%R by (rewrite opp_IZR; reflexivity).
    assert (0 < IZR (2 ^ 63))%R by (apply IZR_lt; lia). lra. }
  assert (Hhi : (Int_part x < 2 ^ 63)%Z) by (apply lt_IZR; lra).
  apply Z.leb_le in Hlo. apply Z.ltb_lt in Hhi. rewrite Hlo, Hhi. cbn [andb].
  exists (Int_part x). split; [reflexivity | lra].
Qed.

Lemma astype_int64_overflow (x : R) :
  (IZR (2 ^ 63) <= x)%R -> astype_int64 x = IZR (- 2 ^ 63).
Proof.
  intros Hx. unfold astype_int64.
  assert (0 < IZR (2 ^ 63))%R by (apply IZR_lt; lia).
  destruct (Rle_dec 0 x) as [_|Hn]; [|lra].
  destruct (base_Int_part x) as [H1 H2].
  assert (Hhi : (2 ^ 63 <= Int_part x)%Z).
  { apply Z.lt_succ_r. apply lt_IZR. rewrite succ_IZR. lra. }
  apply Z.ltb_ge in Hhi. rewrite Hhi, andb_false_r. reflexivity.
Qed.

Section Environment_more.
Variable uwa_calc_sound_speed : xarr -> xarr -> xarr -> string -> xarr.
Variable uwa_calc_seawater_absorption : xarr -> xarr -> xarr -> xarr -> string -> xarr.

(** X6. Besides ['user'], only ['file'] can make the sound-speed
    operation raise, and only with the exception of a raw file that
    cannot be read.  For ['file'] it returns what the Environment group
    stores, [None] when that holds no sound speed; for every other
    source it returns [None]; in all these cases [env_params] is not
    looked at. *)
Theorem sound_speed_other_sources (ed : EchoData) (env_params : option params)
    (src formula_source : string) :
  src <> "user" ->
  (src <> "file" ->
     calc_sound_speed uwa_calc_sound_speed ed env_params src formula_source = Return None)
  /\ (forall ds_env, raw_environment ed = Return ds_env ->
        calc_sound_speed uwa_calc_sound_speed ed env_params "file" formula_source
        = Return (ds_env !! "sound_speed_indicative"))
  /\ (forall e, raw_environment ed = Raise e ->
        calc_sound_speed uwa_calc_sound_speed ed env_params "file" formula_source = Raise e).
Proof.
  intros Hsrc. apply String.eqb_neq in Hsrc. unfold calc_sound_speed. split; [|split].
  - intros Hfile. apply String.eqb_neq in Hfile. rewrite Hfile, Hsrc. reflexivity.
  - intros ds_env Hopen. cbn. rewrite Hopen. cbn.
    destruct (ds_env !! "sound_speed_indicative"); reflexivity.
  - intros e Hopen. cbn. rewrite Hopen. reflexivity.
Qed.

(** X7. With the three water properties given, the absorption operation
    calls the kernel with the frequencies cut to 64-bit integers: a
    channel at a frequency [f] with [0 <= f < 2^63] is passed as the
    integer [k] with [k <= f < k + 1], so a whole number of hertz is
    passed unchanged; a frequency of [2^63] or more is passed as
    [-2^63]. *)
Theorem absorption_uses_whole_hertz (ed : EchoData) (env_params : params)
    (formula_source : string) (temperature salinity pressure : xarr) :
  env_params !! "water_temperature" = Some temperature ->
  env_params !! "water_salinity" = Some salinity ->
  env_params !! "water_pressure" = Some pressure ->
  exists freq,
    calc_seawater_absorption uwa_calc_seawater_absorption ed env_params "user" formula_source
    = Return (uwa_calc_seawater_absorption freq temperature salinity pressure formula_source)
    /\ (forall c p r f, xat (frequency (raw ed)) c p r = Some f ->
          (0 <= f < IZR (2 ^ 63))%R ->
          exists k : Z, xat freq c p r = Some (IZR k) /\ (IZR k <= f < IZR k + 1)%R)
    /\ (forall c p r f, xat (frequency (raw ed)) c p r = Some f ->
          (IZR (2 ^ 63) <= f)%R ->
          xat freq c p r = Some (IZR (- 2 ^ 63))).
Proof.
  intros Ht Hs Hp. unfold calc_seawater_absorption.
  rewrite (getitem_Some _ _ _ Ht), (getitem_Some _ _ _ Hs), (getitem_Some _ _ _ Hp).
  change (String.eqb "user" "user") with true. cbn [negb obind].
  eexists. split; [reflexivity|]. split.
  - intros c p r f Hf Hpos. destruct (astype_int64_floor f Hpos) as (k & Hk & Hbounds).
    exists k. split; [|exact Hbounds].
    rewrite <- Hk. apply xat_xmap, Hf.
  - intros c p r f Hf Hbig. rewrite <- (astype_int64_overflow f Hbig).
    apply xat_xmap, Hf.
Qed.

End Environment_more.

Lemma sound_speed_other_sources_witness :
  calc_sound_speed (fun _ _ _ _ => scalar 0) fresh_ed (Some sample_env) "file" "Mackenzie"
  = Return None.
Proof.
  apply (proj1 (proj2 (sound_speed_other_sources (fun _ _ _ _ => scalar 0) fresh_ed
                         (Some sample_env) "file" "Mackenzie" ltac:(discriminate)))
           ∅ eq_refl).
Defined.

Lemma absorption_uses_whole_hertz_witness :
  exists freq,
    calc_seawater_absorption (fun f _ _ _ _ => f) ed_two_frequencies sample_env "user" "FG"
    = Return freq
    /\ exists k : Z, xat freq 0 0 0 = Some (IZR k) /\ (IZR k <= 379999 / 10 < IZR k + 1)%R.
Proof.
  destruct (absorption_uses_whole_hertz (fun f _ _ _ _ => f) ed_two_frequencies sample_env "FG"
              (scalar 8) (scalar (275 / 10)) (scalar 59) eq_refl eq_refl eq_refl)
    as (freq & Hrun & Hat & _).
  exists freq. split; [exact Hrun|].
  apply (Hat 0 0 0 (379999 / 10)%R); [reflexivity|].
  split; [lra|]. apply Rlt_trans with (IZR 38000); [lra | apply IZR_lt; lia].
Defined.

(** ** Tile parameters and the checks of [get_MVBS] *)

Lemma tile_params_sizes_aux (proc_params : gmap string pyval) (s : state) (a b : pyval) :
  snd (_get_tile_params proc_params s) = Return (Some (a, b)) ->
  fst (_get_tile_params proc_params s) = s.
Proof.
  unfold _get_tile_params, bind, lift, print, ret, throw, getitem.
  repeat (case_match; simplify_eq/=; try discriminate); reflexivity.
Qed.

(** X8. [_get_tile_params] returns a pair of sizes exactly when none of
    the three intervals is set and both the ping number and the range-bin
    number are; the pair is those two values, and nothing is printed or
    changed. *)
Theorem tile_params_sizes (proc_params : gmap string pyval) (s : state) (a b : pyval) :
  snd (_get_tile_params proc_params s) = Return (Some (a, b))
  <-> (proc_params !! "MVBS_time_interval" = Some PNone
       /\ proc_params !! "MVBS_ping_num" = Some a /\ a <> PNone
       /\ proc_params !! "MVBS_distance_interval" = Some PNone
       /\ proc_params !! "MVBS_range_interval" = Some PNone
       /\ proc_params !! "MVBS_range_bin_num" = Some b /\ b <> PNone
       /\ fst (_get_tile_params proc_params s) = s).
Proof.
  unfold _get_tile_params, bind, lift, print, ret, throw, getitem. split.
  - repeat (case_match; simplify_eq/=; try discriminate); intros [= <- <-];
      repeat match goal with
             | v : pyval |- _ => destruct v; simpl in *; try discriminate
             end;
      repeat split; congruence.
  - intros (Ht & Ha & Ha' & Hd & Hr & Hb & Hb' & _).
    rewrite Ht, Ha, Hd, Hr, Hb. cbn.
    rewrite (is_None_false _ Ha'), (is_None_false _ Hb'). reflexivity.
Qed.

(** X9. A missing tile size is a [ValueError], but only once the interval
    of the same axis is known to be unset: with no time interval and no
    ping number the call raises "No ping tile size provided", and with
    the ping axis settled, no distance or range interval and no range-bin
    number it raises "No range_bin tile size provided"; nothing is
    printed in either case. *)
Theorem tile_params_missing_size (proc_params : gmap string pyval) (s : state) :
  (proc_params !! "MVBS_time_interval" = Some PNone ->
   proc_params !! "MVBS_ping_num" = Some PNone ->
   _get_tile_params proc_params s = (s, Raise (ValueError "No ping tile size provided")))
  /\ (forall n,
        proc_params !! "MVBS_time_interval" = Some PNone ->
        proc_params !! "MVBS_ping_num" = Some n -> n <> PNone ->
        proc_params !! "MVBS_distance_interval" = Some PNone ->
        proc_params !! "MVBS_range_interval" = Some PNone ->
        proc_params !! "MVBS_range_bin_num" = Some PNone ->
        _get_tile_params proc_params s
        = (s, Raise (ValueError "No range_bin tile size provided"))).
Proof.
  unfold _get_tile_params, bind, lift, print, ret, throw. split.
  - intros Ht Hn. rewrite (getitem_Some _ _ _ Ht), (getitem_Some _ _ _ Hn). reflexivity.
  - intros n Ht Hn Hn' Hd Hr Hb.
    rewrite (getitem_Some _ _ _ Ht), (getitem_Some _ _ _ Hn), (getitem_Some _ _ _ Hd),
      (getitem_Some _ _ _ Hr), (getitem_Some _ _ _ Hb), (is_None_false _ Hn').
    reflexivity.
Qed.

Lemma tile_params_sizes_witness :
  snd (_get_tile_params request_2x2 fresh_state) = Return (Some (PInt 2, PInt 2)).
Proof.
  apply (proj2 (tile_params_sizes request_2x2 fresh_state (PInt 2) (PInt 2))).
  repeat split; discriminate.
Defined.

Lemma tile_params_missing_size_witness :
  _get_tile_params no_sizes_request fresh_state
  = (fresh_state, Raise (ValueError "No ping tile size provided")).
Proof.
  apply (proj1 (tile_params_missing_size no_sizes_request fresh_state)); reflexivity.
Defined.

(** X10. [get_MVBS] never changes the object or persists anything.  When
    it returns an array the whole state is as before; the one thing it
    can print is the diagnostic of an interval tiling, and then it raises
    the [TypeError] of unpacking [None]. *)
Theorem get_MVBS_frame (proc_params : gmap string pyval) (s : state) :
  let s' := fst (get_MVBS proc_params s) in
  let o := snd (get_MVBS proc_params s) in
  ed_obj s' = ed_obj s
  /\ persisted s' = persisted s
  /\ (forall v, o = Return v -> s' = s)
  /\ (stdout s' = stdout s
      \/ (exists line, stdout s' = stdout s ++ [line])
         /\ o = Raise (TypeError "cannot unpack non-iterable NoneType object")).
Proof.
  destruct s as [ed out saved].
  unfold get_MVBS, _get_tile_params, bind, lift, get_ed, print, ret, throw, getitem.
  cbn [ed_obj stdout persisted].
  repeat (case_match; simplify_eq/=);
    (split; [reflexivity|]); (split; [reflexivity|]);
    (split; [intros v [= <-] || (intros v Hv; discriminate Hv); reflexivity|]);
    first [ left; reflexivity | right; split; [eexists; reflexivity | reflexivity] ].
Qed.

(** X11. The source is checked before anything else.  A source other
    than ['Sv'] and ['Sv_clean'] raises the [ValueError] naming the two,
    and a valid source whose product the object does not hold raises an
    [AttributeError]; in both cases nothing is printed, even when the
    request also asks for an interval tiling. *)
Theorem get_MVBS_checks_source_first (proc_params : gmap string pyval) (s : state) (v : pyval) :
  proc_params !! "MVBS_source" = Some v ->
  ((v <> PStr "Sv" -> v <> PStr "Sv_clean" ->
      get_MVBS proc_params s
      = (s, Raise (ValueError "MVBS_source must be either Sv or Sv_clean")))
   /\ (v = PStr "Sv" -> Sv (ed_obj s) = None ->
         get_MVBS proc_params s
         = (s, Raise (AttributeError "'NoneType' object has no attribute 'Sv'")))
   /\ (v = PStr "Sv_clean" -> Sv_clean (ed_obj s) = None ->
         get_MVBS proc_params s
         = (s, Raise (AttributeError "'NoneType' object has no attribute 'Sv_clean'")))).
Proof.
  intros Hsrc. unfold get_MVBS, bind, lift, get_ed, ret, throw.
  rewrite (getitem_Some _ _ _ Hsrc). split; [|split].
  - intros H1 H2.
    assert (Hno : str_eq v "Sv" || str_eq v "Sv_clean" = false).
    { destruct v as [|z|name|l]; try reflexivity. simpl.
      apply orb_false_intro; apply String.eqb_neq; congruence. }
    rewrite Hno. reflexivity.
  - intros -> Hnone. cbn. unfold get_source. cbn. rewrite Hnone. reflexivity.
  - intros -> Hnone. cbn. unfold get_source. cbn. rewrite Hnone. reflexivity.
Qed.

(** X12. The aggregation type is checked last: with a stored source and
    both tile sizes given, a type that is neither ['binned'] nor
    ['rolling'] raises the [ValueError] naming the two and leaves the
    state as it was. *)
Theorem get_MVBS_checks_type_last (proc_params : gmap string pyval) (s : state)
    (name : string) (data : xarr) (a b type : pyval) :
  proc_params !! "MVBS_source" = Some (PStr name) ->
  name = "Sv" \/ name = "Sv_clean" ->
  source_array (ed_obj s) name = Some data ->
  snd (_get_tile_params proc_params s) = Return (Some (a, b)) ->
  proc_params !! "MVBS_type" = Some type ->
  type <> PStr "binned" -> type <> PStr "rolling" ->
  get_MVBS proc_params s
  = (s, Raise (ValueError "MVBS_type must be either binned or rolling")).
Proof.
  intros Hsrc Hname Hdata Htile Htype Hb Hr.
  assert (Hs : fst (_get_tile_params proc_params s) = s).
  { apply (tile_params_sizes_aux proc_params s a b Htile). }
  unfold get_MVBS, bind, lift, get_ed, ret, throw.
  rewrite (getitem_Some _ _ _ Hsrc).
  assert (Hok : str_eq (PStr name) "Sv" || str_eq (PStr name) "Sv_clean" = true).
  { destruct Hname as [-> | ->]; reflexivity. }
  rewrite Hok.
  assert (Hget : get_source (ed_obj s) name = Return data).
  { unfold get_source. unfold source_array in Hdata.
    destruct (if String.eqb name "Sv" then Sv (ed_obj s) else Sv_clean (ed_obj s)) as [ds|];
      [|discriminate Hdata].
    cbn in Hdata. rewrite Hdata. reflexivity. }
  rewrite Hget.
  destruct (_get_tile_params proc_params s) as [s1 o]. cbn in Htile, Hs. subst s1 o.
  rewrite (getitem_Some _ _ _ Htype).
  assert (H1 : str_eq type "binned" = false).
  { destruct type as [|z|t|l]; try reflexivity. simpl. apply String.eqb_neq. congruence. }
  assert (H2 : str_eq type "rolling" = false).
  { destruct type as [|z|t|l]; try reflexivity. simpl. apply String.eqb_neq. congruence. }
  rewrite H1, H2. reflexivity.
Qed.

Lemma get_MVBS_checks_source_first_witness :
  get_MVBS misspelt_source_request fresh_state
  = (fresh_state, Raise (ValueError "MVBS_source must be either Sv or Sv_clean")).
Proof.
  apply (proj1 (get_MVBS_checks_source_first misspelt_source_request fresh_state (PStr "sv")
                  eq_refl)); discriminate.
Defined.

Lemma get_MVBS_checks_type_last_witness :
  get_MVBS misspelt_type_request state_4x4
  = (state_4x4, Raise (ValueError "MVBS_type must be either binned or rolling")).
Proof.
  apply (get_MVBS_checks_type_last misspelt_type_request state_4x4 "Sv" (cube [Sv_4x4])
           (PInt 2) (PInt 2) (PStr "bined"));
    first [reflexivity | discriminate | (left; reflexivity)].
Defined.

(** ** The grid of tiles *)

Lemma pad_length_lookup {A} (w i : nat) (filler : A) (l : list A) :
  0 < w -> i * w < length (pad w filler l) -> i * w < length l.
Proof.
  intros Hw. unfold pad.
  destruct (Nat.eqb (length l mod w) 0) eqn:Hmod; [auto|].
  apply Nat.eqb_neq in Hmod. rewrite length_app, length_replicate.
  pose proof (Nat.div_mod_eq (length l) w) as Hdiv.
  pose proof (Nat.mod_upper_bound (length l) w ltac:(lia)) as Hub.
  intros Hi.
  assert (Hlt : i < S (length l / w)) by nia.
  nia.
Qed.

(** Past the data there is no tile. *)
Lemma coarsen_plane_bounds (p r nr i j : nat) (plane : list (list R)) (tiles : list R) :
  0 < p -> 0 < r ->
  Forall (fun ping => length ping = nr) plane ->
  coarsen_plane p r plane !! i = Some tiles ->
  i * p < length plane /\ (is_Some (tiles !! j) -> j * r < nr).
Proof.
  intros Hp Hr Hrect. unfold coarsen_plane. cbv zeta.
  set (padrow := fun ping : list R => pad r None (map Some ping)).
  set (width := length (default [] (head (map padrow plane)))).
  rewrite list_lookup_fmap, windows_lookup by exact Hp.
  destruct (decide _) as [Hi|Hi]; [|discriminate].
  apply pad_length_lookup in Hi; [|exact Hp]. rewrite length_map in Hi.
  cbn [fmap option_fmap option_map]. intros [= <-]. split; [exact Hi|].
  destruct (pad_window p (i * p) (replicate width None) (map padrow plane)) as [m ->].
  rewrite <- fmap_drop, <- fmap_take.
  destruct (take p (drop (i * p) plane)) as [|ping0 rest] eqn:Hband.
  { apply (f_equal length) in Hband. rewrite length_take, length_drop in Hband.
    simpl in Hband. lia. }
  assert (Hping0 : length ping0 = nr).
  { rewrite Forall_forall in Hrect. apply Hrect.
    assert (H0 : (ping0 :: rest) !! 0 = Some ping0) by reflexivity.
    rewrite <- Hband in H0. apply lookup_take_Some in H0 as [H0 _].
    rewrite lookup_drop in H0. eapply list_elem_of_lookup_2, H0. }
  intros Hsome. apply lookup_lt_is_Some_1 in Hsome.
  rewrite length_map in Hsome. unfold band_tiles in Hsome.
  change (padrow <$> ping0 :: rest) with (padrow ping0 :: map padrow rest) in Hsome.
  cbn [app map] in Hsome. rewrite length_map, length_seq in Hsome.
  apply lookup_lt_is_Some_2 in Hsome. rewrite windows_lookup in Hsome by exact Hr.
  destruct (decide _) as [Hj|Hj]; [|destruct Hsome; discriminate].
  apply pad_length_lookup in Hj; [|exact Hr]. rewrite length_map in Hj. lia.
Qed.

Lemma xat_xmap_eq (f : R -> R) (a : xarr) (c p r : nat) :
  xat (xmap f a) c p r = f <$> xat a c p r.
Proof.
  unfold xat, xmap. rewrite axis_at_map.
  destruct (axis_at c a) as [plane|]; simpl; [|reflexivity].
  rewrite axis_at_map.
  destruct (axis_at p plane) as [row|]; simpl; [|reflexivity].
  apply axis_at_map.
Qed.

Lemma axis_at_zip_Bcast {A B C} (f : A -> B -> C) (x : A) (b : axis B) (i : nat) :
  axis_at i (axis_zip f (Bcast x) b) = f x <$> axis_at i b.
Proof. destruct b as [y|l]; simpl; [reflexivity | apply list_lookup_fmap]. Qed.

Lemma xat_scalar_zip (f : R -> R -> R) (k : R) (b : xarr) (c p r : nat) :
  xat (xzip f (scalar k) b) c p r = f k <$> xat b c p r.
Proof.
  unfold xat, xzip, scalar. rewrite axis_at_zip_Bcast.
  destruct (axis_at c b) as [plane|]; cbn [fmap option_fmap option_map]; [|reflexivity].
  rewrite axis_at_zip_Bcast.
  destruct (axis_at p plane) as [row|]; cbn [fmap option_fmap option_map]; [|reflexivity].
  apply axis_at_zip_Bcast.
Qed.

(** The tile [(i, j)] of channel [c] in the result. *)
Lemma xat_MVBS_of (p r c i j : nat) (a : list (list (list R))) (plane : list (list R)) :
  a !! c = Some plane ->
  xat (MVBS_of p r a) c i j
  = (fun m => 10 * log10 m)%R
      <$> (coarsen_plane p r (map (map (fun x => pow10 (x / 10))) plane) !! i
           ≫= fun tiles => tiles !! j).
Proof.
  intros Hc. unfold MVBS_of, np_log10.
  rewrite xat_scalar_zip, xat_xmap_eq.
  unfold xat. cbn [axis_at]. rewrite list_lookup_fmap, Hc.
  cbn [fmap option_fmap option_map]. unfold plane_of. cbn [axis_at].
  rewrite list_lookup_fmap.
  destruct (coarsen_plane p r _ !! i) as [tiles|]; [|reflexivity].
  cbn. destruct (tiles !! j); reflexivity.
Qed.

(** X13. The result of binned aggregation has a tile [(i, j)] for a
    channel exactly when ping [i * pings_per_tile] and range bin
    [j * range_bins_per_tile] exist: the last tile along an axis is kept
    when the extent is not a multiple of the tile size, and when the
    extents are [kp] and [kr] tiles exactly there are [kp] by [kr] tiles
    and no more. *)
Theorem MVBS_tile_grid (proc_params : gmap string pyval) (s : state) (name : string)
    (a : list (list (list R))) (p r nr : nat) :
  binned_request proc_params name p r ->
  name = "Sv" \/ name = "Sv_clean" ->
  source_array (ed_obj s) name = Some (cube a) ->
  0 < p -> 0 < r ->
  Forall (Forall (fun ping => length ping = nr)) a ->
  exists mvbs,
    get_MVBS proc_params s = (s, Return mvbs)
    /\ forall (c i j : nat) (plane : list (list R)),
         a !! c = Some plane ->
         (is_Some (xat mvbs c i j) <-> i * p < length plane /\ j * r < nr)
         /\ (forall kp kr, length plane = kp * p -> nr = kr * r ->
               (is_Some (xat mvbs c i j) <-> i < kp /\ j < kr)).
Proof.
  intros Hreq Hname Harr Hp Hr Hrect.
  exists (MVBS_of p r a). split.
  - apply (get_MVBS_binned_run proc_params s name a p r); assumption.
  - intros c i j plane Hc.
    assert (Hplane : Forall (fun ping => length ping = nr) plane).
    { rewrite Forall_forall in Hrect. eapply Hrect, list_elem_of_lookup_2, Hc. }
    assert (Hgrid : is_Some (xat (MVBS_of p r a) c i j) <-> i * p < length plane /\ j * r < nr).
    { split.
      - rewrite (xat_MVBS_of p r c i j a plane Hc). intros [v Hv].
        destruct (coarsen_plane p r _ !! i) as [tiles|] eqn:Htiles; [|discriminate Hv].
        cbn in Hv.
        assert (Hlin : Forall (fun ping => length ping = nr)
                         (map (map (fun x => pow10 (x / 10))) plane)).
        { apply Forall_forall. intros ping Hping.
          apply (list_elem_of_fmap (map (fun x => pow10 (x / 10)))) in Hping
            as (ping' & -> & Hin).
          rewrite length_map. rewrite Forall_forall in Hplane. apply Hplane, Hin. }
        destruct (coarsen_plane_bounds p r nr i j _ tiles Hp Hr Hlin Htiles) as [Hi Hj].
        rewrite length_map in Hi. split; [exact Hi|]. apply Hj.
        destruct (tiles !! j); [eexists; reflexivity | discriminate Hv].
      - intros [Hi Hj]. rewrite (MVBS_tile_value p r nr c i j a plane); try assumption.
        eexists. reflexivity. }
    split; [exact Hgrid|].
    intros kp kr Hkp Hkr. rewrite Hgrid, Hkp, Hkr. split; intros [H1 H2]; split; nia.
Qed.

Lemma MVBS_tile_grid_3x3 :
  exists mvbs,
    get_MVBS request_2x2 state_3x3 = (state_3x3, Return mvbs)
    /\ is_Some (xat mvbs 0 1 1) /\ ~ is_Some (xat mvbs 0 2 0) /\ ~ is_Some (xat mvbs 0 0 2).
Proof.
  destruct (MVBS_tile_grid request_2x2 state_3x3 "Sv" [Sv_3x3] 2 2 3)
    as (mvbs & Hrun & Hgrid);
    [repeat split | left; reflexivity | reflexivity | lia | lia | repeat constructor |].
  exists mvbs. split; [exact Hrun|].
  pose proof (fun i j => proj1 (Hgrid 0 i j Sv_3x3 eq_refl)) as H.
  split; [|split].
  - apply H. simpl. lia.
  - intros Hs. apply H in Hs. simpl in Hs. lia.
  - intros Hs. apply H in Hs. simpl in Hs. lia.
Defined.

(** ** Values of the tiles *)

Local Open Scope R_scope.

Lemma log10_pow10 (y : R) : log10 (pow10 y) = y.
Proof.
  unfold log10, pow10. rewrite ln_Rpower. pose proof ln_10_pos. field. lra.
Qed.

Lemma spec_MVBS_singleton (x : R) : spec_MVBS [x] = x.
Proof.
  unfold spec_MVBS, mean. cbn [map Rsum foldr length]. 
  replace ((pow10 (x / 10) + 0) / INR 1) with (pow10 (x / 10)) by (simpl; field).
  rewrite log10_pow10. field.
Qed.

Lemma linear_mean_pos (tile : list R) :
  tile <> [] -> 0 < Rsum (map (fun x => exp (ln 10 / 10 * x)) tile) / INR (length tile).
Proof.
  intros Hne. pose proof (INR_length_pos tile Hne) as Hn.
  destruct (linear_sum_bound tile Hne) as [Hle _]. cbv zeta in Hle.
  pose proof (exp_pos (ln 10 / 10 * mean tile)) as Hexp.
  apply Rdiv_lt_0_compat; [|exact Hn]. nra.
Qed.

Lemma Rsum_scale (c : R) (f : R -> R) (l : list R) :
  Rsum (map (fun x => c * f x) l) = c * Rsum (map f l).
Proof.
  induction l as [|a l IH]; simpl; [lra|].
  fold (Rsum (map (fun x => c * f x) l)). fold (Rsum (map f l)). rewrite IH. lra.
Qed.

(** An offset in dB passes through the linear mean. *)
Lemma spec_MVBS_offset (d : R) (tile : list R) :
  tile <> [] -> spec_MVBS (map (fun x => x + d) tile) = spec_MVBS tile + d.
Proof.
  intros Hne. pose proof ln_10_pos as Hln.
  pose proof (INR_length_pos tile Hne) as Hn.
  pose proof (linear_mean_pos tile Hne) as Hpos.
  unfold spec_MVBS, log10. rewrite !mean_linear, length_map, map_map.
  set (k := ln 10 / 10) in *.
  replace (Rsum (map (fun x => exp (k * (x + d))) tile))
    with (exp (k * d) * Rsum (map (fun x => exp (k * x)) tile)).
  - replace (exp (k * d) * Rsum (map (fun x => exp (k * x)) tile) / INR (length tile))
      with (exp (k * d) * (Rsum (map (fun x => exp (k * x)) tile) / INR (length tile)))
      by (field; lra).
    rewrite ln_mult by (try apply exp_pos; exact Hpos).
    rewrite ln_exp. unfold k. field. lra.
  - rewrite <- Rsum_scale. f_equal. apply map_ext. intros x.
    rewrite <- exp_plus. f_equal. ring.
Qed.

(** The dB value of the linear mean stays within the dB values averaged. *)
Lemma spec_MVBS_bounds (lo hi : R) (tile : list R) :
  tile <> [] -> (forall x, x ∈ tile -> lo <= x <= hi) ->
  lo <= spec_MVBS tile <= hi.
Proof.
  intros Hne Hb. pose proof ln_10_pos as Hln.
  pose proof (INR_length_pos tile Hne) as Hn.
  pose proof (linear_mean_pos tile Hne) as Hpos.
  split.
  - apply Rle_trans with (mean tile); [|apply MVBS_against_mean_dB, Hne].
    unfold mean. apply Rmult_le_reg_r with (INR (length tile)); [exact Hn|].
    replace (Rsum tile / INR (length tile) * INR (length tile)) with (Rsum tile)
      by (field; lra).
    rewrite <- (Rsum_const (fun _ => lo) lo tile) by reflexivity.
    rewrite <- (map_id tile) at 2.
    apply (Rsum_le_pointwise (fun x => x) (fun _ => lo) tile).
    intros x Hx. apply Hb, Hx.
  - unfold spec_MVBS, log10. rewrite mean_linear.
    set (k := ln 10 / 10) in *.
    assert (Hup : Rsum (map (fun x => exp (k * x)) tile) / INR (length tile) <= exp (k * hi)).
    { apply Rmult_le_reg_r with (INR (length tile)); [exact Hn|].
      replace (Rsum (map (fun x => exp (k * x)) tile) / INR (length tile) * INR (length tile))
        with (Rsum (map (fun x => exp (k * x)) tile)) by (field; lra).
      rewrite <- (Rsum_const (fun _ => exp (k * hi)) (exp (k * hi)) tile) by reflexivity.
      apply (Rsum_le_pointwise (fun _ => exp (k * hi)) (fun x => exp (k * x)) tile).
      intros x Hx. destruct (Hb x Hx) as [_ [Hlt | ->]]; [|lra].
      left. apply exp_increasing. unfold k. nra. }
    apply ln_le_compat in Hup; [|exact Hpos]. rewrite ln_exp in Hup.
    replace hi with (10 * (k * hi / ln 10)) by (unfold k; field; lra).
    apply Rmult_le_compat_l; [lra|].
    apply Rmult_le_compat_r; [left; apply Rinv_0_lt_compat, Hln | exact Hup].
Qed.

Local Close Scope R_scope.

Lemma take_one_drop {A} (l : list A) (i : nat) (x : A) :
  l !! i = Some x -> take 1 (drop i l) = [x].
Proof. intros H. rewrite (drop_S _ _ _ H). reflexivity. Qed.

Lemma block_unit (plane : list (list R)) (i j : nat) (ping : list R) (x : R) :
  plane !! i = Some ping -> ping !! j = Some x -> block plane 1 1 i j = [x].
Proof.
  intros Hi Hj. unfold block. rewrite !Nat.mul_1_r.
  rewrite (take_one_drop _ _ _ Hi). cbn [map concat].
  rewrite (take_one_drop _ _ _ Hj). reflexivity.
Qed.

(** X14. With tiles of one ping by one range bin, aggregation is the
    round trip dB to linear power and back: the result holds, at every
    sample, the calibrated value itself. *)
Theorem MVBS_unit_tiles (proc_params : gmap string pyval) (s : state) (name : string)
    (a : list (list (list R))) (nr : nat) :
  binned_request proc_params name 1 1 ->
  name = "Sv" \/ name = "Sv_clean" ->
  source_array (ed_obj s) name = Some (cube a) ->
  Forall (Forall (fun ping => length ping = nr)) a ->
  exists mvbs,
    get_MVBS proc_params s = (s, Return mvbs)
    /\ forall c i j x, xat (cube a) c i j = Some x -> xat mvbs c i j = Some x.
Proof.
  intros Hreq Hname Harr Hrect.
  exists (MVBS_of 1 1 a). split.
  - apply (get_MVBS_binned_run proc_params s name a 1 1); try assumption; lia.
  - intros c i j x Hx. unfold xat, cube in Hx. cbn [axis_at] in Hx.
    rewrite list_lookup_fmap in Hx.
    destruct (a !! c) as [plane|] eqn:Hc; [|discriminate Hx].
    cbn [fmap option_fmap option_map axis_at] in Hx. rewrite list_lookup_fmap in Hx.
    destruct (plane !! i) as [ping|] eqn:Hi; [|discriminate Hx].
    cbn [fmap option_fmap option_map axis_at] in Hx.
    assert (Hplane : Forall (fun ping => length ping = nr) plane).
    { rewrite Forall_forall in Hrect. eapply Hrect, list_elem_of_lookup_2, Hc. }
    assert (Hping : length ping = nr).
    { rewrite Forall_forall in Hplane. eapply Hplane, list_elem_of_lookup_2, Hi. }
    rewrite (MVBS_tile_value 1 1 nr c i j a plane); try assumption; try lia.
    + rewrite (block_unit plane i j ping x Hi Hx), spec_MVBS_singleton. reflexivity.
    + apply lookup_lt_Some in Hi. lia.
    + apply lookup_lt_Some in Hx. lia.
Qed.

(** X15. Every tile value lies between the smallest and the largest
    calibrated sample of its tile: whatever bounds [lo] and [hi] hold for
    the samples of a tile hold for its mean volume backscattering
    strength. *)
Theorem MVBS_within_samples (proc_params : gmap string pyval) (s : state) (name : string)
    (a : list (list (list R))) (p r nr : nat) :
  binned_request proc_params name p r ->
  name = "Sv" \/ name = "Sv_clean" ->
  source_array (ed_obj s) name = Some (cube a) ->
  0 < p -> 0 < r ->
  Forall (Forall (fun ping => length ping = nr)) a ->
  exists mvbs,
    get_MVBS proc_params s = (s, Return mvbs)
    /\ forall (c i j : nat) (plane : list (list R)) (lo hi : R),
         a !! c = Some plane -> i * p < length plane -> j * r < nr ->
         (forall x, x ∈ block plane p r i j -> (lo <= x <= hi)%R) ->
         exists v, xat mvbs c i j = Some v /\ (lo <= v <= hi)%R.
Proof.
  intros Hreq Hname Harr Hp Hr Hrect.
  exists (MVBS_of p r a). split.
  - apply (get_MVBS_binned_run proc_params s name a p r); assumption.
  - intros c i j plane lo hi Hc Hi Hj Hb.
    assert (Hplane : Forall (fun ping => length ping = nr) plane).
    { rewrite Forall_forall in Hrect. eapply Hrect, list_elem_of_lookup_2, Hc. }
    eexists. split.
    + apply (MVBS_tile_value p r nr c i j a plane); assumption.
    + apply spec_MVBS_bounds; [|exact Hb].
      apply (block_nonempty p r nr i j plane); assumption.
Qed.

(** X16. Aggregation commutes with an offset in dB: if every calibrated
    sample is raised by [d], every tile value is raised by [d]. *)
Theorem MVBS_offset (proc_params : gmap string pyval) (s1 s2 : state) (name : string)
    (a : list (list (list R))) (p r nr : nat) (d : R) :
  binned_request proc_params name p r ->
  name = "Sv" \/ name = "Sv_clean" ->
  source_array (ed_obj s1) name = Some (cube a) ->
  source_array (ed_obj s2) name = Some (cube (map (map (map (fun x => (x + d)%R))) a)) ->
  0 < p -> 0 < r ->
  Forall (Forall (fun ping => length ping = nr)) a ->
  exists mvbs1 mvbs2,
    get_MVBS proc_params s1 = (s1, Return mvbs1)
    /\ get_MVBS proc_params s2 = (s2, Return mvbs2)
    /\ forall (c i j : nat) (plane : list (list R)),
         a !! c = Some plane -> i * p < length plane -> j * r < nr ->
         exists v, xat mvbs1 c i j = Some v /\ xat mvbs2 c i j = Some (v + d)%R.
Proof.
  intros Hreq Hname H1 H2 Hp Hr Hrect.
  exists (MVBS_of p r a), (MVBS_of p r (map (map (map (fun x => (x + d)%R))) a)).
  split; [apply (get_MVBS_binned_run proc_params s1 name a p r); assumption|].
  split; [apply (get_MVBS_binned_run proc_params s2 name _ p r); assumption|].
  intros c i j plane Hc Hi Hj.
  assert (Hplane : Forall (fun ping => length ping = nr) plane).
  { rewrite Forall_forall in Hrect. eapply Hrect, list_elem_of_lookup_2, Hc. }
  eexists. split.
  - apply (MVBS_tile_value p r nr c i j a plane); assumption.
  - rewrite (MVBS_tile_value p r nr c i j _ (map (map (fun x => (x + d)%R)) plane));
      try assumption.
    + rewrite block_map.
      rewrite spec_MVBS_offset by (apply (block_nonempty p r nr i j plane); assumption).
      reflexivity.
    + rewrite list_lookup_fmap, Hc. reflexivity.
    + apply Forall_forall. intros ping Hping.
      apply (list_elem_of_fmap (map (fun x => (x + d)%R))) in Hping as (ping' & -> & Hin).
      rewrite length_map. rewrite Forall_forall in Hplane. apply Hplane, Hin.
    + rewrite length_map. exact Hi.
Qed.

Lemma MVBS_unit_tiles_witness :
  exists mvbs,
    get_MVBS request_1x1 state_3x3 = (state_3x3, Return mvbs)
    /\ xat mvbs 0 1 2 = Some (-51)%R.
Proof.
  destruct (MVBS_unit_tiles request_1x1 state_3x3 "Sv" [Sv_3x3] 3)
    as (mvbs & Hrun & Hat);
    [repeat split | left; reflexivity | reflexivity | repeat constructor |].
  exists mvbs. split; [exact Hrun|]. apply Hat. reflexivity.
Defined.

Lemma MVBS_within_samples_witness :
  exists mvbs,
    get_MVBS request_2x2 state_4x4 = (state_4x4, Return mvbs)
    /\ exists v, xat mvbs 0 0 0 = Some v /\ (-71 <= v <= -60)%R.
Proof.
  destruct (MVBS_within_samples request_2x2 state_4x4 "Sv" [Sv_4x4] 2 2 4)
    as (mvbs & Hrun & Hat);
    [repeat split | left; reflexivity | reflexivity | lia | lia | repeat constructor |].
  exists mvbs. split; [exact Hrun|].
  apply (Hat 0 0 0 Sv_4x4 (-71)%R (-60)%R eq_refl); [simpl; lia | lia |].
  intros x Hx. change (block Sv_4x4 2 2 0 0) with [-70; -60; -71; -61]%R in Hx.
  repeat (apply elem_of_cons in Hx as [-> | Hx]); try lra.
  by apply elem_of_nil in Hx.
Defined.

Lemma MVBS_offset_witness :
  exists mvbs1 mvbs2,
    get_MVBS request_2x2 state_4x4 = (state_4x4, Return mvbs1)
    /\ get_MVBS request_2x2 state_4x4_plus_3 = (state_4x4_plus_3, Return mvbs2)
    /\ exists v, xat mvbs1 0 1 1 = Some v /\ xat mvbs2 0 1 1 = Some (v + 3)%R.
Proof.
  destruct (MVBS_offset request_2x2 state_4x4 state_4x4_plus_3 "Sv" [Sv_4x4] 2 2 4 3%R)
    as (m1 & m2 & H1 & H2 & Hat);
    [repeat split | left; reflexivity | reflexivity | reflexivity | lia | lia
    | repeat constructor |].
  exists m1, m2. split; [exact H1|]. split; [exact H2|].
  apply (Hat 0 1 1 Sv_4x4 eq_refl); simpl; lia.
Defined.

(** ** The resolver, read backwards *)

(** X17. On a dataset of two channels or more, each transmitting one
    pulse length, the resolver returns only when every channel has
    exactly one table entry within tolerance: the result then has the
    vendor's frequency coordinate, one value per channel, and each value
    is the sa_correction at the position of that single match. *)
Theorem resolver_returns_single_matches (ds_vend : Vendor) (table : list (list Q))
    (pl : list Q) (P : nat) (result : DataArray1) :
  vend_sa_correction ds_vend = Some table ->
  2 <= length pl ->
  length (vend_frequency ds_vend) = length pl ->
  length (vend_pulse_length ds_vend) = length pl ->
  length table = length pl ->
  calc_sa_correction ds_vend (map (replicate (S P)) pl) = Return result ->
  da_frequency result = vend_frequency ds_vend
  /\ length (da_values result) = length pl
  /\ forall c x prow srow v,
       pl !! c = Some x -> vend_pulse_length ds_vend !! c = Some prow ->
       table !! c = Some srow -> da_values result !! c = Some v ->
       exists j, matches x prow = [j] /\ srow !! j = Some v.
Proof.
  intros Htable Hn Hfreq Hpt Htab Hret.
  destruct (calc_return_inv _ _ _ Hret) as (values & Hsel & -> & Hlen).
  cbn [da_frequency da_values].
  split; [reflexivity|]. split; [lia|].
  exact (select_return_inv ds_vend table pl P values Htable Hn Hfreq Hsel).
Qed.

Lemma resolver_returns_single_matches_witness :
  exists j, matches 512 [256; 512; 1024]%Q = [j] /\ [1; 2; 3]%Q !! j = Some 2%Q.
Proof.
  destruct (resolver_returns_single_matches two_channel_vendor [[1; 2; 3]; [4; 5; 6]]%Q
              [512; 64]%Q 1 (mkDataArray1 [2; 4]%Q [38000; 120000]%Q)
              eq_refl ltac:(simpl; lia) eq_refl eq_refl eq_refl eq_refl)
    as (_ & _ & Hat).
  apply (Hat 0 512%Q [256; 512; 1024]%Q [1; 2; 3]%Q 2%Q); reflexivity.
Defined.

(** X18. The resolver looks at the pulse lengths, not at the pings: for
    two channels or more, each with one pulse length, its outcome is the
    same however many pings the dataset holds. *)
Theorem resolver_ignores_ping_count (ds_vend : Vendor) (pl : list Q) (P P' : nat) :
  2 <= length pl ->
  calc_sa_correction ds_vend (map (replicate (S P)) pl)
  = calc_sa_correction ds_vend (map (replicate (S P')) pl).
Proof.
  intros Hn. unfold calc_sa_correction, select_sa_correction.
  rewrite (unique_pulse_length_constant P pl Hn), (unique_pulse_length_constant P' pl Hn).
  reflexivity.
Qed.

Lemma resolver_ignores_ping_count_witness :
  calc_sa_correction two_channel_vendor [[512]; [64]]%Q
  = calc_sa_correction two_channel_vendor [[512; 512; 512]; [64; 64; 64]]%Q.
Proof.
  apply (resolver_ignores_ping_count two_channel_vendor [512; 64]%Q 0 2). simpl. lia.
Defined.

(** X19. With a single channel the resolver cannot succeed: the distinct
    pulse length is squeezed to a 0-d array, and indexing it for the
    first row of the table raises an [IndexError], whatever the table
    holds. *)
Theorem resolver_single_channel_fails (freq x : Q) (P : nat)
    (table : list (list Q)) (prow : list Q) (ptable : list (list Q)) :
  calc_sa_correction (mkVendor [freq] (Some table) (prow :: ptable)) [replicate (S P) x]
  = Raise (IndexError "too many indices for array").
Proof.
  unfold calc_sa_correction, select_sa_correction. cbn [vend_sa_correction vend_pulse_length
    vend_frequency].
  rewrite unique_pulse_length_single. reflexivity.
Qed.

(** ** Saving, and the shape of the spreading loss *)

Section Calibration_saving.
Variable calc_range : EchoData -> params -> params -> xarr.
Variable validate_proc_path : EchoData -> string -> option string -> string.
Variable now : string.
Variable _save_dataset : dataset -> string -> string -> outcome unit.
Variable nonfinite : R -> R.

(** X20. Saving does not change what is computed: for a call that finds
    its keys and can attach its range, and a persist collaborator that
    writes, the dataset handed to the collaborator with [save] on is the
    dataset a call with [save] off stores on the object, and both calls
    leave the same range on the object. *)
Theorem saved_product_is_stored_product (env_params cal_params : params) (s : state)
    (cal_type : string) (save_path : option string) (fmt : string) :
  calibration_request (ed_obj s) (range_used calc_range (ed_obj s) env_params cal_params)
    env_params cal_params cal_type ->
  persist_succeeds _save_dataset ->
  let saving := fst (_cal_narrowband calc_range validate_proc_path now _save_dataset nonfinite
                       env_params cal_params cal_type true save_path fmt s) in
  let storing := fst (_cal_narrowband calc_range validate_proc_path now _save_dataset nonfinite
                        env_params cal_params cal_type false save_path fmt s) in
  (exists ds, saved_dataset <$> last (persisted saving) = Some ds
              /\ product_attr cal_type (ed_obj storing) = Some ds)
  /\ range (ed_obj saving) = range (ed_obj storing).
Proof.
  intros [(-> & sos & alpha & tp & gc & eba & tdn & sac & Hkeys & Hattach)
         |(-> & sos & alpha & tp & gc & Hkeys & Hattach)] Hpersist saving storing;
    subst saving storing.
  - rewrite !(Sv_run_completes calc_range validate_proc_path now _save_dataset nonfinite
                env_params cal_params s _ save_path fmt _ _ _ _ _ _ _ Hkeys Hattach)
      by (intros _; exact Hpersist).
    cbn [fst persisted ed_obj]. rewrite last_snoc. unfold product_attr.
    rewrite String.eqb_refl. cbn [set_Sv set_Sv_path Sv range saved_dataset fmap option_fmap option_map].
    split; [eexists; split; reflexivity | reflexivity].
  - rewrite !(Sp_run_completes calc_range validate_proc_path now _save_dataset nonfinite
                env_params cal_params s _ save_path fmt _ _ _ _ Hkeys Hattach)
      by (intros _; exact Hpersist).
    cbn [fst persisted ed_obj]. rewrite last_snoc. unfold product_attr.
    change (String.eqb "Sp" "Sv") with false.
    cbn [set_Sp set_Sp_path Sp range saved_dataset fmap option_fmap option_map].
    split; [eexists; split; reflexivity | reflexivity].
Qed.

End Calibration_saving.

Lemma saved_product_is_stored_product_witness :
  let saving := fst (_cal_narrowband range_50 (fun _ _ _ => "out.zarr") "12:00:00" writes
                       minus_huge scenario_env scenario_cal "Sp" true None "zarr" fresh_state) in
  let storing := fst (_cal_narrowband range_50 (fun _ _ _ => "out.zarr") "12:00:00" writes
                        minus_huge scenario_env scenario_cal "Sp" false None "zarr" fresh_state) in
  range (ed_obj saving) = range (ed_obj storing).
Proof.
  apply (saved_product_is_stored_product range_50 (fun _ _ _ => "out.zarr") "12:00:00" writes
           minus_huge scenario_env scenario_cal fresh_state "Sp" None "zarr").
  - right. split; [reflexivity|].
    exists (scalar 1500), (per_channel [(1 / 100)%R]), (per_channel [1000%R]),
      (per_channel [20%R]).
    split; [repeat split; reflexivity|]. split; [reflexivity | repeat constructor].
  - intros ds path fmt. reflexivity.
Defined.

Local Open Scope R_scope.

Lemma log10_monotone (x y : R) : 0 < x -> x <= y -> log10 x <= log10 y.
Proof.
  intros Hx Hxy. unfold log10. pose proof ln_10_pos as Hln.
  apply Rmult_le_compat_r; [left; apply Rinv_0_lt_compat, Hln|].
  apply ln_le_compat; assumption.
Qed.

Local Close Scope R_scope.

(** X21. The spreading loss never decreases with range: of two samples,
    the one farther from the transducer has the larger or equal loss,
    and all samples within one unit of the transducer share the loss of
    a sample at exactly one unit. *)
Theorem spreading_loss_monotone (nonfinite : R -> R) (rng : xarr)
    (c1 p1 r1 c2 p2 r2 : nat) (rg1 rg2 : R) :
  xat rng c1 p1 r1 = Some rg1 -> xat rng c2 p2 r2 = Some rg2 ->
  (rg1 <= rg2)%R ->
  exists l1 l2,
    xat (spreading_loss nonfinite rng) c1 p1 r1 = Some l1
    /\ xat (spreading_loss nonfinite rng) c2 p2 r2 = Some l2
    /\ (l1 <= l2)%R
    /\ ((rg2 <= 1)%R -> l1 = l2).
Proof.
  intros H1 H2 Hle.
  exists (spec_spreading_loss rg1), (spec_spreading_loss rg2).
  split; [apply xat_spreading_loss, H1|]. split; [apply xat_spreading_loss, H2|].
  unfold spec_spreading_loss. split.
  - apply Rmult_le_compat_l; [lra|]. apply log10_monotone.
    + pose proof (Rmax_r rg1 1). lra.
    + apply Rle_max_compat_r, Hle.
  - intros Hone. rewrite !Rmax_right by lra. reflexivity.
Qed.

Lemma spreading_loss_monotone_witness :
  exists l1 l2,
    xat (spreading_loss minus_huge (cube [[[0%R; 50%R]]])) 0 0 0 = Some l1
    /\ xat (spreading_loss minus_huge (cube [[[0%R; 50%R]]])) 0 0 1 = Some l2
    /\ (l1 <= l2)%R.
Proof.
  destruct (spreading_loss_monotone minus_huge (cube [[[0%R; 50%R]]]) 0 0 0 0 0 1 0%R 50%R
              eq_refl eq_refl ltac:(lra)) as (l1 & l2 & H1 & H2 & Hle & _).
  exists l1, l2. repeat split; assumption.
Defined.
